(** * CreatorPulse: the trend scoring and ranking core

    A shallow embedding of [calculateTrendScore], [convertYouTubeToRankedTrends]
    and [combineAndRankTrends] (lib/trend-ranking) and of [extractTrendingTopics]
    (lib/firecrawl-mcp), with the properties stated about them; further of
    the post and page normalizers, the tagger and the categorizer
    (lib/trend-ranking), of the crawl orchestration (lib/firecrawl-mcp) and
    of the source icons and names (lib/favicon-utils).

    JavaScript numbers are modelled by [JS.number]: a real number, one of the
    two infinities, or NaN.  Arithmetic on finite values is the exact
    arithmetic of the reals (rounding and overflow of doubles are idealised
    away, and the sign of zero is not tracked); the special values follow
    IEEE 754 as ECMAScript prescribes. *)

From Stdlib Require Import Reals Lra Lia ZArith String Ascii List Bool.
From Stdlib Require Import Sorting.Sorted Sorting.Permutation.
From stdpp Require Import gmap strings list pretty.
Import ListNotations.

(* ===================================================================== *)
(** ** JavaScript numbers *)
(* ===================================================================== *)

Module JS.

Inductive number : Type :=
| Num (r : R)
| Infinity
| NegInfinity
| NaN.

Definition R_leb (a b : R) : bool := if Rle_dec a b then true else false.
Definition R_ltb (a b : R) : bool := if Rlt_dec a b then true else false.
Definition R_eqb (a b : R) : bool := if Req_dec_T a b then true else false.

Definition is_zero (v : number) : bool :=
  match v with Num r => R_eqb r 0 | _ => false end.

Definition is_neg (v : number) : bool :=
  match v with Num r => R_ltb r 0 | NegInfinity => true | _ => false end.

Definition inf_of (negative : bool) : number :=
  if negative then NegInfinity else Infinity.

(** Unary minus. *)
Definition neg (v : number) : number :=
  match v with
  | Num r => Num (- r)
  | Infinity => NegInfinity
  | NegInfinity => Infinity
  | NaN => NaN
  end.

(** [a + b] *)
Definition add (a b : number) : number :=
  match a, b with
  | NaN, _ | _, NaN => NaN
  | Num p, Num q => Num (p + q)
  | Infinity, NegInfinity | NegInfinity, Infinity => NaN
  | Infinity, _ | _, Infinity => Infinity
  | NegInfinity, _ | _, NegInfinity => NegInfinity
  end.

(** [a - b] *)
Definition sub (a b : number) : number := add a (neg b).

(** [a * b] *)
Definition mul (a b : number) : number :=
  match a, b with
  | NaN, _ | _, NaN => NaN
  | Num p, Num q => Num (p * q)
  | _, _ =>
      if is_zero a || is_zero b then NaN
      else inf_of (xorb (is_neg a) (is_neg b))
  end.

(** [a / b]; a zero divisor is taken as +0. *)
Definition div (a b : number) : number :=
  match a, b with
  | NaN, _ | _, NaN => NaN
  | Num p, Num q =>
      if R_eqb q 0
      then (if R_eqb p 0 then NaN else inf_of (R_ltb p 0))
      else Num (p / q)
  | Num _, _ => Num 0
  | _, Num q => inf_of (xorb (is_neg a) (R_ltb q 0))
  | _, _ => NaN
  end.

(** [a <= b]; every comparison with NaN is false. *)
Definition le (a b : number) : bool :=
  match a, b with
  | NaN, _ | _, NaN => false
  | Num p, Num q => R_leb p q
  | NegInfinity, _ => true
  | _, Infinity => true
  | _, _ => false
  end.

Definition ge (a b : number) : bool := le b a.
Definition lt (a b : number) : bool := le a b && negb (le b a).
Definition gt (a b : number) : bool := lt b a.

Definition Math_min (a b : number) : number :=
  match a, b with
  | NaN, _ | _, NaN => NaN
  | _, _ => if le a b then a else b
  end.

Definition Math_max (a b : number) : number :=
  match a, b with
  | NaN, _ | _, NaN => NaN
  | _, _ => if le a b then b else a
  end.

(** [Math.exp] with the exact exponential on finite values: that a
    double underflows to 0 for arguments below about -745 is part of the
    rounding left out of the model, and no statement below rests on the
    result being positive. *)
Definition Math_exp (v : number) : number :=
  match v with
  | Num r => Num (exp r)
  | Infinity => Infinity
  | NegInfinity => Num 0
  | NaN => NaN
  end.

Definition Math_log10 (v : number) : number :=
  match v with
  | Num r =>
      if R_ltb r 0 then NaN
      else if R_eqb r 0 then NegInfinity
      else Num (ln r / ln 10)
  | Infinity => Infinity
  | NegInfinity | NaN => NaN
  end.

(** [v || d] for an optional numeric property: [undefined], [0] and [NaN]
    are falsy. *)
Definition num_or (v : option number) (d : number) : number :=
  match v with
  | None => d
  | Some NaN => d
  | Some (Num r) => if R_eqb r 0 then d else Num r
  | Some w => w
  end.

(** [s || d] for an optional string property: [undefined] and the empty
    string are falsy. *)
Definition str_or (v : option string) (d : string) : string :=
  match v with
  | None => d
  | Some s => if String.eqb s "" then d else s
  end.

(** A default of a parameter, of a destructured property, or of [v || d]
    for an array [v]: it applies when the value is [undefined]. *)
Definition default_to {A : Type} (v : option A) (d : A) : A :=
  match v with Some a => a | None => d end.

Definition isFinite (v : number) : bool :=
  match v with Num _ => true | _ => false end.

End JS.

Import JS.

Declare Scope js_scope.
Delimit Scope js_scope with js.
Infix "+" := JS.add : js_scope.
Infix "-" := JS.sub : js_scope.
Infix "*" := JS.mul : js_scope.
Infix "/" := JS.div : js_scope.
Infix "<=?" := JS.le : js_scope.
Infix ">=?" := JS.ge : js_scope.
Infix ">?" := JS.gt : js_scope.

(* ===================================================================== *)
(** ** The data model of lib/trend-ranking *)
(* ===================================================================== *)

Record TrendScore : Type := {
  recency : number;
  popularity : number;
  engagement : number;
  overall : number
}.

Inductive SourceType : Type := st_x | st_youtube | st_news | st_global.

Inductive Category : Type :=
| technology | business | social | entertainment | science | general.

Definition category_name (c : Category) : string :=
  match c with
  | technology => "technology"
  | business => "business"
  | social => "social"
  | entertainment => "entertainment"
  | science => "science"
  | general => "general"
  end.

Record Metrics : Type := {
  likes : option number;
  shares : option number;
  comments : option number;
  views : option number;
  retweets : option number
}.

(** The object literal [{}]. *)
Definition no_metrics : Metrics :=
  {| likes := None; shares := None; comments := None;
     views := None; retweets := None |}.

Record RankedTrend : Type := {
  rt_id : string;
  rt_title : string;
  rt_content : string;
  rt_source : string;
  rt_sourceType : SourceType;
  rt_url : string;
  rt_timestamp : string;
  rt_metrics : Metrics;
  rt_score : TrendScore;
  rt_tags : list string;
  rt_category : Category
}.

(** [Partial<RankedTrend>]: the two properties the scorer reads are kept,
    each optional. *)
Record PartialTrend : Type := {
  pt_timestamp : option string;
  pt_metrics : option Metrics
}.

Definition as_partial (t : RankedTrend) : PartialTrend :=
  {| pt_timestamp := Some (rt_timestamp t); pt_metrics := Some (rt_metrics t) |}.

(* ===================================================================== *)
(** ** The scorer *)
(* ===================================================================== *)

(** A [Date] object: its time value, an integral number of milliseconds
    since the epoch, or [None] for an Invalid Date. *)
Definition Date : Type := option Z.

(** [d.getTime()] *)
Definition getTime (d : Date) : number :=
  match d with
  | Some t => Num (IZR t)
  | None => NaN
  end.

Section Scorer.

(** The platform's date parser, [new Date(s)] for a string [s]. *)
Variable Date_parse : string -> Date.

(** [now] is the time value read by [new Date()]. *)
Variable now : Z.

(** [new Date(trend.timestamp || now)] *)
Definition scoreDate (ts : option string) : Date :=
  match ts with
  | None => Some now
  | Some s => if String.eqb s "" then Some now else Date_parse s
  end.

Definition msPerHour : number := (Num 1000 * Num 60 * Num 60)%js.

(** [(now.getTime() - trendTime.getTime()) / (1000 * 60 * 60)] *)
Definition ageInHoursOf (trendTime : Date) : number :=
  ((getTime (Some now) - getTime trendTime) / msPerHour)%js.

Definition calculateTrendScore (trend : PartialTrend) : TrendScore :=
  let trendTime := scoreDate (pt_timestamp trend) in
  let ageInHours := ageInHoursOf trendTime in
  let recency :=
    Math_max (Num 0) (Math_min (Num 1) (Math_exp (neg ageInHours / Num 24)%js)) in
  let metrics := match pt_metrics trend with Some m => m | None => no_metrics end in
  let totalEngagement :=
    (num_or (likes metrics) (Num 0) +
     num_or (shares metrics) (Num 0) +
     num_or (comments metrics) (Num 0) +
     num_or (retweets metrics) (Num 0) +
     num_or (views metrics) (Num 0) / Num 100)%js in
  let popularity :=
    Math_min (Num 1) (Math_log10 (totalEngagement + Num 1) / Num 6)%js in
  let activeEngagement :=
    (num_or (comments metrics) (Num 0) + num_or (shares metrics) (Num 0) +
     num_or (retweets metrics) (Num 0))%js in
  let totalImpressions :=
    Math_max (num_or (views metrics) (Num 0)) (num_or (likes metrics) (Num 0)) in
  let engagement :=
    if (totalImpressions >? Num 0)%js
    then Math_min (Num 1) (activeEngagement / totalImpressions * Num 100)%js
    else Num 0 in
  let overall :=
    (recency * Num 0.4 + popularity * Num 0.4 + engagement * Num 0.2)%js in
  {| recency := recency;
     popularity := popularity;
     engagement := engagement;
     overall := overall |}.

End Scorer.

(* ===================================================================== *)
(** ** A reference implementation of the date interchange format *)
(* ===================================================================== *)

(** The scorer and the ranker are parametric in the platform's date parser.
    Where a concrete platform is needed (closed examples), the parser and
    printer of the ECMAScript date-time string format in UTC are used:
    [YYYY-MM-DDTHH:mm:ss.sssZ], the milliseconds optional on input.  Every
    other string is an Invalid Date here. *)

Module ISO.

Local Open Scope Z_scope.

Definition digit (c : ascii) : option Z :=
  let n := Z.of_nat (nat_of_ascii c) in
  if (48 <=? n) && (n <=? 57) then Some (n - 48) else None.

(** Exactly [n] decimal digits. *)
Fixpoint digits (n : nat) (acc : Z) (s : list ascii) : option (Z * list ascii) :=
  match n with
  | O => Some (acc, s)
  | S n' =>
      match s with
      | c :: rest => d ← digit c; digits n' (10 * acc + d) rest
      | [] => None
      end
  end.

Definition expect (c : ascii) (s : list ascii) : option (list ascii) :=
  match s with
  | c' :: rest => if Ascii.eqb c c' then Some rest else None
  | [] => None
  end.

Definition isLeap (y : Z) : bool :=
  ((y mod 4 =? 0) && negb (y mod 100 =? 0)) || (y mod 400 =? 0).

Definition daysInMonth (y m : Z) : Z :=
  if m =? 2 then (if isLeap y then 29 else 28)
  else if (m =? 4) || (m =? 6) || (m =? 9) || (m =? 11) then 30 else 31.

(** Days between 1970-01-01 and the civil date [y-m-d]. *)
Definition daysFromCivil (y m d : Z) : Z :=
  let y' := if m <=? 2 then y - 1 else y in
  let era := y' / 400 in
  let yoe := y' - era * 400 in
  let doy := (153 * (if 2 <? m then m - 3 else m + 9) + 2) / 5 + d - 1 in
  let doe := yoe * 365 + yoe / 4 - yoe / 100 + doy in
  era * 146097 + doe - 719468.

Definition civilFromDays (z : Z) : Z * Z * Z :=
  let z := z + 719468 in
  let era := z / 146097 in
  let doe := z - era * 146097 in
  let yoe := (doe - doe / 1460 + doe / 36524 - doe / 146096) / 365 in
  let doy := doe - (365 * yoe + yoe / 4 - yoe / 100) in
  let mp := (5 * doy + 2) / 153 in
  let d := doy - (153 * mp + 2) / 5 + 1 in
  let m := if mp <? 10 then mp + 3 else mp - 9 in
  (if m <=? 2 then yoe + era * 400 + 1 else yoe + era * 400, m, d).

(** Time value of [YYYY-MM-DDTHH:mm:ssZ] or [YYYY-MM-DDTHH:mm:ss.sssZ]. *)
Definition parse (s : string) : option Z :=
  '(y, r) ← digits 4 0 (list_ascii_of_string s);
  r ← expect "-" r;
  '(m, r) ← digits 2 0 r;
  r ← expect "-" r;
  '(d, r) ← digits 2 0 r;
  r ← expect "T" r;
  '(h, r) ← digits 2 0 r;
  r ← expect ":" r;
  '(mi, r) ← digits 2 0 r;
  r ← expect ":" r;
  '(sec, r) ← digits 2 0 r;
  '(ms, r) ← match expect "." r with
             | Some r' => digits 3 0 r'
             | None => Some (0, r)
             end;
  r ← expect "Z" r;
  if (match r with [] => true | _ => false end)
     && (1 <=? m) && (m <=? 12) && (1 <=? d) && (d <=? daysInMonth y m)
     && (h <=? 23) && (mi <=? 59) && (sec <=? 59)
  then Some ((((daysFromCivil y m d * 24 + h) * 60 + mi) * 60 + sec) * 1000 + ms)
  else None.

Definition digitChar (d : Z) : ascii := ascii_of_nat (Z.to_nat (48 + d mod 10)).

(** [n] written with [w] digits, zero padded. *)
Fixpoint pad (w : nat) (n : Z) : list ascii :=
  match w with
  | O => []
  | S w' => pad w' (n / 10) ++ [digitChar n]
  end.

Definition format (t : Z) : string :=
  let day := t / 86400000 in
  let rem := t mod 86400000 in
  let '(y, m, d) := civilFromDays day in
  let year :=
    if (0 <=? y) && (y <=? 9999) then pad 4 y
    else (if y <? 0 then "-"%char else "+"%char) :: pad 6 (Z.abs y) in
  string_of_list_ascii
    (year ++ ["-"%char] ++ pad 2 m ++ ["-"%char] ++ pad 2 d ++ ["T"%char] ++
     pad 2 (rem / 3600000) ++ [":"%char] ++ pad 2 (rem / 60000 mod 60) ++
     [":"%char] ++ pad 2 (rem / 1000 mod 60) ++ ["."%char] ++
     pad 3 (rem mod 1000) ++ ["Z"%char]).

End ISO.

(* ===================================================================== *)
(** ** [parseInt] *)
(* ===================================================================== *)

(** A string is read as its sequence of code units; the characters of the
    model are the code units below 256. *)

Module ParseInt.

Local Open Scope Z_scope.

Definition code (c : ascii) : Z := Z.of_nat (nat_of_ascii c).

(** White space and line terminators: TAB, LF, VT, FF, CR, SP, NBSP. *)
Definition isStrWhiteSpace (c : ascii) : bool :=
  let n := code c in
  ((9 <=? n) && (n <=? 13)) || (n =? 32) || (n =? 160).

Fixpoint trimStart (s : list ascii) : list ascii :=
  match s with
  | c :: rest => if isStrWhiteSpace c then trimStart rest else s
  | [] => []
  end.

(** The value of a digit in radix up to 36. *)
Definition digitValue (c : ascii) : option Z :=
  let n := code c in
  if (48 <=? n) && (n <=? 57) then Some (n - 48)
  else if (97 <=? n) && (n <=? 122) then Some (n - 87)
  else if (65 <=? n) && (n <=? 90) then Some (n - 55)
  else None.

(** The longest prefix of radix-[radix] digits, as an integer; [acc] is
    [None] until a digit has been read. *)
Fixpoint readDigits (radix : Z) (s : list ascii) (acc : option Z) : option Z :=
  match s with
  | c :: rest =>
      match digitValue c with
      | Some d =>
          if d <? radix
          then readDigits radix rest (Some (radix * default 0 acc + d))
          else acc
      | None => acc
      end
  | [] => acc
  end.

(** A leading sign: its value, and the text after it. *)
Definition stripSign (s : list ascii) : Z * list ascii :=
  match s with
  | "-"%char :: rest => (-1, rest)
  | "+"%char :: rest => (1, rest)
  | _ => (1, s)
  end.

(** A leading [0x] or [0X] selects radix 16; the radix is 10 otherwise. *)
Definition stripPrefix (s : list ascii) : Z * list ascii :=
  match s with
  | "0"%char :: "x"%char :: rest => (16, rest)
  | "0"%char :: "X"%char :: rest => (16, rest)
  | _ => (10, s)
  end.

(** [parseInt(s)] without a radix argument: [None] stands for NaN. *)
Definition parseIntZ (s : string) : option Z :=
  let '(sign, s2) := stripSign (trimStart (list_ascii_of_string s)) in
  let '(radix, s3) := stripPrefix s2 in
  match readDigits radix s3 None with
  | Some n => Some (sign * n)
  | None => None
  end.

End ParseInt.

(** The double nearest to the integer [a >= 0], ties going to the even
    significand of 53 bits; [None] when that is beyond the largest double.
    Below [2 ^ 53] every integer is a double. *)
Definition nearestDouble (a : Z) : option Z :=
  if (a <? 2 ^ 53)%Z then Some a
  else
    let e := (Z.log2 a - 52)%Z in
    let q := Z.shiftr a e in
    let r := (a - Z.shiftl q e)%Z in
    let half := (2 ^ (e - 1))%Z in
    let q' := if (half <? r)%Z || ((r =? half)%Z && Z.odd q) then (q + 1)%Z else q in
    let m := Z.shiftl q' e in
    if (2 ^ 1024 <=? m)%Z then None else Some m.

(** The Number value for an integer. *)
Definition Number_ofInteger (z : Z) : number :=
  match nearestDouble (Z.abs z) with
  | Some m => Num (IZR (Z.sgn z * m))
  | None => inf_of (z <? 0)%Z
  end.

(** [parseInt(s)]: the integer read, as a Number.  (Past the twentieth
    significant digit an engine may read zeros; the exact integer is
    taken here, as the common engines do.) *)
Definition parseInt (s : string) : number :=
  match ParseInt.parseIntZ s with
  | Some z => Number_ofInteger z
  | None => NaN
  end.

(* ===================================================================== *)
(** ** The video normalizer *)
(* ===================================================================== *)

Record Snippet : Type := {
  sn_title : option string;
  sn_description : option string;
  sn_channelTitle : option string;
  sn_publishedAt : option string;
  sn_tags : option (list string)
}.

Record Statistics : Type := {
  viewCount : option string;
  likeCount : option string;
  commentCount : option string
}.

Record YouTubeVideo : Type := {
  yt_id : string;
  yt_snippet : option Snippet;
  yt_statistics : option Statistics
}.

(** Programs that read the wall clock: the state counts the readings made
    so far. *)
Definition Clock (A : Type) : Type := nat -> A * nat.

#[global] Instance Clock_ret : MRet Clock := fun A a k => (a, k).

#[global] Instance Clock_bind : MBind Clock := fun A B f m k =>
  let '(a, k') := m k in f a k'.

(** [xs.map(f)] for a callback that reads the clock. *)
Fixpoint Array_mapM {A B : Type} (f : A -> Clock B) (xs : list A) : Clock (list B) :=
  match xs with
  | [] => mret []
  | x :: rest => y ← f x; ys ← Array_mapM f rest; mret (y :: ys)
  end.

Section Converter.

Variable Date_parse : string -> Date.

(** [d.toISOString()] for the valid date of time value [t]. *)
Variable Date_toISOString : Z -> string.

(** The time value of the [k]-th reading of the wall clock. *)
Variable clock : nat -> Z.

(** [new Date()] *)
Definition new_Date : Clock Z := fun k => (clock k, S k).

(** [calculateTrendScore(trend)], reading the clock for [now]. *)
Definition calculateTrendScore_now (trend : PartialTrend) : Clock TrendScore :=
  now ← new_Date; mret (calculateTrendScore Date_parse now trend).

Definition zero_score : TrendScore :=
  {| recency := Num 0; popularity := Num 0; engagement := Num 0; overall := Num 0 |}.

Definition with_score (trend : RankedTrend) (sc : TrendScore) : RankedTrend :=
  {| rt_id := rt_id trend;
     rt_title := rt_title trend;
     rt_content := rt_content trend;
     rt_source := rt_source trend;
     rt_sourceType := rt_sourceType trend;
     rt_url := rt_url trend;
     rt_timestamp := rt_timestamp trend;
     rt_metrics := rt_metrics trend;
     rt_score := sc;
     rt_tags := rt_tags trend;
     rt_category := rt_category trend |}.

(** The callback of the [map]. *)
Definition convertVideo (video : YouTubeVideo) : Clock RankedTrend :=
  let snippet := yt_snippet video in
  let statistics := yt_statistics video in
  timestamp ←
    match snippet ≫= sn_publishedAt with
    | Some s =>
        if String.eqb s "" then (d ← new_Date; mret (Date_toISOString d))
        else mret s
    | None => d ← new_Date; mret (Date_toISOString d)
    end;
  let trend :=
    {| rt_id := "yt_" +:+ yt_id video;
       rt_title := str_or (snippet ≫= sn_title) "Untitled Video";
       rt_content := str_or (snippet ≫= sn_description) "";
       rt_source := str_or (snippet ≫= sn_channelTitle) "Unknown Channel";
       rt_sourceType := st_youtube;
       rt_url := "https://youtube.com/watch?v=" +:+ yt_id video;
       rt_timestamp := timestamp;
       rt_metrics :=
         {| views := Some (parseInt (str_or (statistics ≫= viewCount) "0"));
            likes := Some (parseInt (str_or (statistics ≫= likeCount) "0"));
            comments := Some (parseInt (str_or (statistics ≫= commentCount) "0"));
            shares := None;
            retweets := None |};
       rt_score := zero_score;
       rt_tags := default_to (snippet ≫= sn_tags) [];
       rt_category := general |} in
  sc ← calculateTrendScore_now (as_partial trend);
  mret (with_score trend sc).

Definition convertYouTubeToRankedTrends (videos : list YouTubeVideo)
    : Clock (list RankedTrend) :=
  Array_mapM convertVideo videos.

End Converter.

(* ===================================================================== *)
(** ** Array built-ins *)
(* ===================================================================== *)

(** [a.includes(s)] on an array of strings. *)
Definition Array_includes (a : list string) (s : string) : bool :=
  existsb (String.eqb s) a.

(** One insertion step of the sort: [x] goes before the first [y] that the
    comparator places after it ([cmp(y, x) > 0]).  A NaN from the comparator
    counts as 0, as [Array.prototype.sort] prescribes. *)
Fixpoint sort_insert {A : Type} (cmp : A -> A -> number) (x : A) (l : list A) : list A :=
  match l with
  | [] => [x]
  | y :: l' =>
      if (cmp y x >? Num 0)%js then x :: y :: l'
      else y :: sort_insert cmp x l'
  end.

(** [a.sort(cmp)]: the sort is stable, so for a consistent comparator its
    result is the one of any stable sort; insertion sort is taken. *)
Definition Array_sort {A : Type} (cmp : A -> A -> number) (l : list A) : list A :=
  fold_left (fun acc x => sort_insert cmp x acc) l [].

(** Truncation toward zero of a real. *)
Definition truncate (r : R) : Z :=
  if Rle_dec 0 r then Int_part r else (- Int_part (- r))%Z.

(** [a.slice(start, end)] for integral [start] and [end]; a negative index
    counts from the end of the array. *)
Definition slice_int {A : Type} (l : list A) (start end_ : Z) : list A :=
  let len := Z.of_nat (length l) in
  let k := if (start <? 0)%Z then Z.max (len + start) 0 else Z.min start len in
  let final := if (end_ <? 0)%Z then Z.max (len + end_) 0 else Z.min end_ len in
  firstn (Z.to_nat (final - k)) (skipn (Z.to_nat k) l).

(** [a.slice(start, end)] where [end] is any number: it is first turned
    into an integer or an infinity. *)
Definition Array_slice {A : Type} (l : list A) (start : Z) (end_ : number) : list A :=
  match end_ with
  | Num r => slice_int l start (truncate r)
  | NaN => slice_int l start 0
  | Infinity => slice_int l start (Z.of_nat (length l))
  | NegInfinity => []
  end.

(* ===================================================================== *)
(** ** The ranker *)
(* ===================================================================== *)

(** The [options] argument; every property is optional. *)
Record RankOptions : Type := {
  maxResults : option number;
  minScore : option number;
  categories : option (list string);
  timeWindow : option number
}.

(** The object literal [{}], the default of the [options] parameter. *)
Definition no_options : RankOptions :=
  {| maxResults := None; minScore := None; categories := None; timeWindow := None |}.

Section Ranker.

Variable Date_parse : string -> Date.
Variable now : Z.

(** The callback of the time-window filter. *)
Definition withinTimeWindow (timeWindow : number) (trend : RankedTrend) : bool :=
  let trendTime := Date_parse (rt_timestamp trend) in
  let ageInHours :=
    ((getTime (Some now) - getTime trendTime) / (Num 1000 * Num 60 * Num 60))%js in
  (ageInHours <=? timeWindow)%js.

(** The callback of the category filter. *)
Definition inCategories (categories : list string) (trend : RankedTrend) : bool :=
  Array_includes categories (category_name (rt_category trend)).

(** The callback of the score filter. *)
Definition meetsMinScore (minScore : number) (trend : RankedTrend) : bool :=
  (overall (rt_score trend) >=? minScore)%js.

(** The comparator of the sort. *)
Definition byOverallDesc (a b : RankedTrend) : number :=
  (overall (rt_score b) - overall (rt_score a))%js.

Definition combineAndRankTrends
    (userTrends globalTrends : list RankedTrend)
    (options : option RankOptions) : list RankedTrend :=
  let options := default_to options no_options in
  let maxResults := default_to (maxResults options) (Num 50) in
  let minScore := default_to (minScore options) (Num 0.1) in
  let categories := default_to (categories options) [] in
  let timeWindow := default_to (timeWindow options) (Num 24) in
  let allTrends := userTrends ++ globalTrends in
  let filtered := List.filter (withinTimeWindow timeWindow) allTrends in
  let categoryFiltered :=
    if (0 <? length categories)%nat
    then List.filter (inCategories categories) filtered
    else filtered in
  let scoreFiltered := List.filter (meetsMinScore minScore) categoryFiltered in
  let sorted := Array_sort byOverallDesc scoreFiltered in
  Array_slice sorted 0 maxResults.

End Ranker.

(* ===================================================================== *)
(** ** The ranker on the heap *)
(* ===================================================================== *)

(** [combineAndRankTrends] receives two array references whose elements are
    references to trend objects.  To state what the call leaves untouched it
    is run here on a store of arrays and objects; a read through a dangling
    reference fails.  The console is part of the store. *)

Module Heap.

Definition loc : Type := positive.

Record Store : Type := {
  arrays : gmap loc (list loc);
  objects : gmap loc RankedTrend;
  console : list string
}.

Definition Prog (A : Type) : Type := Store -> option (A * Store).

#[global] Instance Prog_ret : MRet Prog := fun A a σ => Some (a, σ).

#[global] Instance Prog_bind : MBind Prog := fun A B f m σ =>
  match m σ with
  | Some (a, σ') => f a σ'
  | None => None
  end.

Definition readArray (a : loc) : Prog (list loc) := fun σ =>
  match arrays σ !! a with
  | Some l => Some (l, σ)
  | None => None
  end.

Definition readObject (o : loc) : Prog RankedTrend := fun σ =>
  match objects σ !! o with
  | Some t => Some (t, σ)
  | None => None
  end.

(** Allocation of a new array. *)
Definition newArray (l : list loc) : Prog loc := fun σ =>
  let a := fresh (dom (arrays σ)) in
  Some (a, {| arrays := <[a := l]> (arrays σ);
              objects := objects σ;
              console := console σ |}).

(** Assignment of the whole content of an existing array. *)
Definition writeArray (a : loc) (l : list loc) : Prog unit := fun σ =>
  match arrays σ !! a with
  | Some _ => Some (tt, {| arrays := <[a := l]> (arrays σ);
                           objects := objects σ;
                           console := console σ |})
  | None => None
  end.

Definition console_log (line : string) : Prog unit := fun σ =>
  Some (tt, {| arrays := arrays σ;
               objects := objects σ;
               console := console σ ++ [line] |}).

(** [a.length] *)
Definition Array_length (a : loc) : Prog number :=
  l ← readArray a; mret (Num (INR (length l))).

(** [[...a, ...b]] *)
Definition Array_spread2 (a b : loc) : Prog loc :=
  la ← readArray a; lb ← readArray b; newArray (la ++ lb).

Fixpoint filterM (p : loc -> Prog bool) (l : list loc) : Prog (list loc) :=
  match l with
  | [] => mret []
  | o :: l' =>
      keep ← p o;
      rest ← filterM p l';
      mret (if keep : bool then o :: rest else rest)
  end.

(** [a.filter(p)]: a new array. *)
Definition Array_filter (p : loc -> Prog bool) (a : loc) : Prog loc :=
  l ← readArray a; kept ← filterM p l; newArray kept.

Fixpoint insertM (cmp : loc -> loc -> Prog number) (x : loc) (l : list loc)
    : Prog (list loc) :=
  match l with
  | [] => mret [x]
  | y :: l' =>
      v ← cmp y x;
      if (v >? Num 0)%js then mret (x :: y :: l')
      else (rest ← insertM cmp x l'; mret (y :: rest))
  end.

Fixpoint sortM (cmp : loc -> loc -> Prog number) (l acc : list loc)
    : Prog (list loc) :=
  match l with
  | [] => mret acc
  | x :: l' => acc' ← insertM cmp x acc; sortM cmp l' acc'
  end.

(** [a.sort(cmp)]: sorts [a] in place and returns [a] itself. *)
Definition Array_sort_in_place (cmp : loc -> loc -> Prog number) (a : loc) : Prog loc :=
  l ← readArray a; sorted ← sortM cmp l []; _ ← writeArray a sorted; mret a.

(** [a.slice(start, end)]: a new array. *)
Definition Array_slice_new (a : loc) (start : Z) (end_ : number) : Prog loc :=
  l ← readArray a; newArray (Array_slice l start end_).

Section Program.

Variable Date_parse : string -> Date.
Variable now : Z.

(** The platform's conversion of a number to a string, as a template
    literal applies it. *)
Variable Number_toString : number -> string.

Definition combineAndRankTrends
    (userTrends globalTrends : loc) (options : option RankOptions) : Prog loc :=
  let options := default_to options no_options in
  let maxResults := default_to (maxResults options) (Num 50) in
  let minScore := default_to (minScore options) (Num 0.1) in
  let categories := default_to (categories options) [] in
  let timeWindow := default_to (timeWindow options) (Num 24) in
  nu ← Array_length userTrends;
  ng ← Array_length globalTrends;
  _ ← console_log ("🔀 Combining " +:+ Number_toString nu +:+ " user trends with "
                   +:+ Number_toString ng +:+ " global trends");
  allTrends ← Array_spread2 userTrends globalTrends;
  filtered ← Array_filter
    (fun trend => t ← readObject trend;
                  mret (withinTimeWindow Date_parse now timeWindow t)) allTrends;
  categoryFiltered ←
    (if (0 <? length categories)%nat
     then Array_filter
            (fun trend => t ← readObject trend; mret (inCategories categories t))
            filtered
     else mret filtered);
  scoreFiltered ← Array_filter
    (fun trend => t ← readObject trend; mret (meetsMinScore minScore t))
    categoryFiltered;
  sorted ← Array_sort_in_place
    (fun a b => ta ← readObject a; tb ← readObject b; mret (byOverallDesc ta tb))
    scoreFiltered;
  ns ← Array_length sorted;
  _ ← console_log ("✨ Ranked " +:+ Number_toString ns +:+ " trends, returning top "
                   +:+ Number_toString maxResults);
  Array_slice_new sorted 0 maxResults.

End Program.

(** The trend objects behind a list of references. *)
Definition pointsTo (σ : Store) (l : list loc) (ts : list RankedTrend) : Prop :=
  Forall2 (fun o t => objects σ !! o = Some t) l ts.

(** [σ'] keeps every object and every array of [σ] as it is. *)
Definition preserves (σ σ' : Store) : Prop :=
  objects σ' = objects σ /\
  forall (a : loc) (l : list loc), arrays σ !! a = Some l -> arrays σ' !! a = Some l.

End Heap.

(* ===================================================================== *)
(** ** Topic extraction (lib/firecrawl-mcp) *)
(* ===================================================================== *)

Module Text.

Local Open Scope Z_scope.

Definition code (c : ascii) : Z := Z.of_nat (nat_of_ascii c).

Definition isUpper (c : ascii) : bool := (65 <=? code c) && (code c <=? 90).
Definition isLower (c : ascii) : bool := (97 <=? code c) && (code c <=? 122).
Definition isDigit (c : ascii) : bool := (48 <=? code c) && (code c <=? 57).

(** The class [\w]. *)
Definition isWordChar (c : ascii) : bool :=
  isUpper c || isLower c || isDigit c || (code c =? 95).

(** [toLowerCase] on one code unit below 256: the letters A-Z and the
    accented capitals, the multiplication sign apart. *)
Definition lowerChar (c : ascii) : ascii :=
  let n := code c in
  if isUpper c || ((192 <=? n) && (n <=? 222) && negb (n =? 215))
  then ascii_of_nat (Z.to_nat (n + 32)) else c.

Fixpoint toLowerCase (s : string) : string :=
  match s with
  | EmptyString => EmptyString
  | String c rest => String (lowerChar c) (toLowerCase rest)
  end.

(** [s.startsWith(c)] for a one-character string [c]. *)
Definition startsWith (s : string) (c : ascii) : bool :=
  match s with
  | String c' _ => Ascii.eqb c' c
  | EmptyString => false
  end.

(** *** [content.match(/#[\w\d_]+/g)] and [content.match(/@[\w\d_]+/g)] *)

(** A token under construction is closed when it has at least one word
    character after its marker. *)
Definition emit (cur : option (list ascii)) : list string :=
  match cur with
  | Some (m :: w :: tok) => [string_of_list_ascii (m :: w :: tok)]
  | _ => []
  end.

Definition start (marker c : ascii) : option (list ascii) :=
  if Ascii.eqb c marker then Some [marker] else None.

(** One pass over the text; [cur] is the marker and the word characters
    read since it, when a token is open. *)
Fixpoint scanTagged (marker : ascii) (cur : option (list ascii)) (s : list ascii)
    : list string :=
  match s with
  | [] => emit cur
  | c :: rest =>
      match cur with
      | Some tok =>
          if isWordChar c then scanTagged marker (Some (tok ++ [c])) rest
          else emit cur ++ scanTagged marker (start marker c) rest
      | None => scanTagged marker (start marker c) rest
      end
  end.

(** All matches of [marker] followed by one or more word characters. *)
Definition matchTagged (marker : ascii) (content : string) : list string :=
  scanTagged marker None (list_ascii_of_string content).

(** *** [new RegExp('\\b' + keyword + '\\b', 'gi')] *)

(** [\b] between a character and the next; [None] is an end of the text. *)
Definition wordAt (c : option ascii) : bool :=
  match c with Some a => isWordChar a | None => false end.

Definition boundary (prev next : option ascii) : bool :=
  xorb (wordAt prev) (wordAt next).

(** Case folding of the letters A-Z, as the [i] flag compares them. *)
Definition lowerASCII (c : ascii) : ascii :=
  if isUpper c then ascii_of_nat (Z.to_nat (code c + 32)) else c.

(** A pattern character against a text character, ignoring case; the dot
    stands for any character but a line terminator. *)
Definition charMatches (p c : ascii) : bool :=
  if Ascii.eqb p "."%char then negb ((code c =? 10) || (code c =? 13))
  else Ascii.eqb (lowerASCII p) (lowerASCII c).

(** The pattern characters against a prefix of the text; the result is the
    last matched character and the rest of the text. *)
Fixpoint matchChars (pat : list ascii) (last : option ascii) (s : list ascii)
    : option (option ascii * list ascii) :=
  match pat with
  | [] => Some (last, s)
  | p :: pat' =>
      match s with
      | c :: rest => if charMatches p c then matchChars pat' (Some c) rest else None
      | [] => None
      end
  end.

(** [\bkeyword\b] at the head of [s], [prev] being the character before. *)
Definition keywordAt (pat : list ascii) (prev : option ascii) (s : list ascii) : bool :=
  boundary prev (head s) &&
  match matchChars pat prev s with
  | Some (last, rest) => boundary last (head rest)
  | None => false
  end.

(** The number of matches, found left to right without overlap; [skip]
    counts the characters of the last match still to pass. *)
Fixpoint countFrom (pat : list ascii) (prev : option ascii) (skip : nat)
    (s : list ascii) : nat :=
  match s with
  | [] => O
  | c :: rest =>
      match skip with
      | S k => countFrom pat (Some c) k rest
      | O =>
          if keywordAt pat prev s
          then S (countFrom pat (Some c) (Nat.pred (length pat)) rest)
          else countFrom pat (Some c) O rest
      end
  end.

(** [(content.match(regex) || []).length] *)
Definition countKeyword (keyword content : string) : nat :=
  countFrom (list_ascii_of_string keyword) None O (list_ascii_of_string content).

(** *** [content.match(/\b[A-Z][a-z]+ [A-Z][a-z]+\b/g)] *)

(** The longest prefix of lower-case letters, and the rest. *)
Fixpoint spanLower (s : list ascii) : list ascii * list ascii :=
  match s with
  | c :: rest =>
      if isLower c then let '(w, r) := spanLower rest in (c :: w, r)
      else ([], s)
  | [] => ([], [])
  end.

(** A capitalised word: a capital and one or more lower-case letters. *)
Definition capitalised (s : list ascii) : option (list ascii * list ascii) :=
  match s with
  | c :: rest =>
      if isUpper c
      then match spanLower rest with
           | (l :: w, r) => Some (c :: l :: w, r)
           | ([], _) => None
           end
      else None
  | [] => None
  end.

(** Two capitalised words about one space, between word boundaries. *)
Definition phraseAt (prev : option ascii) (s : list ascii) : option (list ascii) :=
  if wordAt prev then None
  else
    match capitalised s with
    | Some (w1, " "%char :: r1) =>
        match capitalised r1 with
        | Some (w2, r2) =>
            if wordAt (head r2) then None else Some (w1 ++ " "%char :: w2)
        | None => None
        end
    | _ => None
    end.

Fixpoint phrasesFrom (prev : option ascii) (skip : nat) (s : list ascii) : list string :=
  match s with
  | [] => []
  | c :: rest =>
      match skip with
      | S k => phrasesFrom (Some c) k rest
      | O =>
          match phraseAt prev s with
          | Some m =>
              string_of_list_ascii m :: phrasesFrom (Some c) (Nat.pred (length m)) rest
          | None => phrasesFrom (Some c) O rest
          end
      end
  end.

Definition matchPhrases (content : string) : list string :=
  phrasesFrom None O (list_ascii_of_string content).

End Text.

(** [[...new Set(xs)]]: the first occurrence of every element, in order. *)
Fixpoint dedupe_from (seen xs : list string) : list string :=
  match xs with
  | [] => []
  | x :: rest =>
      if existsb (String.eqb x) seen then dedupe_from seen rest
      else x :: dedupe_from (x :: seen) rest
  end.

Definition dedupe (xs : list string) : list string := dedupe_from [] xs.

(** [a.sort(cmp)] for a comparator with integral results, kept in [Z]. *)
Fixpoint sort_insertZ {A : Type} (cmp : A -> A -> Z) (x : A) (l : list A) : list A :=
  match l with
  | [] => [x]
  | y :: l' =>
      if (0 <? cmp y x)%Z then x :: y :: l'
      else y :: sort_insertZ cmp x l'
  end.

Definition Array_sortZ {A : Type} (cmp : A -> A -> Z) (l : list A) : list A :=
  fold_left (fun acc x => sort_insertZ cmp x acc) l [].

Definition trendingKeywords : list string :=
  [ (* AI/Tech *)
    "artificial intelligence"; "machine learning"; "chatgpt"; "openai"; "claude";
    "generative ai"; "llm"; "transformer"; "neural network";
    (* Web3/Crypto *)
    "bitcoin"; "ethereum"; "defi"; "nft"; "web3"; "blockchain"; "crypto";
    "solana"; "cardano"; "polygon";
    (* Business/Startup *)
    "funding round"; "series a"; "ipo"; "acquisition"; "merger"; "valuation";
    "startup"; "unicorn"; "yc"; "y combinator";
    (* Technology *)
    "react"; "next.js"; "typescript"; "python"; "rust"; "go"; "kubernetes";
    "docker"; "aws"; "vercel"; "supabase"; "firebase";
    (* Trends *)
    "viral"; "trending"; "breaking"; "announcement"; "launch"; "release" ].

(** One turn of the keyword loop on the pair [(keywordScores, trends)]. *)
Definition scoreKeyword (content : string)
    (st : gmap string nat * list string) (keyword : string)
    : gmap string nat * list string :=
  let n := Text.countKeyword keyword content in
  if (0 <? n)%nat then (<[keyword := n]> (fst st), snd st ++ [keyword]) else st.

(** [keywordScores[a] || (a.startsWith('#') ? 2 : 1)]; a stored count is
    never 0.  No entry of [trends] names a property that the object
    inherits, so the lookup is the one of the map. *)
Definition relevance (keywordScores : gmap string nat) (a : string) : Z :=
  match keywordScores !! a with
  | Some (S n) => Z.of_nat (S n)
  | _ => if Text.startsWith a "#" then 2 else 1
  end.

(** The entries collected before duplicates are removed. *)
Definition collectTrends (content : string) : gmap string nat * list string :=
  let hashtags := Text.matchTagged "#" content in
  let trends := map Text.toLowerCase hashtags in
  let mentions := Text.matchTagged "@" content in
  let trends := trends ++ map Text.toLowerCase (slice_int mentions 0 5) in
  let '(keywordScores, trends) :=
    fold_left (scoreKeyword content) trendingKeywords (∅, trends) in
  let phrases := Text.matchPhrases content in
  (keywordScores, trends ++ map Text.toLowerCase (slice_int phrases 0 10)).

Definition extractTrendingTopics (content : string) : list string :=
  let '(keywordScores, trends) := collectTrends content in
  let uniqueTrends := dedupe trends in
  slice_int
    (Array_sortZ (fun a b => (relevance keywordScores b - relevance keywordScores a)%Z)
       uniqueTrends)
    0 15.

(* ===================================================================== *)
(** ** String built-ins *)
(* ===================================================================== *)

Module Str.

(** [s.startsWith(p)], on the code units. *)
Fixpoint isPrefixOf (p s : list ascii) : bool :=
  match p, s with
  | [], _ => true
  | a :: p', b :: s' => Ascii.eqb a b && isPrefixOf p' s'
  | _ :: _, [] => false
  end.

Fixpoint includesL (s p : list ascii) : bool :=
  isPrefixOf p s ||
  match s with
  | [] => false
  | _ :: s' => includesL s' p
  end.

(** [s.includes(p)] *)
Definition includes (s p : string) : bool :=
  includesL (list_ascii_of_string s) (list_ascii_of_string p).

Fixpoint replaceL (pat rep s : list ascii) : list ascii :=
  if isPrefixOf pat s then rep ++ skipn (length pat) s
  else
    match s with
    | [] => []
    | c :: s' => c :: replaceL pat rep s'
    end.

(** [s.replace(pat, rep)] for a string pattern and a replacement without
    [$]: the first occurrence of [pat] is replaced. *)
Definition replace (s pat rep : string) : string :=
  string_of_list_ascii
    (replaceL (list_ascii_of_string pat) (list_ascii_of_string rep)
       (list_ascii_of_string s)).

(** [s.substring(0, n)] *)
Definition substring0 (s : string) (n : nat) : string :=
  string_of_list_ascii (firstn n (list_ascii_of_string s)).

(** The fields of [s.split(/\s+/)]: [cur] is the field being read, [inrun]
    tells that the last character was white space. *)
Fixpoint fields (cur : list ascii) (inrun : bool) (s : list ascii) : list string :=
  match s with
  | [] => [string_of_list_ascii cur]
  | c :: rest =>
      if ParseInt.isStrWhiteSpace c
      then (if inrun then fields [] true rest
            else string_of_list_ascii cur :: fields [] true rest)
      else fields (cur ++ [c]) false rest
  end.

(** [s.split(/\s+/)] *)
Definition splitWhitespace (s : string) : list string :=
  fields [] false (list_ascii_of_string s).

End Str.

(* ===================================================================== *)
(** ** The categorizer and the tagger (lib/trend-ranking) *)
(* ===================================================================== *)

Definition techKeywords : list string :=
  [ "ai"; "artificial intelligence"; "machine learning"; "blockchain"; "crypto";
    "startup"; "funding"; "ipo"; "acquisition"; "venture capital";
    "saas"; "api"; "cloud"; "aws"; "google"; "microsoft";
    "react"; "javascript"; "python"; "typescript"; "nodejs" ].

Definition extractTagsFromContent (content : string) : list string :=
  let words := Str.splitWhitespace (Text.toLowerCase content) in
  slice_int
    (List.filter
       (fun keyword =>
          existsb (fun word => Str.includes word (Str.replace keyword " " "")) words)
       techKeywords)
    0 5.

Definition categorizeTrend (content title : string) : Category :=
  let text := Text.toLowerCase (content +:+ " " +:+ title) in
  if Str.includes text "ai" || Str.includes text "artificial intelligence"
     || Str.includes text "machine learning" then technology
  else if Str.includes text "startup" || Str.includes text "funding"
          || Str.includes text "business" then business
  else if Str.includes text "social" || Str.includes text "viral"
          || Str.includes text "trending" then social
  else if Str.includes text "entertainment" || Str.includes text "celebrity"
          || Str.includes text "movie" then entertainment
  else if Str.includes text "research" || Str.includes text "study"
          || Str.includes text "science" then science
  else general.

(* ===================================================================== *)
(** ** The post and the page normalizers (lib/trend-ranking) *)
(* ===================================================================== *)

(** [ToInt32]: the integer modulo 2^32 in the signed 32-bit range. *)
Definition ToInt32 (z : Z) : Z := ((z + 2 ^ 31) mod 2 ^ 32 - 2 ^ 31)%Z.

(** [a << k] and [a & b] on integral numbers. *)
Definition shl32 (a k : Z) : Z := ToInt32 (Z.shiftl (ToInt32 a) (Z.land k 31)).
Definition and32 (a b : Z) : Z := ToInt32 (Z.land (ToInt32 a) (ToInt32 b)).

(** The [reduce] over the characters of the URL. *)
Definition urlHash (url : string) : Z :=
  fold_left
    (fun a b =>
       let a := (shl32 a 5 - a + Text.code b)%Z in
       and32 a a)
    (list_ascii_of_string url) 0%Z.

(** A value of a [metadata] record. *)
Inductive MetaValue : Type :=
| MetaString (s : string)
| MetaNumber (n : number)
| MetaStrings (l : list string).

Record CrawlResult : Type := {
  cr_url : string;
  cr_title : option string;
  cr_content : string;
  cr_metadata : option (list (string * MetaValue));
  cr_timestamp : string
}.

Record Hashtag : Type := { tag : string }.

Record PublicMetrics : Type := {
  like_count : number;
  retweet_count : number;
  reply_count : number;
  quote_count : number
}.

Record TweetEntities : Type := { hashtags : option (list Hashtag) }.

Record XTweet : Type := {
  tw_id : string;
  tw_text : string;
  tw_created_at : string;
  tw_author_id : string;
  tw_public_metrics : option PublicMetrics;
  tw_entities : option TweetEntities
}.

(** [xs.map((x, index) => f(x, index))] for a callback that reads the
    clock; [i] is the index of the first element. *)
Fixpoint Array_mapiM {A B : Type} (f : A -> nat -> Clock B) (i : nat) (xs : list A)
    : Clock (list B) :=
  match xs with
  | [] => mret []
  | x :: rest => y ← f x i; ys ← Array_mapiM f (S i) rest; mret (y :: ys)
  end.

Section Normalizers.

Variable Date_parse : string -> Date.
Variable clock : nat -> Z.

(** The host name of [new URL(url)]; [None] when the constructor throws. *)
Variable URL_hostname : string -> option string.

Definition extractDomain (url : string) : string :=
  match URL_hostname url with
  | Some hostname => Str.replace hostname "www." ""
  | None => "unknown"
  end.

(** The callback of the [map] in [convertXToRankedTrends]; the source type
    is the default ['x'], the only value of its type. *)
Definition convertTweet (tweet : XTweet) : Clock RankedTrend :=
  let trend :=
    {| rt_id := "x_" +:+ tw_id tweet;
       rt_title := Str.substring0 (tw_text tweet) 100 +:+
                   (if (100 <? String.length (tw_text tweet))%nat then "..." else "");
       rt_content := tw_text tweet;
       rt_source := "@" +:+ tw_author_id tweet;
       rt_sourceType := st_x;
       rt_url := "https://x.com/i/status/" +:+ tw_id tweet;
       rt_timestamp := tw_created_at tweet;
       rt_metrics :=
         {| likes := Some (num_or (like_count <$> tw_public_metrics tweet) (Num 0));
            retweets := Some (num_or (retweet_count <$> tw_public_metrics tweet) (Num 0));
            comments := Some (num_or (reply_count <$> tw_public_metrics tweet) (Num 0));
            shares := Some (num_or (quote_count <$> tw_public_metrics tweet) (Num 0));
            views := None |};
       rt_score := zero_score;
       rt_tags := default_to (map tag <$> (tw_entities tweet ≫= hashtags)) [];
       rt_category := general |} in
  sc ← calculateTrendScore_now Date_parse clock (as_partial trend);
  mret (with_score trend sc).

Definition convertXToRankedTrends (tweets : list XTweet) : Clock (list RankedTrend) :=
  Array_mapM convertTweet tweets.

(** The callback of the [map] in [convertNewsToRankedTrends]. *)
Definition convertArticle (article : CrawlResult) (index : nat) : Clock RankedTrend :=
  let urlHash := urlHash (cr_url article) in
  stamp ← new_Date clock;
  let trend :=
    {| rt_id := "news_" +:+ pretty (Z.abs urlHash) +:+ "_" +:+ pretty stamp
                +:+ "_" +:+ pretty (Z.of_nat index);
       rt_title := str_or (cr_title article) "Untitled Article";
       rt_content := Str.substring0 (cr_content article) 500;
       rt_source := extractDomain (cr_url article);
       rt_sourceType := st_news;
       rt_url := cr_url article;
       rt_timestamp := cr_timestamp article;
       rt_metrics :=
         {| views := Some (Num (INR (String.length (cr_content article))) * Num 10)%js;
            likes := None; shares := None; comments := None; retweets := None |};
       rt_score := zero_score;
       rt_tags := extractTagsFromContent (cr_content article);
       rt_category := categorizeTrend (cr_content article) (str_or (cr_title article) "") |} in
  sc ← calculateTrendScore_now Date_parse clock (as_partial trend);
  mret (with_score trend sc).

Definition convertNewsToRankedTrends (articles : list CrawlResult)
    : Clock (list RankedTrend) :=
  Array_mapiM convertArticle 0 articles.

End Normalizers.

(* ===================================================================== *)
(** ** Source icons and names (lib/favicon-utils) *)
(* ===================================================================== *)

(** The [source] argument of the two functions. *)
Record Source : Type := {
  src_type : string;
  src_url : option string;
  src_content : option string
}.

(** An optional string in a condition: [undefined] and the empty string
    are falsy. *)
Definition truthy (v : option string) : option string :=
  match v with
  | Some s => if String.eqb s "" then None else Some s
  | None => None
  end.

Definition isTruthy (v : option string) : bool :=
  match truthy v with Some _ => true | None => false end.

(** What a property read on an object literal of strings gives: a string
    of the object itself, or the function or object that the property
    names on [Object.prototype]. *)
Inductive PropertyValue : Type :=
| Own (s : string)
| Inherited (name : string).

Definition objectPrototypeKeys : list string :=
  [ "constructor"; "hasOwnProperty"; "isPrototypeOf"; "propertyIsEnumerable";
    "toLocaleString"; "toString"; "valueOf"; "__defineGetter__";
    "__defineSetter__"; "__lookupGetter__"; "__lookupSetter__"; "__proto__" ].

Fixpoint ownProperty (o : list (string * string)) (k : string) : option string :=
  match o with
  | [] => None
  | (k', v) :: rest => if String.eqb k' k then Some v else ownProperty rest k
  end.

(** [o[k]]; [None] is [undefined]. *)
Definition getProperty (o : list (string * string)) (k : string) : option PropertyValue :=
  match ownProperty o k with
  | Some v => Some (Own v)
  | None => if Array_includes objectPrototypeKeys k then Some (Inherited k) else None
  end.

Definition defaultFavicons : list (string * string) :=
  [ ("x", "https://abs.twimg.com/favicons/twitter.2.ico");
    ("twitter", "https://abs.twimg.com/favicons/twitter.2.ico");
    ("x_hashtag", "https://abs.twimg.com/favicons/twitter.2.ico");
    ("hashtag", "https://abs.twimg.com/favicons/twitter.2.ico");
    ("youtube", "https://www.youtube.com/favicon.ico");
    ("rss", "https://cdn.jsdelivr.net/npm/simple-icons@v9/icons/rss.svg");
    ("url", "https://www.google.com/favicon.ico") ].

Section Favicon.

(** The host name of [new URL(url)]; [None] when the constructor throws. *)
Variable URL_hostname : string -> option string.

(** The part of [getFaviconUrl] after the [try] block. *)
Definition faviconByType (source : Source) : PropertyValue :=
  if String.eqb (src_type source) "youtube" && isTruthy (src_content source)
  then Own "https://www.youtube.com/favicon.ico"
  else if (String.eqb (src_type source) "x" || String.eqb (src_type source) "twitter"
           || String.eqb (src_type source) "x_hashtag")
          && isTruthy (src_content source)
  then Own "https://abs.twimg.com/favicons/twitter.2.ico"
  else
    match getProperty defaultFavicons (src_type source) with
    | Some v => v
    | None => Own "https://www.google.com/favicon.ico"
    end.

Definition getFaviconUrl (source : Source) : PropertyValue :=
  match truthy (src_url source) with
  | Some url =>
      match URL_hostname url with
      | Some domain =>
          if Str.includes domain "youtube.com" || Str.includes domain "youtu.be"
          then Own "https://www.youtube.com/favicon.ico"
          else if Str.includes domain "twitter.com" || Str.includes domain "x.com"
          then Own "https://abs.twimg.com/favicons/twitter.2.ico"
          else if Str.includes domain "github.com"
          then Own "https://github.com/favicon.ico"
          else if Str.includes domain "medium.com"
          then Own "https://medium.com/favicon.ico"
          else if Str.includes domain "substack.com"
          then Own "https://substack.com/favicon.ico"
          else if Str.includes domain "techcrunch.com"
          then Own "https://techcrunch.com/favicon.ico"
          else if Str.includes domain "theverge.com"
          then Own "https://www.theverge.com/favicon.ico"
          else Own ("https://www.google.com/s2/favicons?domain=" +:+ domain +:+ "&sz=64")
      | None => faviconByType source
      end
  | None => faviconByType source
  end.

Definition getSourceDisplayName (source : Source) : string :=
  match truthy (src_content source) with
  | Some content => Str.substring0 (Str.replace content "@" "") 15
  | None =>
      match truthy (src_url source) with
      | Some url =>
          match URL_hostname url with
          | Some hostname => Str.substring0 (Str.replace hostname "www." "") 15
          | None => src_type source
          end
      | None => src_type source
      end
  end.

End Favicon.

(* ===================================================================== *)
(** ** Crawl orchestration (lib/firecrawl-mcp) *)
(* ===================================================================== *)

(** The outcome of a promise under [Promise.allSettled]. *)
Inductive Settled (A : Type) : Type :=
| fulfilled (value : A)
| rejected.

Arguments fulfilled {A} value.
Arguments rejected {A}.

(** The options a caller passes to [crawlWithFirecrawlMCP]. *)
Record CrawlCall : Type := {
  cc_limit : Z;
  cc_maxAge : Z;
  cc_useCrawl : bool
}.

Definition trendingSites : list string :=
  [ "https://techcrunch.com";
    "https://www.theverge.com";
    "https://www.wired.com";
    "https://arstechnica.com";
    "https://www.engadget.com";
    "https://medium.com/topic/technology";
    "https://substack.com/discover/technology";
    "https://www.producthunt.com";
    "https://news.ycombinator.com";
    "https://dev.to";
    "https://github.blog";
    "https://stackoverflow.blog";
    "https://css-tricks.com";
    "https://smashingmagazine.com";
    "https://alistapart.com" ].

(** Programs that call the crawler: the value, and the calls made, in the
    order in which they are started. *)
Definition Calls (A : Type) : Type := A * list (string * CrawlCall).

#[global] Instance Calls_ret : MRet Calls := fun A a => (a, []).

#[global] Instance Calls_bind : MBind Calls := fun A B f m =>
  let '(a, made) := m in
  let '(b, made') := f a in
  (b, made ++ made').

(** [xs.map(f)] for a callback that calls the crawler: the callbacks start
    their calls in the order of the array. *)
Fixpoint Array_mapC {A B : Type} (f : A -> Calls B) (xs : list A) : Calls (list B) :=
  match xs with
  | [] => mret []
  | x :: rest => y ← f x; ys ← Array_mapC f rest; mret (y :: ys)
  end.

Section Crawl.

Local Open Scope Z_scope.

(** What a call of [crawlWithFirecrawlMCP] resolves to; [None] when the
    promise is rejected.  The network is outside the model, and every URL
    is requested once per run. *)
Variable crawlWithFirecrawlMCP : string -> CrawlCall -> option (list CrawlResult).

(** A call of the crawler, recorded. *)
Definition callCrawler (url : string) (call : CrawlCall)
    : Calls (option (list CrawlResult)) :=
  (crawlWithFirecrawlMCP url call, [(url, call)]).

(** The callback of the [map] in [crawlTrendingSites]: it calls the
    crawler once; an error is caught and gives no pages. *)
Definition crawlSite (site : string) : Calls (Settled (list CrawlResult)) :=
  outcome ← callCrawler site
              {| cc_limit := 2; cc_maxAge := 1800000; cc_useCrawl := true |};
  mret (match outcome with
        | Some siteResults => fulfilled siteResults
        | None => fulfilled []
        end).

(** The callback of the [forEach] in [crawlTrendingSites]. *)
Definition addCapped (results : list CrawlResult) (result : Settled (list CrawlResult))
    : list CrawlResult :=
  match result with
  | fulfilled value =>
      if (length results <? 20)%nat
      then results ++ slice_int value 0 (20 - Z.of_nat (length results))
      else results
  | rejected => results
  end.

Definition crawlTrendingSites : Calls (list CrawlResult) :=
  crawlResults ← Array_mapC crawlSite (slice_int trendingSites 0 10);
  mret (fold_left addCapped crawlResults []).

(** The callback of the [forEach] in [batchCrawlUrls]. *)
Definition addFulfilled (results : list CrawlResult) (result : Settled (list CrawlResult))
    : list CrawlResult :=
  match result with
  | fulfilled value => results ++ value
  | rejected => results
  end.

Definition settle {A : Type} (outcome : option A) : Settled A :=
  match outcome with
  | Some value => fulfilled value
  | None => rejected
  end.

(** The [for] loop of [batchCrawlUrls] for an integral [concurrency]: the
    state is the index [i], the results so far and the number of pauses
    of two seconds taken; [fuel] bounds the number of turns. *)
Fixpoint batchLoop (fuel : nat) (urls : list string) (limit maxAge concurrency : Z)
    (i : Z) (results : list CrawlResult) (pauses : nat)
    : option (list CrawlResult * nat) :=
  match fuel with
  | O => None
  | S fuel' =>
      if i <? Z.of_nat (length urls)
      then
        let batch := slice_int urls i (i + concurrency) in
        let batchResults :=
          map (fun url =>
                 settle (crawlWithFirecrawlMCP url
                           {| cc_limit := limit; cc_maxAge := maxAge;
                              cc_useCrawl := false |}))
              batch in
        let results := fold_left addFulfilled batchResults results in
        let pauses :=
          if i + concurrency <? Z.of_nat (length urls) then S pauses else pauses in
        batchLoop fuel' urls limit maxAge concurrency (i + concurrency) results pauses
      else Some (results, pauses)
  end.

(** [batchCrawlUrls(urls, options)] with the options' defaults applied. *)
Definition batchCrawlUrls (fuel : nat) (urls : list string)
    (limit maxAge concurrency : option Z) : option (list CrawlResult * nat) :=
  batchLoop fuel urls (default_to limit 5) (default_to maxAge 3600000)
    (default_to concurrency 3) 0 [] O.

End Crawl.

(* ===================================================================== *)
(** ** The scores as the specification words them, over the reals *)
(* ===================================================================== *)

(** The metrics object the scorer works on: [trend.metrics || {}]. *)
Definition metricsOf (trend : PartialTrend) : Metrics :=
  match pt_metrics trend with Some m => m | None => no_metrics end.

(** The metrics of [trend] count as the finite values [l s c v r]
    (likes, shares, comments, views, retweets); an absent metric counts 0. *)
Definition metricValues (trend : PartialTrend) (l s c v r : R) : Prop :=
  num_or (likes (metricsOf trend)) (Num 0) = Num l /\
  num_or (shares (metricsOf trend)) (Num 0) = Num s /\
  num_or (comments (metricsOf trend)) (Num 0) = Num c /\
  num_or (views (metricsOf trend)) (Num 0) = Num v /\
  num_or (retweets (metricsOf trend)) (Num 0) = Num r.

Section RealFormulas.

Local Open Scope R_scope.

(** Age in hours of an instant [t] (milliseconds since the epoch). *)
Definition ageHours (now : Z) (t : R) : R := (IZR now - t) / 3600000.

Definition recencyR (now : Z) (t : R) : R :=
  Rmax 0 (Rmin 1 (exp (- ageHours now t / 24))).

Definition totalEngagementR (l s c v r : R) : R := l + s + c + r + v / 100.

Definition log10R (a : R) : R := ln a / ln 10.

Definition popularityR (l s c v r : R) : R :=
  Rmin 1 (log10R (totalEngagementR l s c v r + 1) / 6).

Definition overallR (rec pop eng : R) : R := 0.4 * rec + 0.4 * pop + 0.2 * eng.

(** A finite score inside the closed unit interval. *)
Definition inUnit (v : number) : Prop := exists a : R, v = Num a /\ 0 <= a <= 1.

(** [v] is finite and agrees with the decimal [c] to three places. *)
Definition approx3 (v : number) (c : R) : Prop :=
  exists a : R, v = Num a /\ Rabs (a - c) <= 0.0005.

Definition engagementR (l s c v r : R) : R :=
  if Rlt_dec 0 (Rmax v l) then Rmin 1 ((c + s + r) / Rmax v l * 100) else 0.

End RealFormulas.


(** Largest key first: the comparator [key b - key a] and the order it
    sorts by. *)
Definition keyDesc {A : Type} (key : A -> number) (a b : A) : number :=
  (key b - key a)%js.

Definition keyGe {A : Type} (key : A -> number) (a b : A) : Prop :=
  JS.le (key b) (key a) = true.

(** The candidates that pass the three filters of the ranker. *)
Definition survivors (Date_parse : string -> Date) (now : Z)
    (userTrends globalTrends : list RankedTrend)
    (minScore : number) (categories : list string) (timeWindow : number) :
    list RankedTrend :=
  let filtered := List.filter (withinTimeWindow Date_parse now timeWindow)
                    (userTrends ++ globalTrends) in
  let categoryFiltered :=
    if (0 <? length categories)%nat
    then List.filter (inCategories categories) filtered else filtered in
  List.filter (meetsMinScore minScore) categoryFiltered.

(** The metrics object the normalizer builds for a video. *)
Definition parsedMetrics (video : YouTubeVideo) : Metrics :=
  {| views := Some (parseInt (str_or (yt_statistics video ≫= viewCount) "0"));
     likes := Some (parseInt (str_or (yt_statistics video ≫= likeCount) "0"));
     comments := Some (parseInt (str_or (yt_statistics video ≫= commentCount) "0"));
     shares := None;
     retweets := None |}.

(** Decimal numerals: the string of the digits [ds] and the number it
    denotes. *)
Definition digitChar (d : nat) : ascii := ascii_of_nat (48 + d).

Definition numeral (ds : list nat) : string :=
  string_of_list_ascii (map digitChar ds).

Definition numeralValue (ds : list nat) : Z :=
  fold_left (fun acc d => (10 * acc + Z.of_nat d)%Z) ds 0%Z.

(** The polynomial hash of a string with multiplier 31, over the integers. *)
Definition polyHash31 (s : string) : Z :=
  fold_left (fun a c => (31 * a + Text.code c)%Z) (list_ascii_of_string s) 0%Z.

(** The digits at the end of a string. *)
Fixpoint leadingDigits (s : list ascii) : list ascii :=
  match s with
  | c :: rest => if Text.isDigit c then c :: leadingDigits rest else []
  | [] => []
  end.

Definition trailingDigits (s : string) : list ascii :=
  rev (leadingDigits (rev (list_ascii_of_string s))).

(** The popularity of a page of [n] characters: [n * 10] views count as
    [n / 10] engagements. *)
Definition newsPopularityR (n : nat) : R :=
  Rmin 1 (log10R (INR n / 10 + 1) / 6).

(** The counters of a tweet are the finite values [l rt rp q] (likes,
    retweets, replies, quotes); a tweet without counters counts 0. *)
Definition tweetCounts (tweet : XTweet) (l rt rp q : R) : Prop :=
  match tw_public_metrics tweet with
  | Some pm =>
      like_count pm = Num l /\ retweet_count pm = Num rt /\
      reply_count pm = Num rp /\ quote_count pm = Num q
  | None => l = 0%R /\ rt = 0%R /\ rp = 0%R /\ q = 0%R
  end.

(** A timestamp the scorer can date: empty (the scorer then takes the
    current time) or accepted by the date parser. *)
Definition readable (Date_parse : string -> Date) (s : string) : Prop :=
  s = ""%string \/ exists t : Z, Date_parse s = Some t.

(** A tweet with a readable creation time and finite, non-negative
    counters. *)
Definition scorableTweet (Date_parse : string -> Date) (tweet : XTweet) : Prop :=
  readable Date_parse (tw_created_at tweet) /\
  exists l rt rp q : R,
    tweetCounts tweet l rt rp q /\
    (0 <= l)%R /\ (0 <= rt)%R /\ (0 <= rp)%R /\ (0 <= q)%R.

(** Two numbers are the same value. *)
Definition same_number (a b : number) : bool :=
  match a, b with
  | Num p, Num q => R_eqb p q
  | Infinity, Infinity | NegInfinity, NegInfinity | NaN, NaN => true
  | _, _ => false
  end.

(** The candidates whose overall score is [v]. *)
Definition hasOverall (v : number) (trend : RankedTrend) : bool :=
  same_number (overall (rt_score trend)) v.

(** The pages a call resolves to; a rejected call gives none. *)
Definition pagesOf (outcome : option (list CrawlResult)) : list CrawlResult :=
  match outcome with
  | Some pages => pages
  | None => []
  end.

(* ===================================================================== *)
(** ** Concrete inputs *)
(* ===================================================================== *)

(** 2026-11-01T00:00:00.000Z as a time value. *)
Definition now0 : Z := 1793491200000.

(** The end-to-end scenario: a candidate stamped [now0] with
    [{likes: 1000, shares: 200, comments: 50, views: 500000}]. *)
Definition scenario_metrics : Metrics :=
  {| likes := Some (Num 1000); shares := Some (Num 200);
     comments := Some (Num 50); views := Some (Num 500000);
     retweets := None |}.

Definition scenario_trend : PartialTrend :=
  {| pt_timestamp := Some "2026-11-01T00:00:00.000Z";
     pt_metrics := Some scenario_metrics |}.

(** The same candidate published 24 and 48 hours before [now0]. *)
Definition day_old_trend : PartialTrend :=
  {| pt_timestamp := Some "2026-10-31T00:00:00.000Z";
     pt_metrics := Some scenario_metrics |}.

Definition two_days_old_trend : PartialTrend :=
  {| pt_timestamp := Some "2026-10-30T00:00:00.000Z";
     pt_metrics := Some scenario_metrics |}.

(** A candidate without timestamp whose comment counter is negative. *)
Definition negative_comments_trend : PartialTrend :=
  {| pt_timestamp := None;
     pt_metrics := Some {| likes := None; shares := None;
                           comments := Some (Num (-1)); views := Some (Num 1);
                           retweets := None |} |}.

(** A candidate whose timestamp is not a date. *)
Definition unparsable_trend : PartialTrend :=
  {| pt_timestamp := Some "not-a-date"; pt_metrics := None |}.

(** A candidate with neither timestamp nor metrics: the object [{}]. *)
Definition bare_trend : PartialTrend :=
  {| pt_timestamp := None; pt_metrics := None |}.

(** A ranked candidate stamped [now0] that carries the overall score [ov]. *)
Definition fresh_trend (i : string) (ov : R) (cat : Category) : RankedTrend :=
  {| rt_id := i;
     rt_title := "title";
     rt_content := "content";
     rt_source := "source";
     rt_sourceType := st_global;
     rt_url := "https://example.com/";
     rt_timestamp := "2026-11-01T00:00:00.000Z";
     rt_metrics := no_metrics;
     rt_score := {| recency := Num 1; popularity := Num 0;
                    engagement := Num 0; overall := Num ov |};
     rt_tags := [];
     rt_category := cat |}.

Definition user1 : RankedTrend := fresh_trend "u1" 0.2 general.
Definition global1 : RankedTrend := fresh_trend "g1" 0.9 technology.
Definition global2 : RankedTrend := fresh_trend "g2" 0.9 general.

(** The options [{ maxResults: -1 }]. *)
Definition negative_maxResults : RankOptions :=
  {| maxResults := Some (Num (-1)); minScore := None;
     categories := None; timeWindow := None |}.

(** The defaults written out. *)
Definition default_options : RankOptions :=
  {| maxResults := Some (Num 50); minScore := Some (Num 0.1);
     categories := Some []; timeWindow := Some (Num 24) |}.

(** A store with the user array [[user1]] at 1 and the global array
    [[global1, global2]] at 2. *)
Definition example_store : Heap.Store :=
  {| Heap.arrays := <[1%positive := [10%positive]]>
                      (<[2%positive := [11%positive; 12%positive]]> ∅);
     Heap.objects := <[10%positive := user1]>
                       (<[11%positive := global1]> (<[12%positive := global2]> ∅));
     Heap.console := [] |}.

(** A number printer for the console lines of the examples: exact on the
    integral values they print. *)
Definition print_integral (v : number) : string :=
  match v with
  | Num r => pretty (Int_part r)
  | Infinity => "Infinity"
  | NegInfinity => "-Infinity"
  | NaN => "NaN"
  end.

(** A video whose view counter is not a number, and a video with neither
    snippet nor statistics. *)
Definition malformed_video : YouTubeVideo :=
  {| yt_id := "abc123";
     yt_snippet := Some {| sn_title := Some "Clip";
                           sn_description := None;
                           sn_channelTitle := Some "Channel";
                           sn_publishedAt := Some "2026-11-01T00:00:00.000Z";
                           sn_tags := None |};
     yt_statistics := Some {| viewCount := Some "abc";
                              likeCount := Some "12";
                              commentCount := None |} |}.

Definition bare_video : YouTubeVideo :=
  {| yt_id := "v0"; yt_snippet := None; yt_statistics := None |}.

(** A wall clock that reads [now0] every time. *)
Definition steady_clock : nat -> Z := fun _ => now0.

(** A text with sixteen different hashtags. *)
Definition sixteen_hashtags : string :=
  "#t01 #t02 #t03 #t04 #t05 #t06 #t07 #t08 #t09 #t10 #t11 #t12 #t13 #t14 #t15 #t16".

(** A post with two hashtags, one of them twice, and one mention. *)
Definition sample_post : string :=
  "Check out #AI and #MachineLearning with @OpenAI! Machine Learning is trending. #ai".

(** A tweet with counters and hashtags, a tweet that was retweeted but
    never liked, and a tweet with neither counters nor entities. *)
Definition sample_tweet : XTweet :=
  {| tw_id := "1001";
     tw_text := "Shipping our new #AI feature today";
     tw_created_at := "2026-10-31T12:00:00.000Z";
     tw_author_id := "42";
     tw_public_metrics := Some {| like_count := Num 120; retweet_count := Num 30;
                                  reply_count := Num 4; quote_count := Num 2 |};
     tw_entities := Some {| hashtags := Some [ {| tag := "AI" |} ] |} |}.

Definition unliked_tweet : XTweet :=
  {| tw_id := "1002";
     tw_text := "Nobody liked this one";
     tw_created_at := "2026-10-31T00:00:00.000Z";
     tw_author_id := "43";
     tw_public_metrics := Some {| like_count := Num 0; retweet_count := Num 50;
                                  reply_count := Num 7; quote_count := Num 1 |};
     tw_entities := None |}.

Definition bare_tweet : XTweet :=
  {| tw_id := "1003";
     tw_text := "hello";
     tw_created_at := "";
     tw_author_id := "44";
     tw_public_metrics := None;
     tw_entities := None |}.

(** Two crawled pages of the same URL. *)
Definition sample_article : CrawlResult :=
  {| cr_url := "https://www.example.com/a";
     cr_title := Some "A startup raises funding";
     cr_content := "The startup announced new funding for its cloud platform.";
     cr_metadata := None;
     cr_timestamp := "2026-10-31T00:00:00.000Z" |}.

Definition untitled_article : CrawlResult :=
  {| cr_url := "https://www.example.com/a";
     cr_title := None;
     cr_content := "";
     cr_metadata := None;
     cr_timestamp := "" |}.

(** A source known by its handle, one known by its address, and one whose
    type names a property that every object inherits. *)
Definition handle_source : Source :=
  {| src_type := "x"; src_url := None; src_content := Some "@creatorpulse_official" |}.

Definition address_source : Source :=
  {| src_type := "rss"; src_url := Some "https://www.example.com/feed"; src_content := None |}.

Definition odd_source : Source :=
  {| src_type := "constructor"; src_url := None; src_content := None |}.

(** A host-name reader for the addresses of the examples. *)
Definition example_hostname (url : string) : option string :=
  if String.eqb url "https://www.example.com/feed" then Some "www.example.com"
  else if String.eqb url "https://www.netflix.com/title/1" then Some "www.netflix.com"
  else None.

(** A crawler that finds one page everywhere. *)
Definition one_page_crawler (url : string) (call : CrawlCall) : option (list CrawlResult) :=
  Some [ {| cr_url := url; cr_title := None; cr_content := "page";
            cr_metadata := None; cr_timestamp := "2026-11-01T00:00:00.000Z" |} ].

Definition five_urls : list string := ["u1"; "u2"; "u3"; "u4"; "u5"].


(* ===================================================================== *)
(** ** Arithmetic of finite numbers *)
(* ===================================================================== *)

Section NumberFacts.

Local Open Scope R_scope.

Lemma R_leb_spec (a b : R) : R_leb a b = true <-> a <= b.
Proof. unfold R_leb. destruct (Rle_dec a b); split; intros; try easy. Qed.

Lemma R_leb_false (a b : R) : R_leb a b = false <-> b < a.
Proof.
  unfold R_leb. destruct (Rle_dec a b); split; intros; try easy; lra.
Qed.

Lemma R_ltb_spec (a b : R) : R_ltb a b = true <-> a < b.
Proof. unfold R_ltb. destruct (Rlt_dec a b); split; intros; try easy. Qed.

Lemma R_ltb_false (a b : R) : R_ltb a b = false <-> b <= a.
Proof.
  unfold R_ltb. destruct (Rlt_dec a b); split; intros; try easy; lra.
Qed.

Lemma R_eqb_spec (a b : R) : R_eqb a b = true <-> a = b.
Proof. unfold R_eqb. destruct (Req_dec_T a b); split; intros; try easy. Qed.

Lemma R_eqb_false (a b : R) : R_eqb a b = false <-> a <> b.
Proof. unfold R_eqb. destruct (Req_dec_T a b); split; intros; try easy. Qed.

Lemma R_eqb_neq (a b : R) : a <> b -> R_eqb a b = false.
Proof. apply R_eqb_false. Qed.

Lemma div_Num (a b : R) : b <> 0 -> JS.div (Num a) (Num b) = Num (a / b).
Proof. intros Hb. simpl. now rewrite (R_eqb_neq _ _ Hb). Qed.

Lemma Math_min_Num (a b : R) : Math_min (Num a) (Num b) = Num (Rmin a b).
Proof.
  simpl. unfold R_leb, Rmin. destruct (Rle_dec a b); reflexivity.
Qed.

Lemma Math_max_Num (a b : R) : Math_max (Num a) (Num b) = Num (Rmax a b).
Proof.
  simpl. unfold R_leb, Rmax. destruct (Rle_dec a b); reflexivity.
Qed.

Lemma gt_Num (a b : R) : JS.gt (Num a) (Num b) = true <-> b < a.
Proof.
  unfold JS.gt, JS.lt. simpl. rewrite andb_true_iff, negb_true_iff.
  rewrite R_leb_spec, R_leb_false. lra.
Qed.

Lemma gt_Num_false (a b : R) : JS.gt (Num a) (Num b) = false <-> a <= b.
Proof.
  destruct (JS.gt (Num a) (Num b)) eqn:E.
  - apply gt_Num in E. split; [discriminate | lra].
  - split; [intros _ | reflexivity].
    destruct (Rle_dec a b) as [|n]; [assumption|].
    assert (b < a) as Hlt by lra. apply gt_Num in Hlt. congruence.
Qed.

Lemma le_Num (a b : R) : JS.le (Num a) (Num b) = true <-> a <= b.
Proof. simpl. apply R_leb_spec. Qed.


Lemma le_not_NaN_l (a b : number) : JS.le a b = true -> a <> NaN.
Proof. destruct a; simpl; congruence. Qed.

Lemma le_not_NaN_r (a b : number) : JS.le a b = true -> b <> NaN.
Proof. destruct a, b; simpl; congruence. Qed.

Lemma msPerHour_val : msPerHour = Num 3600000.
Proof. unfold msPerHour. simpl. f_equal. lra. Qed.

Lemma ln_10_pos : 0 < ln 10.
Proof. rewrite <- ln_1. apply ln_increasing; lra. Qed.

Lemma ln_ge_0 (a : R) : 1 <= a -> 0 <= ln a.
Proof.
  intros [Hlt | <-].
  - left. rewrite <- ln_1. apply ln_increasing; lra.
  - rewrite ln_1. lra.
Qed.

Lemma Rabs_le_bounds (a b : R) : Rabs a <= b -> - b <= a <= b.
Proof. unfold Rabs. destruct (Rcase_abs a); lra. Qed.

End NumberFacts.

(* ===================================================================== *)
(** ** Decimal bounds on [exp] and on the decimal logarithm *)
(* ===================================================================== *)

Section Bounds.

Local Open Scope R_scope.

Lemma inv_fact_decreasing : Un_decreasing (fun i : nat => / INR (fact i)).
Proof.
  intros n. apply Rinv_le_contravar.
  - apply INR_fact_lt_0.
  - apply le_INR, fact_le. lia.
Qed.

Lemma inv_fact_cv_0 : Un_cv (fun i : nat => / INR (fact i)) 0.
Proof.
  intros eps Heps. destruct (cv_speed_pow_fact 1 eps Heps) as [N HN].
  exists N. intros n Hn. specialize (HN n Hn).
  rewrite pow1 in HN. unfold Rdiv in HN. now rewrite Rmult_1_l in HN.
Qed.

(** The partial sums of the series of [exp (-1)] enclose it. *)
Lemma exp_m1_series (n : nat) :
  sum_f_R0 (tg_alt (fun i : nat => / INR (fact i))) (S (2 * n)) <= exp (-1)
  <= sum_f_R0 (tg_alt (fun i : nat => / INR (fact i))) (2 * n).
Proof.
  unfold exp. destruct (exist_exp (-1)) as [x Hx]. cbn [proj1_sig].
  apply alternated_series_ineq.
  - exact inv_fact_decreasing.
  - exact inv_fact_cv_0.
  - intros eps Heps. destruct (Hx eps Heps) as [N HN]. exists N.
    intros k Hk. specialize (HN k Hk).
    erewrite sum_eq; [exact HN |].
    intros i _. unfold tg_alt. apply Rmult_comm.
Qed.

Lemma INR_fact_val (k : nat) (n : Z) :
  Z.of_nat (fact k) = n -> INR (fact k) = IZR n.
Proof. intros <-. apply INR_IZR_INZ. Qed.

Lemma exp_m1_bounds : 36785 / 100000 < exp (-1) < 36806 / 100000.
Proof.
  destruct (exp_m1_series 3) as [Hlo Hhi].
  cbv [sum_f_R0 tg_alt Nat.mul Nat.add pow] in Hlo, Hhi.
  rewrite (INR_fact_val 0 1 eq_refl), (INR_fact_val 1 1 eq_refl),
    (INR_fact_val 2 2 eq_refl), (INR_fact_val 3 6 eq_refl),
    (INR_fact_val 4 24 eq_refl), (INR_fact_val 5 120 eq_refl),
    (INR_fact_val 6 720 eq_refl) in Hlo, Hhi.
  rewrite (INR_fact_val 7 5040 eq_refl) in Hlo.
  lra.
Qed.

Lemma exp_m2_bounds : 1353 / 10000 < exp (-2) < 1355 / 10000.
Proof.
  replace (-2) with (-1 + -1) by lra. rewrite exp_plus.
  pose proof exp_m1_bounds as [Hlo Hhi]. nra.
Qed.

(** [a ^ q < 10 ^ p] over the integers bounds [log10 a] by [p / q]. *)
Lemma log10R_lt_ratio (a p q : Z) :
  (0 < a)%Z -> (0 < q)%Z -> (0 <= p)%Z ->
  (a ^ q < 10 ^ p)%Z ->
  log10R (IZR a) < IZR p / IZR q.
Proof.
  intros Ha Hq Hp Hpow. pose proof ln_10_pos as H10.
  assert (0 < IZR a) as Ha' by (now apply IZR_lt).
  assert (0 < IZR q) as Hq' by (now apply IZR_lt).
  rewrite <- (Z2Nat.id q), <- (Z2Nat.id p) in Hpow by lia.
  apply IZR_lt in Hpow. rewrite <- !pow_IZR in Hpow.
  apply ln_increasing in Hpow; [| now apply pow_lt].
  rewrite !ln_pow, !INR_IZR_INZ, !Z2Nat.id in Hpow by (lra || lia).
  unfold log10R. apply Rmult_lt_reg_r with (IZR q); [exact Hq' |].
  apply Rmult_lt_reg_r with (ln 10); [exact H10 |].
  field_simplify; lra.
Qed.

Lemma log10R_gt_ratio (a p q : Z) :
  (0 < a)%Z -> (0 < q)%Z -> (0 <= p)%Z ->
  (10 ^ p < a ^ q)%Z ->
  IZR p / IZR q < log10R (IZR a).
Proof.
  intros Ha Hq Hp Hpow. pose proof ln_10_pos as H10.
  assert (0 < IZR a) as Ha' by (now apply IZR_lt).
  assert (0 < IZR q) as Hq' by (now apply IZR_lt).
  rewrite <- (Z2Nat.id q), <- (Z2Nat.id p) in Hpow by lia.
  apply IZR_lt in Hpow. rewrite <- !pow_IZR in Hpow.
  apply ln_increasing in Hpow; [| apply pow_lt; lra].
  rewrite !ln_pow, !INR_IZR_INZ, !Z2Nat.id in Hpow by (lra || lia).
  unfold log10R. apply Rmult_lt_reg_r with (IZR q); [exact Hq' |].
  apply Rmult_lt_reg_r with (ln 10); [exact H10 |].
  field_simplify; lra.
Qed.

(** [log10 6251] lies between 3.795 and 3.8. *)
Lemma log10R_6251 : 759 / 200 < log10R 6251 < 19 / 5.
Proof.
  split.
  - apply (log10R_gt_ratio 6251 759 200); [lia | lia | lia |].
    vm_compute. reflexivity.
  - apply (log10R_lt_ratio 6251 19 5); [lia | lia | lia |].
    vm_compute. reflexivity.
Qed.

End Bounds.

(* ===================================================================== *)
(** ** The scorer on finite inputs *)
(* ===================================================================== *)

Section ScorerFacts.

Local Open Scope R_scope.

Variable Date_parse : string -> Date.
Variable now : Z.

Lemma recency_finite (trend : PartialTrend) (t : Z) :
  scoreDate Date_parse now (pt_timestamp trend) = Some t ->
  recency (calculateTrendScore Date_parse now trend) = Num (recencyR now (IZR t)).
Proof.
  intros Ht. unfold calculateTrendScore, ageInHoursOf. cbn [recency].
  rewrite Ht, msPerHour_val. cbn [getTime JS.sub JS.neg JS.add].
  rewrite div_Num by lra. cbn [JS.neg]. rewrite div_Num by lra.
  cbn [Math_exp]. rewrite Math_min_Num, Math_max_Num.
  unfold recencyR, ageHours. repeat f_equal; lra.
Qed.

Lemma recency_invalid (trend : PartialTrend) :
  scoreDate Date_parse now (pt_timestamp trend) = None ->
  recency (calculateTrendScore Date_parse now trend) = NaN.
Proof.
  intros Ht. unfold calculateTrendScore, ageInHoursOf. cbn [recency].
  rewrite Ht, msPerHour_val. reflexivity.
Qed.

Lemma popularity_finite (trend : PartialTrend) (l s c v r : R) :
  metricValues trend l s c v r ->
  0 < totalEngagementR l s c v r + 1 ->
  popularity (calculateTrendScore Date_parse now trend) = Num (popularityR l s c v r).
Proof.
  intros (Hl & Hs & Hc & Hv & Hr) Hpos.
  unfold calculateTrendScore. cbn [popularity]. fold (metricsOf trend).
  rewrite Hl, Hs, Hc, Hv, Hr. rewrite div_Num by lra. cbn [JS.add].
  unfold totalEngagementR in Hpos. cbn [Math_log10].
  assert (R_ltb (l + s + c + r + v / 100 + 1) 0 = false) as -> by (apply R_ltb_false; lra).
  assert (R_eqb (l + s + c + r + v / 100 + 1) 0 = false) as -> by (apply R_eqb_false; lra).
  rewrite div_Num by lra. rewrite Math_min_Num. reflexivity.
Qed.

Lemma engagement_finite (trend : PartialTrend) (l s c v r : R) :
  metricValues trend l s c v r ->
  engagement (calculateTrendScore Date_parse now trend) = Num (engagementR l s c v r).
Proof.
  intros (Hl & Hs & Hc & Hv & Hr).
  unfold calculateTrendScore. cbn [engagement]. fold (metricsOf trend).
  rewrite Hl, Hs, Hc, Hv, Hr. rewrite Math_max_Num. cbn [JS.add].
  unfold engagementR. destruct (Rlt_dec 0 (Rmax v l)) as [Hpos | Hnpos].
  - assert (JS.gt (Num (Rmax v l)) (Num 0) = true) as -> by (apply gt_Num; exact Hpos).
    rewrite div_Num by lra. cbn [JS.mul]. now rewrite Math_min_Num.
  - assert (JS.gt (Num (Rmax v l)) (Num 0) = false) as -> by (apply gt_Num_false; lra).
    reflexivity.
Qed.

Lemma overall_def (trend : PartialTrend) :
  let sc := calculateTrendScore Date_parse now trend in
  overall sc =
  (recency sc * Num 0.4 + popularity sc * Num 0.4 + engagement sc * Num 0.2)%js.
Proof. reflexivity. Qed.

Lemma overall_finite (trend : PartialTrend) (a b c : R) :
  let sc := calculateTrendScore Date_parse now trend in
  recency sc = Num a -> popularity sc = Num b -> engagement sc = Num c ->
  overall sc = Num (overallR a b c).
Proof.
  intros sc Ha Hb Hc. unfold sc. rewrite overall_def. fold sc.
  rewrite Ha, Hb, Hc. cbn [JS.mul JS.add]. unfold overallR. f_equal. lra.
Qed.

Lemma recencyR_range (t : R) : 0 <= recencyR now t <= 1.
Proof.
  unfold recencyR. split.
  - apply Rmax_l.
  - apply Rmax_lub; [lra | apply Rmin_l].
Qed.

Lemma recencyR_val (t : R) :
  0 <= ageHours now t -> recencyR now t = exp (- ageHours now t / 24).
Proof.
  intros Hage. unfold recencyR.
  assert (exp (- ageHours now t / 24) <= 1) as Hle.
  { rewrite <- exp_0. destruct Hage as [Hlt | <-].
    - left. apply exp_increasing. lra.
    - right. f_equal. lra. }
  rewrite Rmin_right by exact Hle.
  apply Rmax_right. left. apply exp_pos.
Qed.

Lemma recencyR_future (t : R) : ageHours now t <= 0 -> recencyR now t = 1.
Proof.
  intros Hage. unfold recencyR.
  assert (1 <= exp (- ageHours now t / 24)) as Hle.
  { rewrite <- exp_0. destruct Hage as [Hlt | Heq].
    - left. apply exp_increasing. lra.
    - right. f_equal. lra. }
  rewrite Rmin_left by exact Hle. apply Rmax_right. lra.
Qed.

Lemma popularityR_range (l s c v r : R) :
  0 <= l -> 0 <= s -> 0 <= c -> 0 <= v -> 0 <= r ->
  0 <= popularityR l s c v r <= 1.
Proof.
  intros Hl Hs Hc Hv Hr. unfold popularityR, log10R. split; [| apply Rmin_l].
  apply Rmin_glb; [lra |].
  assert (0 <= ln (totalEngagementR l s c v r + 1)) as Hln
    by (apply ln_ge_0; unfold totalEngagementR; lra).
  pose proof ln_10_pos as H10.
  apply Rmult_le_pos; [| lra].
  apply Rmult_le_pos; [exact Hln |].
  left. now apply Rinv_0_lt_compat.
Qed.

Lemma engagementR_range (l s c v r : R) :
  0 <= s -> 0 <= c -> 0 <= r ->
  0 <= engagementR l s c v r <= 1.
Proof.
  intros Hs Hc Hr. unfold engagementR.
  destruct (Rlt_dec 0 (Rmax v l)) as [Hpos | _]; [| lra].
  split; [| apply Rmin_l].
  apply Rmin_glb; [lra |].
  apply Rmult_le_pos; [| lra].
  apply Rmult_le_pos; [lra |].
  left. now apply Rinv_0_lt_compat.
Qed.

End ScorerFacts.

(* ===================================================================== *)
(** ** Facts about the array built-ins *)
(* ===================================================================== *)

Section ArrayFacts.

Local Open Scope R_scope.

Lemma le_trans_js (a b c : number) :
  JS.le a b = true -> JS.le b c = true -> JS.le a c = true.
Proof.
  destruct a as [p | | |], b as [q | | |], c as [r | | |]; simpl;
    try congruence; rewrite !R_leb_spec; lra.
Qed.

(** The sign of a difference decides the order of two numbers, NaN apart. *)
Lemma sub_gt_0 (a b : number) :
  (a - b >? Num 0)%js = true -> JS.le b a = true.
Proof.
  destruct a as [p | | |], b as [q | | |]; try (simpl; congruence);
    try (cbv; congruence).
  cbn [JS.sub JS.neg JS.add]. rewrite gt_Num. simpl. rewrite R_leb_spec. lra.
Qed.

Lemma sub_not_gt_0 (a b : number) :
  a <> NaN -> b <> NaN ->
  (a - b >? Num 0)%js = false -> JS.le a b = true.
Proof.
  intros Ha Hb.
  destruct a as [p | | |], b as [q | | |]; try congruence; try reflexivity.
  - cbn [JS.sub JS.neg JS.add]. rewrite gt_Num_false. simpl. rewrite R_leb_spec. lra.
  - unfold JS.gt, JS.lt. simpl. unfold R_leb. destruct (Rle_dec 0 0); [discriminate | lra].
  - unfold JS.gt, JS.lt. simpl. discriminate.
  - unfold JS.gt, JS.lt. simpl. discriminate.
Qed.

Context {A : Type}.

Lemma sort_insert_perm (cmp : A -> A -> number) (x : A) (l : list A) :
  Permutation (sort_insert cmp x l) (x :: l).
Proof.
  induction l as [| y l IH]; cbn [sort_insert]; [reflexivity |].
  destruct (cmp y x >? Num 0)%js; [reflexivity |].
  rewrite IH. apply perm_swap.
Qed.

Lemma fold_sort_insert_perm (cmp : A -> A -> number) (l acc : list A) :
  Permutation (fold_left (fun acc x => sort_insert cmp x acc) l acc) (acc ++ l).
Proof.
  revert acc. induction l as [| x l IH]; intros acc; cbn [fold_left].
  - now rewrite app_nil_r.
  - rewrite IH, sort_insert_perm.
    change (x :: acc ++ l) with ((x :: acc) ++ l).
    rewrite (Permutation_middle acc l x). reflexivity.
Qed.

Lemma Array_sort_perm (cmp : A -> A -> number) (l : list A) :
  Permutation (Array_sort cmp l) l.
Proof. unfold Array_sort. now rewrite fold_sort_insert_perm. Qed.

Lemma Array_sort_length (cmp : A -> A -> number) (l : list A) :
  length (Array_sort cmp l) = length l.
Proof. apply Permutation_length, Array_sort_perm. Qed.

(** Sorting by a key, largest first: the comparator is [key b - key a]. *)
Variable key : A -> number.

Lemma sort_insert_sorted (x : A) (l : list A) :
  key x <> NaN -> Forall (fun y => key y <> NaN) l ->
  StronglySorted (keyGe key) l ->
  StronglySorted (keyGe key) (sort_insert (keyDesc key) x l).
Proof.
  intros Hx Hl Hs. induction Hs as [| y l Hs IH Hy]; cbn [sort_insert].
  - repeat constructor.
  - apply Forall_cons_iff in Hl as [Hyn Hl].
    destruct ((keyDesc key) y x >? Num 0)%js eqn:Hc.
    + apply sub_gt_0 in Hc. constructor; [now constructor |].
      constructor; [exact Hc |].
      eapply List.Forall_impl; [| exact Hy]. intros z Hz. unfold keyGe in *.
      eapply le_trans_js; eassumption.
    + apply sub_not_gt_0 in Hc; [| assumption | assumption].
      constructor; [now apply IH |].
      eapply Permutation_Forall; [symmetry; apply sort_insert_perm |].
      constructor; assumption.
Qed.

Lemma fold_sort_insert_sorted (l acc : list A) :
  Forall (fun y => key y <> NaN) l -> Forall (fun y => key y <> NaN) acc ->
  StronglySorted (keyGe key) acc ->
  StronglySorted (keyGe key) (fold_left (fun acc x => sort_insert (keyDesc key) x acc) l acc).
Proof.
  revert acc. induction l as [| x l IH]; intros acc Hl Hacc Hs; cbn [fold_left];
    [exact Hs |].
  apply Forall_cons_iff in Hl as [Hx Hl].
  apply IH; [exact Hl | | now apply sort_insert_sorted].
  eapply Permutation_Forall; [symmetry; apply sort_insert_perm |].
  now constructor.
Qed.

Lemma Array_sort_sorted (l : list A) :
  Forall (fun y => key y <> NaN) l ->
  StronglySorted (keyGe key) (Array_sort (keyDesc key) l).
Proof.
  intros Hl. apply fold_sort_insert_sorted; [exact Hl | constructor | constructor].
Qed.

Lemma In_prefix (x : A) (k : nat) (l : list A) : In x (firstn k l) -> In x l.
Proof.
  intros Hx. rewrite <- (firstn_skipn k l). apply in_or_app. now left.
Qed.

Lemma StronglySorted_firstn (P : A -> A -> Prop) (k : nat) (l : list A) :
  StronglySorted P l -> StronglySorted P (firstn k l).
Proof.
  intros Hs. revert k. induction Hs as [| y l Hs IH Hy]; intros [| k];
    cbn [firstn]; try constructor.
  - apply IH.
  - rewrite List.Forall_forall in *. intros z Hz. apply Hy.
    eapply In_prefix; eassumption.
Qed.

(** A slice from index 0 is a prefix. *)
Lemma slice_int_0 (l : list A) (e : Z) :
  exists k : nat,
    slice_int l 0 e = firstn k l /\ ((0 <= e)%Z -> (Z.of_nat k <= e)%Z).
Proof.
  unfold slice_int. cbn [Z.ltb Z.compare].
  rewrite (Z.min_l 0) by lia. cbn [Z.to_nat skipn].
  eexists. split; [rewrite Z.sub_0_r; reflexivity |].
  intros He. destruct (e <? 0)%Z eqn:E; [lia |].
  rewrite Z2Nat.id by lia. lia.
Qed.

Lemma Array_slice_0 (l : list A) (e : number) :
  exists k : nat,
    Array_slice l 0 e = firstn k l /\
    (JS.le (Num 0) e = true -> JS.le (Num (INR k)) e = true).
Proof.
  destruct e as [r | | |]; cbn [Array_slice].
  - destruct (slice_int_0 l (truncate r)) as (k & Hk & Hle).
    exists k. split; [exact Hk |]. rewrite !le_Num. intros Hr.
    unfold truncate in Hle. destruct (Rle_dec 0 r) as [_ | Hn]; [| contradiction].
    assert (0 <= Int_part r)%Z as Hip.
    { destruct (base_Int_part r) as [_ Hb].
      assert (-1 < IZR (Int_part r)) as Hb' by lra.
      apply lt_IZR in Hb'. lia. }
    specialize (Hle Hip). apply IZR_le in Hle. rewrite <- INR_IZR_INZ in Hle.
    destruct (base_Int_part r) as [Hb _]. lra.
  - destruct (slice_int_0 l (Z.of_nat (length l))) as (k & Hk & _).
    exists k. split; [exact Hk | reflexivity].
  - exists 0%nat. split; [reflexivity | discriminate].
  - destruct (slice_int_0 l 0) as (k & Hk & _).
    exists k. split; [exact Hk | discriminate].
Qed.

End ArrayFacts.

Lemma Int_part_IZR (z : Z) : Int_part (IZR z) = z.
Proof.
  unfold Int_part.
  assert ((z + 1)%Z = up (IZR z)) as <-; [| lia].
  apply tech_up; rewrite plus_IZR; lra.
Qed.

Lemma truncate_IZR (z : Z) : truncate (IZR z) = z.
Proof.
  unfold truncate. destruct (Rle_dec 0 (IZR z)); [apply Int_part_IZR |].
  rewrite <- opp_IZR, Int_part_IZR. lia.
Qed.

(* ===================================================================== *)
(** ** Facts about the heap operations *)
(* ===================================================================== *)

Section HeapFacts.

Import Heap.

Lemma bind_Some {A B : Type} (m : Prog A) (f : A -> Prog B) (σ σ' : Store) (a : A) :
  m σ = Some (a, σ') -> (m ≫= f) σ = f a σ'.
Proof. intros H. unfold mbind, Prog_bind. now rewrite H. Qed.

Lemma preserves_refl (σ : Store) : preserves σ σ.
Proof. split; auto. Qed.

Lemma preserves_trans (σ1 σ2 σ3 : Store) :
  preserves σ1 σ2 -> preserves σ2 σ3 -> preserves σ1 σ3.
Proof.
  intros [Ho1 Ha1] [Ho2 Ha2]. split; [congruence | auto].
Qed.

Lemma preserves_new (σ0 σ : Store) (a : loc) :
  preserves σ0 σ -> arrays σ !! a = None -> arrays σ0 !! a = None.
Proof.
  intros [_ Ha] Hnew. destruct (arrays σ0 !! a) as [l |] eqn:E; [| reflexivity].
  apply Ha in E. congruence.
Qed.

Lemma pointsTo_preserved (σ σ' : Store) (l : list loc) (ts : list RankedTrend) :
  objects σ' = objects σ -> pointsTo σ l ts -> pointsTo σ' l ts.
Proof. unfold pointsTo. now intros ->. Qed.

Lemma pointsTo_length (σ : Store) (l : list loc) (ts : list RankedTrend) :
  pointsTo σ l ts -> length l = length ts.
Proof. apply Forall2_length. Qed.

Lemma readArray_Some (a : loc) (l : list loc) (σ : Store) :
  arrays σ !! a = Some l -> readArray a σ = Some (l, σ).
Proof. intros H. unfold readArray. now rewrite H. Qed.

Lemma readObject_Some (o : loc) (t : RankedTrend) (σ : Store) :
  objects σ !! o = Some t -> readObject o σ = Some (t, σ).
Proof. intros H. unfold readObject. now rewrite H. Qed.

Lemma Array_length_Some (a : loc) (l : list loc) (σ : Store) :
  arrays σ !! a = Some l -> Array_length a σ = Some (Num (INR (length l)), σ).
Proof.
  intros H. unfold Array_length. now rewrite (bind_Some _ _ _ _ _ (readArray_Some _ _ _ H)).
Qed.

Lemma newArray_spec (l : list loc) (σ : Store) :
  exists (a : loc) (σ' : Store),
    newArray l σ = Some (a, σ') /\
    arrays σ !! a = None /\
    arrays σ' !! a = Some l /\
    preserves σ σ'.
Proof.
  unfold newArray. remember (fresh (dom (arrays σ))) as a eqn:Ea.
  assert (arrays σ !! a = None) as Hnew.
  { apply not_elem_of_dom. rewrite Ea. apply is_fresh. }
  clear Ea. eexists a, _. split; [reflexivity |]. split; [exact Hnew |].
  cbn [arrays objects]. split; [apply lookup_insert_eq |].
  split; [reflexivity |]. intros b lb Hb. cbn [arrays].
  rewrite lookup_insert_ne; [exact Hb |].
  intros Heq. subst b. congruence.
Qed.

Lemma console_log_spec (line : string) (σ : Store) :
  exists σ' : Store,
    console_log line σ = Some (tt, σ') /\
    arrays σ' = arrays σ /\ objects σ' = objects σ.
Proof. eexists. split; [reflexivity |]. split; reflexivity. Qed.

(** A callback that reads the object and applies a pure predicate. *)
Lemma filterM_read (p : RankedTrend -> bool) (l : list loc)
    (ts : list RankedTrend) (σ : Store) :
  pointsTo σ l ts ->
  exists l' : list loc,
    filterM (fun o => t ← readObject o; mret (p t)) l σ = Some (l', σ) /\
    pointsTo σ l' (List.filter p ts) /\
    incl l' l.
Proof.
  induction 1 as [| o t l ts Ho Hl (l' & Hrun & Hpt & Hincl)]; cbn [filterM List.filter].
  - exists []. repeat split; [constructor | apply incl_refl].
  - exists (if p t then o :: l' else l'). split; [| split].
    + rewrite (bind_Some _ _ σ σ (p t)).
      2:{ now rewrite (bind_Some _ _ _ _ _ (readObject_Some _ _ _ Ho)). }
      now rewrite (bind_Some _ _ _ _ _ Hrun).
    + destruct (p t); [constructor; assumption | assumption].
    + destruct (p t).
      * apply incl_cons; [now left | now apply incl_tl].
      * now apply incl_tl.
Qed.

Lemma Array_filter_spec (p : RankedTrend -> bool) (a : loc) (l : list loc)
    (ts : list RankedTrend) (σ : Store) :
  arrays σ !! a = Some l -> pointsTo σ l ts ->
  exists (a' : loc) (σ' : Store) (l' : list loc),
    Array_filter (fun o => t ← readObject o; mret (p t)) a σ = Some (a', σ') /\
    arrays σ !! a' = None /\
    arrays σ' !! a' = Some l' /\
    preserves σ σ' /\
    pointsTo σ' l' (List.filter p ts) /\
    incl l' l.
Proof.
  intros Ha Hpt.
  destruct (filterM_read p l ts σ Hpt) as (l' & Hrun & Hpt' & Hincl).
  destruct (newArray_spec l' σ) as (a' & σ' & Hnew & Hfresh & Hlook & Hpres).
  exists a', σ', l'. unfold Array_filter.
  rewrite (bind_Some _ _ _ _ _ (readArray_Some _ _ _ Ha)).
  rewrite (bind_Some _ _ _ _ _ Hrun).
  repeat split; try assumption; try apply Hpres.
  eapply pointsTo_preserved; [apply Hpres | exact Hpt'].
Qed.

Lemma insertM_read (cmp : RankedTrend -> RankedTrend -> number)
    (x : loc) (tx : RankedTrend) (l : list loc) (ts : list RankedTrend) (σ : Store) :
  objects σ !! x = Some tx -> pointsTo σ l ts ->
  exists l' : list loc,
    insertM (fun a b => ta ← readObject a; tb ← readObject b; mret (cmp ta tb)) x l σ
      = Some (l', σ) /\
    pointsTo σ l' (sort_insert cmp tx ts) /\
    Permutation l' (x :: l).
Proof.
  intros Hx. induction 1 as [| y ty l ts Hy Hl (l' & Hrun & Hpt & Hperm)];
    cbn [insertM sort_insert].
  - exists [x]. repeat split; [repeat constructor; assumption | reflexivity].
  - assert ((ta ← readObject y; tb ← readObject x; mret (cmp ta tb)) σ
            = Some (cmp ty tx, σ)) as Hcmp.
    { rewrite (bind_Some _ _ _ _ _ (readObject_Some _ _ _ Hy)).
      now rewrite (bind_Some _ _ _ _ _ (readObject_Some _ _ _ Hx)). }
    rewrite (bind_Some _ _ _ _ _ Hcmp).
    destruct (cmp ty tx >? Num 0)%js.
    + exists (x :: y :: l). repeat split; [| reflexivity].
      constructor; [assumption |]. constructor; assumption.
    + exists (y :: l'). rewrite (bind_Some _ _ _ _ _ Hrun). repeat split.
      * constructor; assumption.
      * rewrite Hperm. apply perm_swap.
Qed.

Lemma sortM_read (cmp : RankedTrend -> RankedTrend -> number)
    (l : list loc) (ts : list RankedTrend) (σ : Store) :
  pointsTo σ l ts ->
  forall (acc : list loc) (accs : list RankedTrend),
    pointsTo σ acc accs ->
    exists r : list loc,
      sortM (fun a b => ta ← readObject a; tb ← readObject b; mret (cmp ta tb)) l acc σ
        = Some (r, σ) /\
      pointsTo σ r (fold_left (fun acc x => sort_insert cmp x acc) ts accs) /\
      Permutation r (acc ++ l).
Proof.
  induction 1 as [| x tx l ts Hx Hl IH]; intros acc accs Hacc; cbn [sortM fold_left].
  - exists acc. repeat split; [assumption | now rewrite app_nil_r].
  - destruct (insertM_read cmp x tx acc accs σ Hx Hacc) as (acc' & Hins & Hpt & Hperm).
    destruct (IH acc' _ Hpt) as (r & Hrun & Hptr & Hpermr).
    exists r. rewrite (bind_Some _ _ _ _ _ Hins). repeat split; try assumption.
    rewrite Hpermr, Hperm. apply (Permutation_middle acc l x).
Qed.

Lemma Array_sort_in_place_spec (cmp : RankedTrend -> RankedTrend -> number)
    (a : loc) (l : list loc) (ts : list RankedTrend) (σ : Store) :
  arrays σ !! a = Some l -> pointsTo σ l ts ->
  exists (σ' : Store) (r : list loc),
    Array_sort_in_place
      (fun a b => ta ← readObject a; tb ← readObject b; mret (cmp ta tb)) a σ
      = Some (a, σ') /\
    arrays σ' = <[a := r]> (arrays σ) /\
    objects σ' = objects σ /\
    pointsTo σ' r (Array_sort cmp ts) /\
    Permutation r l.
Proof.
  intros Ha Hpt.
  assert (pointsTo σ [] []) as Hnil by constructor.
  destruct (sortM_read cmp l ts σ Hpt [] [] Hnil) as (r & Hrun & Hptr & Hperm).
  eexists _, r. unfold Array_sort_in_place.
  rewrite (bind_Some _ _ _ _ _ (readArray_Some _ _ _ Ha)).
  rewrite (bind_Some _ _ _ _ _ Hrun).
  unfold writeArray at 1. unfold mbind, Prog_bind. rewrite Ha.
  split; [reflexivity |]. cbn [arrays objects]. repeat split; assumption.
Qed.

Lemma pointsTo_slice (σ : Store) (l : list loc) (ts : list RankedTrend)
    (start : Z) (e : number) :
  pointsTo σ l ts -> pointsTo σ (Array_slice l start e) (Array_slice ts start e).
Proof.
  intros Hpt. pose proof (pointsTo_length _ _ _ Hpt) as Hlen.
  assert (forall s' e', pointsTo σ (slice_int l s' e') (slice_int ts s' e')) as Hint.
  { intros s' e'. unfold slice_int. rewrite Hlen.
    apply Forall2_take, Forall2_drop, Hpt. }
  destruct e; cbn [Array_slice]; try apply Hint.
  - rewrite Hlen. apply Hint.
  - constructor.
Qed.

Lemma Array_slice_incl {A : Type} (l : list A) (e : number) :
  incl (Array_slice l 0 e) l.
Proof.
  destruct (Array_slice_0 l e) as (k & -> & _). intros x. apply In_prefix.
Qed.

End HeapFacts.

(* ===================================================================== *)
(** ** Properties of the scorer *)
(* ===================================================================== *)

Section ScoreRange.

Local Open Scope R_scope.

Lemma num_or_Num (a : R) (d : number) : a <> 0 -> num_or (Some (Num a)) d = Num a.
Proof. intros Ha. simpl. now rewrite (R_eqb_neq _ _ Ha). Qed.

Lemma scenario_metricValues (ts : option string) :
  metricValues {| pt_timestamp := ts; pt_metrics := Some scenario_metrics |}
    1000 200 50 500000 0.
Proof.
  unfold metricValues, metricsOf, scenario_metrics. cbn [pt_metrics likes shares comments views retweets].
  repeat split; apply num_or_Num; lra.
Qed.

Lemma negative_comments_metricValues :
  metricValues negative_comments_trend 0 0 (-1) 1 0.
Proof.
  unfold metricValues, metricsOf, negative_comments_trend.
  cbn [pt_metrics likes shares comments views retweets].
  repeat split; try reflexivity; apply num_or_Num; lra.
Qed.

Lemma bare_metricValues (ts : option string) :
  metricValues {| pt_timestamp := ts; pt_metrics := None |} 0 0 0 0 0.
Proof. repeat split. Qed.

(** The object [{}] scores 1 for recency and 0 for the metrics. *)
Example bare_trend_scores :
  let sc := calculateTrendScore ISO.parse now0 bare_trend in
  recency sc = Num 1 /\ popularity sc = Num 0 /\
  engagement sc = Num 0 /\ overall sc = Num 0.4.
Proof.
  intros sc.
  assert (recency sc = Num 1) as Hrec.
  { unfold sc. rewrite (recency_finite ISO.parse now0 bare_trend now0 eq_refl).
    f_equal. apply recencyR_future. unfold ageHours. lra. }
  assert (popularity sc = Num 0) as Hpop.
  { unfold sc. rewrite (popularity_finite ISO.parse now0 bare_trend 0 0 0 0 0 (bare_metricValues None))
      by (unfold totalEngagementR; lra).
    f_equal. unfold popularityR, totalEngagementR, log10R.
    replace (0 + 0 + 0 + 0 + 0 / 100 + 1) with 1 by lra.
    rewrite ln_1. rewrite Rmin_right; lra. }
  assert (engagement sc = Num 0) as Heng.
  { unfold sc. rewrite (engagement_finite ISO.parse now0 bare_trend 0 0 0 0 0 (bare_metricValues None)).
    f_equal. unfold engagementR. rewrite Rmax_left by lra.
    destruct (Rlt_dec 0 0); lra. }
  repeat split; try assumption.
  unfold sc. rewrite (overall_finite ISO.parse now0 bare_trend _ _ _ Hrec Hpop Heng).
  f_equal. unfold overallR. lra.
Qed.

(** The scenario's popularity and overall score, to three decimals. *)
Lemma scenario_popularityR :
  6325 / 10000 < popularityR 1000 200 50 500000 0 < 6334 / 10000.
Proof.
  unfold popularityR, totalEngagementR.
  replace (1000 + 200 + 50 + 0 + 500000 / 100 + 1) with 6251 by lra.
  pose proof log10R_6251 as [Hlo Hhi].
  rewrite Rmin_right by lra. lra.
Qed.

Lemma scenario_engagementR : engagementR 1000 200 50 500000 0 = 0.05.
Proof.
  unfold engagementR. rewrite Rmax_left by lra.
  destruct (Rlt_dec 0 500000) as [_ | Hn]; [| lra].
  rewrite Rmin_right by lra. lra.
Qed.

(** C2: the scores do not always lie in [0,1]: popularity and engagement
    are cut off at 1 only, not at 0 as recency is.  For the candidate with
    [comments = -1] and [views = 1] the engagement score is -100, outside
    the unit interval that the claim, and the comments on the fields of
    [TrendScore], promise. *)
Theorem negative_metric_leaves_unit_interval :
  engagement (calculateTrendScore ISO.parse now0 negative_comments_trend) = Num (-100) /\
  ~ inUnit (engagement (calculateTrendScore ISO.parse now0 negative_comments_trend)).
Proof.
  rewrite (engagement_finite _ _ _ _ _ _ _ _ negative_comments_metricValues).
  assert (engagementR 0 0 (-1) 1 0 = -100) as ->.
  { unfold engagementR. rewrite Rmax_left by lra.
    destruct (Rlt_dec 0 1) as [_ | Hn]; [| lra].
    rewrite Rmin_right by lra. lra. }
  split; [reflexivity |].
  intros (a & Ha & Hlo & Hhi). injection Ha as <-. lra.
Qed.

(** Where the scores do lie in the unit interval: for a candidate whose
    timestamp is absent or parses and whose metrics are finite and
    non-negative (or absent), recency, popularity, engagement and overall
    all lie in the closed interval [0,1]. *)
Theorem scores_in_unit_interval
    (Date_parse : string -> Date) (now : Z) (trend : PartialTrend)
    (t : Z) (l s c v r : R) :
  scoreDate Date_parse now (pt_timestamp trend) = Some t ->
  metricValues trend l s c v r ->
  0 <= l -> 0 <= s -> 0 <= c -> 0 <= v -> 0 <= r ->
  let sc := calculateTrendScore Date_parse now trend in
  inUnit (recency sc) /\ inUnit (popularity sc) /\
  inUnit (engagement sc) /\ inUnit (overall sc).
Proof.
  intros Ht Hm Hl Hs Hc Hv Hr sc.
  pose proof (recency_finite Date_parse now trend t Ht) as Hrec.
  assert (0 < totalEngagementR l s c v r + 1) as Hpos
    by (unfold totalEngagementR; lra).
  pose proof (popularity_finite Date_parse now trend l s c v r Hm Hpos) as Hpop.
  pose proof (engagement_finite Date_parse now trend l s c v r Hm) as Heng.
  pose proof (overall_finite Date_parse now trend _ _ _ Hrec Hpop Heng) as Hov.
  pose proof (recencyR_range now (IZR t)) as Hr1.
  pose proof (popularityR_range l s c v r Hl Hs Hc Hv Hr) as Hr2.
  pose proof (engagementR_range l s c v r Hs Hc Hr) as Hr3.
  fold sc in Hrec, Hpop, Heng, Hov.
  repeat split; eexists; (split; [eassumption |]); try assumption.
  unfold overallR. lra.
Qed.

Lemma scores_in_unit_interval_witness :
  inUnit (overall (calculateTrendScore ISO.parse now0 scenario_trend)).
Proof.
  refine (proj2 (proj2 (proj2
    (scores_in_unit_interval ISO.parse now0 scenario_trend now0
       1000 200 50 500000 0 _ _ _ _ _ _ _)))).
  - vm_compute. reflexivity.
  - apply scenario_metricValues.
  - lra.
  - lra.
  - lra.
  - lra.
  - lra.
Defined.

(** C3: recency is [exp (- ageHours / 24)] clamped to [0,1], with
    [ageHours] the hours from the candidate's timestamp to now; when the
    timestamp denotes the instant [t] this is the real number
    [max 0 (min 1 (exp (- ageHours / 24)))]; a negative age gives recency 1,
    and so does [t = now]; at 24 hours recency is 0.368 and at 48 hours
    0.135, to three decimals. *)
Theorem recency_exponential_decay
    (Date_parse : string -> Date) (now : Z) (trend : PartialTrend) :
  let sc := calculateTrendScore Date_parse now trend in
  let ageInHours := ageInHoursOf now (scoreDate Date_parse now (pt_timestamp trend)) in
  recency sc =
    Math_max (Num 0) (Math_min (Num 1) (Math_exp (neg ageInHours / Num 24)%js)) /\
  forall t : Z,
    scoreDate Date_parse now (pt_timestamp trend) = Some t ->
    let age := ageHours now (IZR t) in
    ageInHours = Num age /\
    recency sc = Num (Rmax 0 (Rmin 1 (exp (- age / 24)))) /\
    (age < 0 -> recency sc = Num 1) /\
    (t = now -> recency sc = Num 1) /\
    (age = 24 -> approx3 (recency sc) 0.368) /\
    (age = 48 -> approx3 (recency sc) 0.135).
Proof.
  intros sc ageInHours. split; [reflexivity |]. intros t Ht age.
  pose proof (recency_finite Date_parse now trend t Ht) as Hrec.
  fold sc in Hrec. rewrite Hrec. split.
  { unfold ageInHours, ageInHoursOf. rewrite Ht, msPerHour_val.
    cbn [getTime JS.sub JS.neg JS.add]. rewrite div_Num by lra.
    unfold age, ageHours. f_equal; lra. }
  split; [reflexivity |].
  split; [| split; [| split]].
  - intros Hage. f_equal. apply recencyR_future. fold age. lra.
  - intros ->. f_equal. apply recencyR_future. unfold ageHours. lra.
  - intros Hage. exists (recencyR now (IZR t)). split; [reflexivity |].
    rewrite recencyR_val by (fold age; lra). fold age.
    replace (- age / 24) with (-1) by lra.
    pose proof exp_m1_bounds as [Hlo Hhi].
    apply Rabs_le. lra.
  - intros Hage. exists (recencyR now (IZR t)). split; [reflexivity |].
    rewrite recencyR_val by (fold age; lra). fold age.
    replace (- age / 24) with (-2) by lra.
    pose proof exp_m2_bounds as [Hlo Hhi].
    apply Rabs_le. lra.
Qed.

Lemma recency_exponential_decay_witness :
  approx3 (recency (calculateTrendScore ISO.parse now0 day_old_trend)) 0.368 /\
  approx3 (recency (calculateTrendScore ISO.parse now0 two_days_old_trend)) 0.135.
Proof.
  split.
  - refine (proj1 (proj2 (proj2 (proj2 (proj2
      (proj2 (recency_exponential_decay ISO.parse now0 day_old_trend)
         (now0 - 86400000)%Z _))))) _).
    + vm_compute. reflexivity.
    + unfold ageHours, now0. rewrite minus_IZR. lra.
  - refine (proj2 (proj2 (proj2 (proj2 (proj2
      (proj2 (recency_exponential_decay ISO.parse now0 two_days_old_trend)
         (now0 - 172800000)%Z _))))) _).
    + vm_compute. reflexivity.
    + unfold ageHours, now0. rewrite minus_IZR. lra.
Defined.

End ScoreRange.

Section ScoreFormulas.

Local Open Scope R_scope.

Lemma scenario_scores (Date_parse : string -> Date) (now : Z) (trend : PartialTrend) :
  scoreDate Date_parse now (pt_timestamp trend) = Some now ->
  metricValues trend 1000 200 50 500000 0 ->
  let sc := calculateTrendScore Date_parse now trend in
  recency sc = Num 1 /\
  popularity sc = Num (popularityR 1000 200 50 500000 0) /\
  engagement sc = Num 0.05 /\
  overall sc = Num (overallR 1 (popularityR 1000 200 50 500000 0) 0.05).
Proof.
  intros Ht Hm sc.
  assert (recency sc = Num 1) as Hrec.
  { unfold sc. rewrite (recency_finite _ _ _ _ Ht). f_equal.
    apply recencyR_future. unfold ageHours. lra. }
  assert (popularity sc = Num (popularityR 1000 200 50 500000 0)) as Hpop.
  { apply popularity_finite; [exact Hm | unfold totalEngagementR; lra]. }
  assert (engagement sc = Num 0.05) as Heng.
  { unfold sc. rewrite (engagement_finite _ _ _ _ _ _ _ _ Hm).
    now rewrite scenario_engagementR. }
  repeat split; try assumption.
  now apply overall_finite.
Qed.

(** C4, the input that breaks it: in the end-to-end scenario neither is
    popularity 0.637 nor overall 0.665 to three decimals. *)
Lemma scenario_scores_differ_from_stated :
  let sc := calculateTrendScore ISO.parse now0 scenario_trend in
  ~ approx3 (popularity sc) 0.637 /\ ~ approx3 (overall sc) 0.665.
Proof.
  destruct (scenario_scores ISO.parse now0 scenario_trend eq_refl
              (scenario_metricValues _)) as (_ & Hpop & _ & Hov).
  pose proof scenario_popularityR as [Hlo Hhi].
  cbv zeta. rewrite Hpop, Hov. split.
  - intros (a & Ha & Habs). injection Ha as <-.
    apply Rabs_le_bounds in Habs. lra.
  - intros (a & Ha & Habs). injection Ha as <-.
    apply Rabs_le_bounds in Habs. unfold overallR in Habs. lra.
Qed.

(** C4, as amended: popularity is [min(1, log10(totalEngagement + 1) / 6)]
    with [totalEngagement = likes + shares + comments + retweets + views/100],
    an absent metric counting as 0; for a candidate stamped now with
    [{likes: 1000, shares: 200, comments: 50, views: 500000}] popularity is
    [log10(6251)/6], 0.633 to three decimals, engagement is 0.05 and overall
    is 0.663 to three decimals. *)
Theorem popularity_log_scale
    (Date_parse : string -> Date) (now : Z) (trend : PartialTrend) :
  let sc := calculateTrendScore Date_parse now trend in
  let m := metricsOf trend in
  let totalEngagement :=
    (num_or (likes m) (Num 0) + num_or (shares m) (Num 0) +
     num_or (comments m) (Num 0) + num_or (retweets m) (Num 0) +
     num_or (views m) (Num 0) / Num 100)%js in
  popularity sc = Math_min (Num 1) (Math_log10 (totalEngagement + Num 1) / Num 6)%js /\
  (forall l s c v r : R,
      metricValues trend l s c v r ->
      0 < l + s + c + r + v / 100 + 1 ->
      popularity sc = Num (Rmin 1 (log10R (l + s + c + r + v / 100 + 1) / 6))) /\
  (metricValues trend 1000 200 50 500000 0 ->
   scoreDate Date_parse now (pt_timestamp trend) = Some now ->
   popularity sc = Num (Rmin 1 (log10R 6251 / 6)) /\
   approx3 (popularity sc) 0.633 /\
   engagement sc = Num 0.05 /\
   approx3 (overall sc) 0.663).
Proof.
  intros sc m totalEngagement. split; [reflexivity |]. split.
  - intros l s c v r Hm Hpos. now apply popularity_finite.
  - intros Hm Ht.
    destruct (scenario_scores Date_parse now trend Ht Hm) as (_ & Hpop & Heng & Hov).
    fold sc in Hpop, Heng, Hov.
    pose proof scenario_popularityR as [Hlo Hhi].
    split; [| split; [| split]].
    + rewrite Hpop. unfold popularityR, totalEngagementR. repeat f_equal. lra.
    + exists (popularityR 1000 200 50 500000 0). split; [exact Hpop |].
      apply Rabs_le. lra.
    + exact Heng.
    + eexists. split; [exact Hov |]. unfold overallR. apply Rabs_le. lra.
Qed.

Lemma popularity_log_scale_witness :
  approx3 (popularity (calculateTrendScore ISO.parse now0 scenario_trend)) 0.633 /\
  approx3 (overall (calculateTrendScore ISO.parse now0 scenario_trend)) 0.663.
Proof.
  destruct (proj2 (proj2 (popularity_log_scale ISO.parse now0 scenario_trend))
              (scenario_metricValues _) eq_refl) as (_ & Hpop & _ & Hov).
  split; assumption.
Defined.

(** C5: engagement is [min(1, (comments + shares + retweets) / max(views,
    likes) * 100)] when [max(views, likes) > 0] and exactly 0 when it is 0;
    the quotient is only formed with a non-zero divisor, so for finite
    metrics the engagement score is a finite number. *)
Theorem engagement_rate_guarded
    (Date_parse : string -> Date) (now : Z) (trend : PartialTrend) :
  let sc := calculateTrendScore Date_parse now trend in
  let m := metricsOf trend in
  let activeEngagement :=
    (num_or (comments m) (Num 0) + num_or (shares m) (Num 0) +
     num_or (retweets m) (Num 0))%js in
  let totalImpressions :=
    Math_max (num_or (views m) (Num 0)) (num_or (likes m) (Num 0)) in
  ((totalImpressions >? Num 0)%js = true ->
     is_zero totalImpressions = false /\
     engagement sc =
       Math_min (Num 1) (activeEngagement / totalImpressions * Num 100)%js) /\
  (totalImpressions = Num 0 -> engagement sc = Num 0) /\
  (forall l s c v r : R,
      metricValues trend l s c v r ->
      (0 < Rmax v l ->
         engagement sc = Num (Rmin 1 ((c + s + r) / Rmax v l * 100))) /\
      (Rmax v l = 0 -> engagement sc = Num 0) /\
      isFinite (engagement sc) = true).
Proof.
  intros sc m activeEngagement totalImpressions.
  assert (engagement sc =
          if (totalImpressions >? Num 0)%js
          then Math_min (Num 1) (activeEngagement / totalImpressions * Num 100)%js
          else Num 0) as Hdef by reflexivity.
  split; [| split].
  - intros Hgt. rewrite Hdef, Hgt. split; [| reflexivity].
    destruct totalImpressions as [a | | |]; try reflexivity.
    apply gt_Num in Hgt. simpl. apply R_eqb_false. lra.
  - intros Hz. rewrite Hdef, Hz.
    assert ((Num 0 >? Num 0)%js = false) as -> by (apply gt_Num_false; lra).
    reflexivity.
  - intros l s c v r Hm.
    pose proof (engagement_finite Date_parse now trend l s c v r Hm) as Heng.
    fold sc in Heng. rewrite Heng. unfold engagementR.
    split; [| split].
    + intros Hpos. destruct (Rlt_dec 0 (Rmax v l)); [reflexivity | contradiction].
    + intros Hz. destruct (Rlt_dec 0 (Rmax v l)); [lra | reflexivity].
    + reflexivity.
Qed.

Lemma engagement_rate_guarded_witness :
  engagement (calculateTrendScore ISO.parse now0 scenario_trend) =
    Num (Rmin 1 ((50 + 200 + 0) / Rmax 500000 1000 * 100)) /\
  engagement (calculateTrendScore ISO.parse now0 bare_trend) = Num 0.
Proof.
  split.
  - refine (proj1 (proj2 (proj2 (engagement_rate_guarded ISO.parse now0 scenario_trend))
                     1000 200 50 500000 0 (scenario_metricValues _)) _).
    rewrite Rmax_left; lra.
  - refine (proj1 (proj2 (proj2 (proj2 (engagement_rate_guarded ISO.parse now0 bare_trend))
                     0 0 0 0 0 (bare_metricValues _))) _).
    rewrite Rmax_left; lra.
Defined.

(** C6: a timestamp that does not parse is not scored as now.  The scorer
    falls back to now for a missing timestamp only ([trend.timestamp ||
    now]); for the candidate stamped ["not-a-date"] the date is invalid and
    recency is NaN, and overall with it, where the claim says recency 1. *)
Theorem unparsable_timestamp_recency_is_NaN :
  ISO.parse "not-a-date" = None /\
  recency (calculateTrendScore ISO.parse now0 unparsable_trend) = NaN /\
  recency (calculateTrendScore ISO.parse now0 unparsable_trend) <> Num 1 /\
  overall (calculateTrendScore ISO.parse now0 unparsable_trend) = NaN.
Proof.
  assert (recency (calculateTrendScore ISO.parse now0 unparsable_trend) = NaN) as H
    by (apply recency_invalid; reflexivity).
  split; [reflexivity |]. split; [exact H |].
  split; [rewrite H; discriminate |].
  rewrite overall_def, H. reflexivity.
Qed.

(** The timestamps the scorer does take as now: a candidate whose
    timestamp is missing ([undefined] or the empty string) is scored as of
    now, with recency 1; a timestamp that does not parse makes recency NaN;
    in every case the scorer returns, with a recency that is a number of
    [0,1] or NaN. *)
Theorem missing_timestamp_scored_as_now
    (Date_parse : string -> Date) (now : Z) (trend : PartialTrend) :
  let sc := calculateTrendScore Date_parse now trend in
  (pt_timestamp trend = None \/ pt_timestamp trend = Some ""%string ->
     scoreDate Date_parse now (pt_timestamp trend) = Some now /\
     recency sc = Num 1) /\
  (forall s : string,
      pt_timestamp trend = Some s -> s <> ""%string -> Date_parse s = None ->
      recency sc = NaN) /\
  (inUnit (recency sc) \/ recency sc = NaN).
Proof.
  intros sc. split; [| split].
  - intros Hmiss.
    assert (scoreDate Date_parse now (pt_timestamp trend) = Some now) as Ht
      by (destruct Hmiss as [-> | ->]; reflexivity).
    split; [exact Ht |].
    unfold sc. rewrite (recency_finite _ _ _ _ Ht). f_equal.
    apply recencyR_future. unfold ageHours. lra.
  - intros s Hs Hne Hparse. apply recency_invalid.
    rewrite Hs. cbn [scoreDate].
    destruct (String.eqb_spec s "") as [-> | _]; [contradiction | exact Hparse].
  - destruct (scoreDate Date_parse now (pt_timestamp trend)) as [t |] eqn:Ht.
    + left. unfold sc. rewrite (recency_finite _ _ _ _ Ht).
      eexists. split; [reflexivity | apply recencyR_range].
    + right. now apply recency_invalid.
Qed.

Lemma missing_timestamp_scored_as_now_witness :
  recency (calculateTrendScore ISO.parse now0 bare_trend) = Num 1 /\
  recency (calculateTrendScore ISO.parse now0 unparsable_trend) = NaN.
Proof.
  split.
  - exact (proj2 (proj1 (missing_timestamp_scored_as_now ISO.parse now0 bare_trend)
                    (or_introl eq_refl))).
  - refine (proj1 (proj2 (missing_timestamp_scored_as_now ISO.parse now0 unparsable_trend))
              "not-a-date"%string eq_refl _ eq_refl).
    discriminate.
Defined.




End ScoreFormulas.

(* ===================================================================== *)
(** ** Properties of the ranker *)
(* ===================================================================== *)

Section RankerExamples.

Local Open Scope R_scope.

Lemma sub_gt_0_Num (a b : R) : b < a -> (Num a - Num b >? Num 0)%js = true.
Proof. intros H. cbn [JS.sub JS.neg JS.add]. apply gt_Num. lra. Qed.

Lemma sub_gt_0_Num_false (a b : R) : a <= b -> (Num a - Num b >? Num 0)%js = false.
Proof. intros H. cbn [JS.sub JS.neg JS.add]. apply gt_Num_false. lra. Qed.

Lemma fresh_trend_in_window (i : string) (ov : R) (cat : Category) :
  withinTimeWindow ISO.parse now0 (Num 24) (fresh_trend i ov cat) = true.
Proof.
  unfold withinTimeWindow. cbn [rt_timestamp fresh_trend].
  replace (ISO.parse "2026-11-01T00:00:00.000Z") with (Some now0)
    by (vm_compute; reflexivity).
  cbn [getTime JS.sub JS.neg JS.add JS.mul]. rewrite div_Num by lra.
  apply le_Num. lra.
Qed.

Lemma fresh_trend_meets (i : string) (ov : R) (cat : Category) :
  0.1 <= ov -> meetsMinScore (Num 0.1) (fresh_trend i ov cat) = true.
Proof. intros H. unfold meetsMinScore. cbn. now apply R_leb_spec. Qed.

Lemma byOverallDesc_fresh (i j : string) (p q : R) (c d : Category) :
  byOverallDesc (fresh_trend i p c) (fresh_trend j q d) = (Num q - Num p)%js.
Proof. reflexivity. Qed.

(** With the default options the three candidates come back, the two with
    the higher score first and in their input order. *)
Example ranking_default_options :
  combineAndRankTrends ISO.parse now0 [user1] [global1; global2] None
  = [global1; global2; user1].
Proof.
  unfold combineAndRankTrends.
  cbn [default_to no_options maxResults minScore categories timeWindow
       app length Nat.ltb Nat.leb List.filter].
  unfold user1, global1, global2.
  rewrite !fresh_trend_in_window. cbn [List.filter].
  rewrite !fresh_trend_meets by lra.
  unfold Array_sort. cbn [fold_left sort_insert].
  rewrite byOverallDesc_fresh, (sub_gt_0_Num 0.9 0.2) by lra.
  cbn [sort_insert].
  rewrite !byOverallDesc_fresh, (sub_gt_0_Num_false 0.9 0.9) by lra.
  cbn [sort_insert]. rewrite (sub_gt_0_Num 0.9 0.2) by lra.
  cbn [Array_slice]. replace 50 with (IZR 50) by reflexivity.
  rewrite truncate_IZR. reflexivity.
Qed.

(** C1, the input that breaks it: with [maxResults = -1] the slice drops
    the last of the three ranked candidates and two are returned. *)
Lemma negative_maxResults_exceeded :
  let out := combineAndRankTrends ISO.parse now0 [user1] [global1; global2]
               (Some negative_maxResults) in
  out = [global1; global2] /\
  (Num (INR (length out)) <=? Num (-1))%js = false.
Proof.
  assert (combineAndRankTrends ISO.parse now0 [user1] [global1; global2]
            (Some negative_maxResults) = [global1; global2]) as Hout.
  { unfold combineAndRankTrends.
    cbn [default_to negative_maxResults maxResults minScore categories timeWindow
         app length Nat.ltb Nat.leb List.filter].
    unfold user1, global1, global2.
    rewrite !fresh_trend_in_window. cbn [List.filter].
    rewrite !fresh_trend_meets by lra.
    unfold Array_sort. cbn [fold_left sort_insert].
    rewrite byOverallDesc_fresh, (sub_gt_0_Num 0.9 0.2) by lra.
    cbn [sort_insert].
    rewrite !byOverallDesc_fresh, (sub_gt_0_Num_false 0.9 0.9) by lra.
    cbn [sort_insert]. rewrite (sub_gt_0_Num 0.9 0.2) by lra.
    cbn [Array_slice]. replace (-1) with (IZR (-1)) by reflexivity.
    rewrite truncate_IZR. reflexivity. }
  cbv zeta. rewrite Hout. split; [reflexivity |].
  cbn [length INR]. apply R_leb_false. lra.
Qed.

End RankerExamples.

Section RankerContract.

Local Open Scope R_scope.

Variable Date_parse : string -> Date.
Variable now : Z.

Lemma withinTimeWindow_age (w : number) (trend : RankedTrend) :
  withinTimeWindow Date_parse now w trend =
  (ageInHoursOf now (Date_parse (rt_timestamp trend)) <=? w)%js.
Proof. reflexivity. Qed.

Lemma withinTimeWindow_finite (w : number) (trend : RankedTrend) :
  withinTimeWindow Date_parse now w trend = true ->
  exists t : Z,
    Date_parse (rt_timestamp trend) = Some t /\
    forall wr : R, w = Num wr -> ageHours now (IZR t) <= wr.
Proof.
  unfold withinTimeWindow. destruct (Date_parse (rt_timestamp trend)) as [t |].
  - intros Hle. exists t. split; [reflexivity |]. intros wr ->.
    cbn [getTime JS.sub JS.neg JS.add JS.mul] in Hle.
    rewrite div_Num in Hle by lra. apply le_Num in Hle.
    unfold ageHours. lra.
  - cbn. discriminate.
Qed.

Lemma Array_includes_In (a : list string) (s : string) :
  Array_includes a s = true <-> In s a.
Proof.
  unfold Array_includes. rewrite existsb_exists. split.
  - intros (x & Hx & Heq). apply String.eqb_eq in Heq. now subst.
  - intros Hs. exists s. split; [exact Hs | apply String.eqb_refl].
Qed.

Lemma survivors_spec userTrends globalTrends minScore categories timeWindow trend :
  In trend (survivors Date_parse now userTrends globalTrends minScore categories timeWindow) ->
  In trend (userTrends ++ globalTrends) /\
  withinTimeWindow Date_parse now timeWindow trend = true /\
  (categories <> [] -> inCategories categories trend = true) /\
  meetsMinScore minScore trend = true.
Proof.
  unfold survivors. rewrite filter_In. intros [Hin Hscore].
  destruct categories as [| c cs]; cbn [length Nat.ltb Nat.leb] in Hin.
  - apply filter_In in Hin as [Hin Hwin]. repeat split; try assumption.
    congruence.
  - apply filter_In in Hin as [Hin Hcat]. apply filter_In in Hin as [Hin Hwin].
    repeat split; auto.
Qed.

Lemma combineAndRankTrends_prefix userTrends globalTrends options :
  let opts := default_to options no_options in
  exists k : nat,
    combineAndRankTrends Date_parse now userTrends globalTrends options =
      firstn k (Array_sort byOverallDesc
                  (survivors Date_parse now userTrends globalTrends
                     (default_to (minScore opts) (Num 0.1))
                     (default_to (categories opts) [])
                     (default_to (timeWindow opts) (Num 24)))) /\
    (JS.le (Num 0) (default_to (maxResults opts) (Num 50)) = true ->
     JS.le (Num (INR k)) (default_to (maxResults opts) (Num 50)) = true).
Proof.
  intros opts. unfold combineAndRankTrends. fold opts.
  apply Array_slice_0.
Qed.

(** C1, as amended: every returned trend has age at most [timeWindow]
    hours, overall score at least [minScore] and, when [categories] is not
    empty, a category of that list; the returned list is sorted
    non-increasing by overall score; its length is at most [maxResults]
    whenever [maxResults] is not negative; the defaults are
    [maxResults = 50], [minScore = 0.1], [timeWindow = 24] and no category
    filter. *)
Theorem ranking_output_contract
    (userTrends globalTrends : list RankedTrend) (options : option RankOptions) :
  let opts := default_to options no_options in
  let maxR := default_to (maxResults opts) (Num 50) in
  let minS := default_to (minScore opts) (Num 0.1) in
  let cats := default_to (categories opts) [] in
  let win := default_to (timeWindow opts) (Num 24) in
  let out := combineAndRankTrends Date_parse now userTrends globalTrends options in
  (forall trend : RankedTrend, In trend out ->
     (ageInHoursOf now (Date_parse (rt_timestamp trend)) <=? win)%js = true /\
     (exists t : Z,
         Date_parse (rt_timestamp trend) = Some t /\
         forall w : R, win = Num w -> ageHours now (IZR t) <= w) /\
     (overall (rt_score trend) >=? minS)%js = true /\
     (cats <> [] -> In (category_name (rt_category trend)) cats)) /\
  StronglySorted
    (fun a b => (overall (rt_score a) >=? overall (rt_score b))%js = true) out /\
  ((Num 0 <=? maxR)%js = true -> (Num (INR (length out)) <=? maxR)%js = true) /\
  (options = None \/ options = Some no_options ->
     maxR = Num 50 /\ minS = Num 0.1 /\ cats = [] /\ win = Num 24) /\
  combineAndRankTrends Date_parse now userTrends globalTrends None =
    combineAndRankTrends Date_parse now userTrends globalTrends (Some default_options).
Proof.
  intros opts maxR minS cats win out.
  destruct (combineAndRankTrends_prefix userTrends globalTrends options)
    as (k & Hout & Hk).
  fold opts minS cats win maxR in Hout, Hk. fold out in Hout.
  set (surv := survivors Date_parse now userTrends globalTrends minS cats win) in *.
  assert (forall trend, In trend out -> In trend surv) as Hsub.
  { intros trend Hin. rewrite Hout in Hin. apply In_prefix in Hin.
    eapply Permutation_in; [apply Array_sort_perm | exact Hin]. }
  split; [| split; [| split; [| split]]].
  - intros trend Hin. apply Hsub, survivors_spec in Hin.
    destruct Hin as (_ & Hwin & Hcat & Hscore).
    split; [exact Hwin |]. split; [now apply withinTimeWindow_finite |].
    split; [exact Hscore |].
    intros Hne. apply Array_includes_In. now apply Hcat.
  - rewrite Hout. apply StronglySorted_firstn.
    apply (Array_sort_sorted (fun t => overall (rt_score t))).
    apply List.Forall_forall. intros trend Hin.
    apply survivors_spec in Hin. destruct Hin as (_ & _ & _ & Hscore).
    unfold meetsMinScore, JS.ge in Hscore. eapply le_not_NaN_r, Hscore.
  - intros Hnonneg. specialize (Hk Hnonneg).
    eapply le_trans_js; [| exact Hk]. apply le_Num.
    rewrite Hout. apply le_INR, firstn_le_length.
  - intros [-> | ->]; repeat split.
  - reflexivity.
Qed.

End RankerContract.

Lemma ranking_output_contract_witness :
  (Num (INR (length (combineAndRankTrends ISO.parse now0 [user1] [global1; global2] None)))
     <=? Num 50)%js = true.
Proof.
  refine (proj1 (proj2 (proj2
    (ranking_output_contract ISO.parse now0 [user1] [global1; global2] None))) _).
  apply le_Num. lra.
Defined.


(* ===================================================================== *)
(** ** The ranker has no effect on its inputs *)
(* ===================================================================== *)

Section HeapClaims.

Local Abbreviation valueRanker := combineAndRankTrends.

Import Heap.

Variable Date_parse : string -> Date.
Variable now : Z.
Variable Number_toString : number -> string.

Lemma preserves_same (σ σ' : Store) :
  arrays σ' = arrays σ -> objects σ' = objects σ -> preserves σ σ'.
Proof. intros Ha Ho. split; [exact Ho |]. intros a l. now rewrite Ha. Qed.

(** The optional category filter. *)
Lemma category_step (categories : list string) (a : loc) (l : list loc)
    (ts : list RankedTrend) (σ : Store) :
  arrays σ !! a = Some l -> pointsTo σ l ts ->
  exists (a' : loc) (σ' : Store) (l' : list loc),
    (if (0 <? length categories)%nat
     then Array_filter
            (fun trend => t ← readObject trend; mret (inCategories categories t)) a
     else mret a) σ = Some (a', σ') /\
    arrays σ' !! a' = Some l' /\
    preserves σ σ' /\
    pointsTo σ' l'
      (if (0 <? length categories)%nat
       then List.filter (inCategories categories) ts else ts) /\
    incl l' l.
Proof.
  intros Ha Hpt. destruct (0 <? length categories)%nat.
  - destruct (Array_filter_spec (inCategories categories) a l ts σ Ha Hpt)
      as (a' & σ' & l' & Hrun & _ & Hlook & Hpres & Hpt' & Hincl).
    exists a', σ', l'. repeat split; try assumption; apply Hpres.
  - exists a, σ, l. repeat split; auto. apply incl_refl.
Qed.

(** C9: the call leaves both input arrays with the same elements in the
    same order, changes no trend object, and returns a new array each of
    whose elements is one of the input trend records; the returned records
    are the ones the value-level ranker selects. *)
Theorem ranker_leaves_inputs_untouched
    (σ : Store) (userTrends globalTrends : loc) (us gs : list loc)
    (uts gts : list RankedTrend) (options : option RankOptions) :
  arrays σ !! userTrends = Some us ->
  arrays σ !! globalTrends = Some gs ->
  pointsTo σ us uts ->
  pointsTo σ gs gts ->
  exists (out : loc) (σ' : Store) (outs : list loc),
    Heap.combineAndRankTrends Date_parse now Number_toString
      userTrends globalTrends options σ = Some (out, σ') /\
    arrays σ' !! userTrends = Some us /\
    arrays σ' !! globalTrends = Some gs /\
    preserves σ σ' /\
    arrays σ !! out = None /\
    arrays σ' !! out = Some outs /\
    incl outs (us ++ gs) /\
    pointsTo σ' outs (valueRanker Date_parse now uts gts options).
Proof.
  intros Hu Hg Hpu Hpg.
  unfold Heap.combineAndRankTrends, valueRanker.
  set (opts := default_to options no_options).
  set (maxR := default_to (maxResults opts) (Num 50)).
  set (minS := default_to (minScore opts) (Num 0.1)).
  set (cats := default_to (categories opts) []).
  set (win := default_to (timeWindow opts) (Num 24)).
  cbv zeta.
  rewrite (bind_Some _ _ _ _ _ (Array_length_Some _ _ _ Hu)).
  rewrite (bind_Some _ _ _ _ _ (Array_length_Some _ _ _ Hg)).
  (* first console line *)
  match goal with |- context [console_log ?s] =>
    destruct (console_log_spec s σ) as (σ1 & Hlog1 & Ha1 & Ho1) end.
  rewrite (bind_Some _ _ _ _ _ Hlog1).
  pose proof (preserves_same σ σ1 Ha1 Ho1) as P1.
  (* the spread *)
  assert (arrays σ1 !! userTrends = Some us) as Hu1 by (now apply P1).
  assert (arrays σ1 !! globalTrends = Some gs) as Hg1 by (now apply P1).
  destruct (newArray_spec (us ++ gs) σ1) as (all & σ2 & Hnew2 & _ & Hall & P12).
  assert (Array_spread2 userTrends globalTrends σ1 = Some (all, σ2)) as Hspread.
  { unfold Array_spread2.
    rewrite (bind_Some _ _ _ _ _ (readArray_Some _ _ _ Hu1)).
    now rewrite (bind_Some _ _ _ _ _ (readArray_Some _ _ _ Hg1)). }
  rewrite (bind_Some _ _ _ _ _ Hspread).
  pose proof (preserves_trans _ _ _ P1 P12) as P2.
  assert (pointsTo σ2 (us ++ gs) (uts ++ gts)) as Hp2.
  { eapply pointsTo_preserved; [apply P2 |]. now apply Forall2_app. }
  (* the three filters *)
  destruct (Array_filter_spec (withinTimeWindow Date_parse now win) all _ _ σ2 Hall Hp2)
    as (f1 & σ3 & l1 & Hrun3 & _ & Hl1 & P23 & Hp3 & Hi1).
  rewrite (bind_Some _ _ _ _ _ Hrun3).
  destruct (category_step cats f1 l1 _ σ3 Hl1 Hp3)
    as (f2 & σ4 & l2 & Hrun4 & Hl2 & P34 & Hp4 & Hi2).
  rewrite (bind_Some _ _ _ _ _ Hrun4).
  destruct (Array_filter_spec (meetsMinScore minS) f2 _ _ σ4 Hl2 Hp4)
    as (f3 & σ5 & l3 & Hrun5 & Hnew5 & Hl3 & P45 & Hp5 & Hi3).
  rewrite (bind_Some _ _ _ _ _ Hrun5).
  pose proof (preserves_trans _ _ _ P2 (preserves_trans _ _ _ P23 P34)) as P4.
  pose proof (preserves_trans _ _ _ P4 P45) as P5.
  pose proof (preserves_new _ _ _ P4 Hnew5) as Hnew5'.
  (* the sort, in place on the array of the last filter *)
  destruct (Array_sort_in_place_spec byOverallDesc f3 _ _ σ5 Hl3 Hp5)
    as (σ6 & r & Hrun6 & Ha6 & Ho6 & Hp6 & Hperm).
  rewrite (bind_Some _ _ _ _ _ Hrun6).
  assert (preserves σ σ6) as P6.
  { split; [rewrite Ho6; apply P5 |]. intros a l Hal. rewrite Ha6.
    rewrite lookup_insert_ne; [now apply P5 | congruence]. }
  assert (arrays σ6 !! f3 = Some r) as Hr6
    by (rewrite Ha6; apply lookup_insert_eq).
  rewrite (bind_Some _ _ _ _ _ (Array_length_Some _ _ _ Hr6)).
  (* second console line *)
  match goal with |- context [console_log ?s] =>
    destruct (console_log_spec s σ6) as (σ7 & Hlog7 & Ha7 & Ho7) end.
  rewrite (bind_Some _ _ _ _ _ Hlog7).
  pose proof (preserves_trans _ _ _ P6 (preserves_same σ6 σ7 Ha7 Ho7)) as P7.
  (* the slice *)
  destruct (newArray_spec (Array_slice r 0 maxR) σ7) as (out & σ8 & Hnew8 & Hfresh8 & Hout & P78).
  assert (Array_slice_new f3 0 maxR σ7 = Some (out, σ8)) as Hslice.
  { unfold Array_slice_new.
    assert (arrays σ7 !! f3 = Some r) as Hr7 by (now rewrite Ha7).
    now rewrite (bind_Some _ _ _ _ _ (readArray_Some _ _ _ Hr7)). }
  pose proof (preserves_trans _ _ _ P7 P78) as P8.
  exists out, σ8, (Array_slice r 0 maxR).
  split; [exact Hslice |].
  split; [now apply P8 |]. split; [now apply P8 |]. split; [exact P8 |].
  split; [exact (preserves_new _ _ _ P7 Hfresh8) |]. split; [exact Hout |].
  split.
  - intros o Ho. apply Array_slice_incl in Ho.
    apply (Permutation_in _ Hperm) in Ho. auto.
  - apply pointsTo_slice.
    eapply pointsTo_preserved; [| exact Hp6].
    destruct P78 as [-> _]. exact Ho7.
Qed.

End HeapClaims.

Lemma ranker_leaves_inputs_untouched_witness :
  exists (out : Heap.loc) (σ' : Heap.Store) (outs : list Heap.loc),
    Heap.combineAndRankTrends ISO.parse now0 print_integral 1%positive 2%positive None
      example_store = Some (out, σ') /\
    Heap.arrays σ' !! 1%positive = Some [10%positive] /\
    Heap.arrays σ' !! 2%positive = Some [11%positive; 12%positive] /\
    Heap.preserves example_store σ' /\
    Heap.arrays example_store !! out = None /\
    Heap.arrays σ' !! out = Some outs /\
    incl outs ([10%positive] ++ [11%positive; 12%positive]) /\
    Heap.pointsTo σ' outs
      (combineAndRankTrends ISO.parse now0 [user1] [global1; global2] None).
Proof.
  apply (ranker_leaves_inputs_untouched ISO.parse now0 print_integral example_store
           1%positive 2%positive [10%positive] [11%positive; 12%positive]
           [user1] [global1; global2] None).
  - reflexivity.
  - reflexivity.
  - repeat constructor.
  - repeat constructor.
Defined.

(* ===================================================================== *)
(** ** Properties of the video normalizer *)
(* ===================================================================== *)

Section ParseIntExamples.

Example parseInt_digits : ParseInt.parseIntZ "1234" = Some 1234%Z.
Proof. reflexivity. Qed.

Example parseInt_prefix : ParseInt.parseIntZ "12abc" = Some 12%Z.
Proof. reflexivity. Qed.

Example parseInt_grouped : ParseInt.parseIntZ "1,234" = Some 1%Z.
Proof. reflexivity. Qed.

Example parseInt_blank_sign : ParseInt.parseIntZ "  -7" = Some (-7)%Z.
Proof. reflexivity. Qed.

Example parseInt_hex : ParseInt.parseIntZ "0x1F" = Some 31%Z.
Proof. reflexivity. Qed.

Example parseInt_letters : ParseInt.parseIntZ "abc" = None.
Proof. reflexivity. Qed.

Example parseInt_empty : ParseInt.parseIntZ "" = None.
Proof. reflexivity. Qed.

End ParseIntExamples.

Section PlatformExamples.

Example iso_parse_now0 : ISO.parse "2026-11-01T00:00:00.000Z" = Some now0.
Proof. reflexivity. Qed.

Example iso_parse_no_millis : ISO.parse "2026-11-01T00:00:00Z" = Some now0.
Proof. reflexivity. Qed.

Example iso_format_now0 : ISO.format now0 = "2026-11-01T00:00:00.000Z"%string.
Proof. reflexivity. Qed.

Example iso_parse_garbage : ISO.parse "not-a-date" = None.
Proof. reflexivity. Qed.

(** A video without snippet and statistics becomes a candidate stamped with
    the clock, titled by the defaults, with all three counters 0. *)
Example bare_video_converted :
  let out := fst (convertYouTubeToRankedTrends ISO.parse ISO.format steady_clock
                    [bare_video] 0) in
  map rt_id out = ["yt_v0"%string] /\
  map rt_title out = ["Untitled Video"%string] /\
  map rt_source out = ["Unknown Channel"%string] /\
  map rt_timestamp out = ["2026-11-01T00:00:00.000Z"%string] /\
  map rt_url out = ["https://youtube.com/watch?v=v0"%string].
Proof. repeat split; lazy; reflexivity. Qed.

End PlatformExamples.

Section ParseIntFacts.

Ltac digit_split n d :=
  lazymatch n with
  | O => idtac
  | S ?k => destruct d as [| d]; [| digit_split k d]
  end.

Ltac digit_cases d := digit_split 10%nat d; [.. | exfalso; lia].

Lemma digitChar_props (d : nat) :
  d < 10 ->
  ParseInt.digitValue (digitChar d) = Some (Z.of_nat d) /\
  ParseInt.isStrWhiteSpace (digitChar d) = false /\
  (forall s, ParseInt.stripSign (digitChar d :: s) = (1%Z, digitChar d :: s)) /\
  (d <> 0 ->
   forall s, ParseInt.stripPrefix (digitChar d :: s) = (10%Z, digitChar d :: s)) /\
  (forall s, ParseInt.stripPrefix ("0"%char :: digitChar d :: s)
             = (10%Z, "0"%char :: digitChar d :: s)).
Proof.
  intros H. digit_cases d; repeat split; try reflexivity; intros Hz; congruence.
Qed.

Lemma readDigits_numeral (ds : list nat) (a : Z) :
  Forall (fun d => d < 10) ds ->
  ParseInt.readDigits 10 (map digitChar ds) (Some a) =
  Some (fold_left (fun acc d => (10 * acc + Z.of_nat d)%Z) ds a).
Proof.
  intros Hds. revert a. induction Hds as [| d ds Hd Hds IH]; intros a; [reflexivity |].
  cbn [map ParseInt.readDigits fold_left].
  destruct (digitChar_props d Hd) as (-> & _).
  assert ((Z.of_nat d <? 10)%Z = true) as -> by (apply Z.ltb_lt; lia).
  apply IH.
Qed.

(** [parseInt] reads a decimal numeral as the number it denotes. *)
Lemma parseInt_numeral (ds : list nat) :
  ds <> [] -> Forall (fun d => d < 10) ds ->
  ParseInt.parseIntZ (numeral ds) = Some (numeralValue ds).
Proof.
  intros Hne Hds. unfold ParseInt.parseIntZ, numeral.
  rewrite list_ascii_of_string_of_list_ascii.
  destruct Hds as [| d ds Hd Hds]; [contradiction |].
  assert (ParseInt.readDigits 10 (map digitChar (d :: ds)) None
          = Some (numeralValue (d :: ds))) as Hread.
  { cbn [map ParseInt.readDigits].
    destruct (digitChar_props d Hd) as (-> & _).
    assert ((Z.of_nat d <? 10)%Z = true) as -> by (apply Z.ltb_lt; lia).
    now rewrite readDigits_numeral. }
  destruct (digitChar_props d Hd) as (_ & Hsp & Hsign & Hpre & _).
  cbn [map] in *. cbn [ParseInt.trimStart]. rewrite Hsp, Hsign.
  assert (ParseInt.stripPrefix (digitChar d :: map digitChar ds)
          = (10%Z, digitChar d :: map digitChar ds)) as ->.
  { destruct d as [| d]; [| apply Hpre; lia].
    destruct Hds as [| d2 ds Hd2 Hds]; [reflexivity |].
    cbn [map]. apply (digitChar_props d2 Hd2). }
  rewrite Hread. f_equal. lia.
Qed.

Lemma numeral_nonempty (ds : list nat) : ds <> [] -> numeral ds <> ""%string.
Proof. destruct ds as [| d ds]; [contradiction | discriminate]. Qed.

Lemma numeralValue_nonneg (ds : list nat) : (0 <= numeralValue ds)%Z.
Proof.
  unfold numeralValue.
  assert (forall a : Z, (0 <= a)%Z ->
            (0 <= fold_left (fun acc d => (10 * acc + Z.of_nat d)%Z) ds a)%Z) as H.
  { induction ds as [| d ds IH]; intros a Ha; cbn [fold_left]; [exact Ha |].
    apply IH. lia. }
  apply H. lia.
Qed.

(** Below [2 ^ 53] in absolute value an integer is its own Number. *)
Lemma Number_ofInteger_exact (z : Z) :
  (Z.abs z < 2 ^ 53)%Z -> Number_ofInteger z = Num (IZR z).
Proof.
  intros Hz. unfold Number_ofInteger, nearestDouble.
  apply Z.ltb_lt in Hz. rewrite Hz. f_equal. f_equal. lia.
Qed.

(** From [2 ^ 53] on the integer read is rounded to a double, and past
    the largest double it is an infinity. *)
Example nearestDouble_rounds :
  nearestDouble 9007199254740993 = Some 9007199254740992%Z /\
  nearestDouble 9007199254740995 = Some 9007199254740996%Z /\
  nearestDouble (10 ^ 309) = None.
Proof. vm_compute. repeat split. Qed.

End ParseIntFacts.

Section ConverterClaims.

Variable Date_parse : string -> Date.
Variable Date_toISOString : Z -> string.
Variable clock : nat -> Z.

Lemma convertVideo_fields (video : YouTubeVideo) (k : nat) :
  let trend := fst (convertVideo Date_parse Date_toISOString clock video k) in
  rt_id trend = "yt_" +:+ yt_id video /\ rt_metrics trend = parsedMetrics video.
Proof.
  unfold convertVideo.
  destruct (yt_snippet video ≫= sn_publishedAt) as [s |]; [destruct (String.eqb s "") |];
    unfold calculateTrendScore_now, new_Date, mbind, Clock_bind, mret, Clock_ret;
    split; reflexivity.
Qed.

Lemma Array_mapM_Forall2 {A B : Type} (f : A -> Clock B) (P : A -> B -> Prop) :
  (forall x k, P x (fst (f x k))) ->
  forall xs k, Forall2 P xs (fst (Array_mapM f xs k)).
Proof.
  intros Hf. induction xs as [| x xs IH]; intros k; cbn [Array_mapM].
  - constructor.
  - unfold mbind, Clock_bind, mret, Clock_ret.
    pose proof (Hf x k) as Hx. destruct (f x k) as [y k1].
    pose proof (IH k1) as Hxs. destruct (Array_mapM f xs k1) as [ys k2].
    constructor; assumption.
Qed.

Lemma absent_counter_is_zero (c : option string) :
  c = None \/ c = Some ""%string -> parseInt (str_or c "0") = Num 0.
Proof. intros [-> | ->]; reflexivity. Qed.

Lemma numeral_counter_is_value (ds : list nat) :
  ds <> [] -> Forall (fun d => d < 10) ds ->
  parseInt (str_or (Some (numeral ds)) "0") = Number_ofInteger (numeralValue ds) /\
  ((numeralValue ds < 2 ^ 53)%Z ->
   parseInt (str_or (Some (numeral ds)) "0") = Num (IZR (numeralValue ds))).
Proof.
  intros Hne Hds. cbn [str_or].
  destruct (String.eqb_spec (numeral ds) "") as [He | _].
  - now apply numeral_nonempty in He.
  - unfold parseInt. rewrite parseInt_numeral by assumption.
    split; [reflexivity |]. intros Hsmall. apply Number_ofInteger_exact.
    pose proof (numeralValue_nonneg ds). lia.
Qed.

Lemma unreadable_counter_is_NaN (s : string) :
  s <> ""%string -> ParseInt.parseIntZ s = None ->
  parseInt (str_or (Some s) "0") = NaN.
Proof.
  intros Hne Hs. cbn [str_or]. destruct (String.eqb_spec s "") as [-> | _].
  - contradiction.
  - unfold parseInt. now rewrite Hs.
Qed.

Lemma converted_fields (videos : list YouTubeVideo) (k : nat) :
  Forall2 (fun video trend =>
             rt_id trend = "yt_" +:+ yt_id video /\
             rt_metrics trend = parsedMetrics video)
    videos
    (fst (convertYouTubeToRankedTrends Date_parse Date_toISOString clock videos k)).
Proof. apply Array_mapM_Forall2. intros video j. apply convertVideo_fields. Qed.

(** What the video normalizer makes of the counters: one candidate per
    video, in order, whose views, likes and comments are [parseInt] of the
    string counters, so a decimal numeral gives the double nearest to the
    number it denotes, which below [2 ^ 53] is the number itself; an absent
    or empty counter gives 0; any other counter in which [parseInt] finds
    no digit gives NaN in the candidate's metrics, which the scorer counts
    as 0.  Absent statistics never make the conversion fail. *)
Theorem youtube_metrics_parsed (videos : list YouTubeVideo) (k : nat) :
  let out := fst (convertYouTubeToRankedTrends Date_parse Date_toISOString clock videos k) in
  length out = length videos /\
  Forall2 (fun video trend =>
             rt_id trend = "yt_" +:+ yt_id video /\
             rt_metrics trend = parsedMetrics video) videos out /\
  (forall ds : list nat,
      ds <> [] -> Forall (fun d => d < 10) ds ->
      parseInt (str_or (Some (numeral ds)) "0") = Number_ofInteger (numeralValue ds) /\
      ((numeralValue ds < 2 ^ 53)%Z ->
       parseInt (str_or (Some (numeral ds)) "0") = Num (IZR (numeralValue ds)))) /\
  (forall c : option string,
      c = None \/ c = Some ""%string -> parseInt (str_or c "0") = Num 0) /\
  (forall s : string,
      s <> ""%string -> ParseInt.parseIntZ s = None ->
      parseInt (str_or (Some s) "0") = NaN /\
      num_or (Some (parseInt (str_or (Some s) "0"))) (Num 0) = Num 0).
Proof.
  intros out.
  pose proof (converted_fields videos k) as HF. fold out in HF.
  split; [symmetry; eapply Forall2_length; exact HF |].
  split; [exact HF |]. split; [exact numeral_counter_is_value |].
  split; [exact absent_counter_is_zero |].
  intros s Hne Hs. rewrite (unreadable_counter_is_NaN s Hne Hs). split; reflexivity.
Qed.

End ConverterClaims.

Lemma youtube_metrics_parsed_witness :
  parseInt (str_or (yt_statistics bare_video ≫= viewCount) "0") = Num 0 /\
  parseInt (str_or (Some "abc"%string) "0") = NaN.
Proof.
  split.
  - refine (proj1 (proj2 (proj2 (proj2
      (youtube_metrics_parsed ISO.parse ISO.format steady_clock [bare_video] 0)))) _ _).
    left. reflexivity.
  - refine (proj1 (proj2 (proj2 (proj2 (proj2
      (youtube_metrics_parsed ISO.parse ISO.format steady_clock [bare_video] 0)))) _ _ _)).
    + discriminate.
    + reflexivity.
Defined.

(** C7: a malformed counter does not default to 0.  The default ['0'] of
    [parseInt(x || '0')] stands in for an absent or empty counter only; for
    the video whose view counter is ["abc"] the views stored in the
    candidate are NaN, where the claim says 0 and where the [|| 0] of the
    tweet normalizer would give 0. *)
Theorem malformed_counter_becomes_NaN :
  let out := fst (convertYouTubeToRankedTrends ISO.parse ISO.format steady_clock
                    [malformed_video] 0) in
  map (fun trend => views (rt_metrics trend)) out = [Some NaN] /\
  map (fun trend => views (rt_metrics trend)) out <> [Some (Num 0)] /\
  num_or (Some (parseInt "abc")) (Num 0) = Num 0.
Proof.
  pose proof (converted_fields ISO.parse ISO.format steady_clock [malformed_video] 0)
    as HF.
  cbv zeta.
  destruct (fst (convertYouTubeToRankedTrends ISO.parse ISO.format steady_clock
                   [malformed_video] 0)) as [| trend rest].
  - inversion HF.
  - inversion HF as [| ? ? ? ? [_ Hm] Hrest]; subst. inversion Hrest; subst.
    cbn [map]. rewrite Hm. cbn [views parsedMetrics].
    assert (parseInt (str_or (yt_statistics malformed_video ≫= viewCount) "0") = NaN)
      as -> by reflexivity.
    split; [reflexivity |]. split; [discriminate | reflexivity].
Qed.
(* ===================================================================== *)
(** ** Properties of the topic extraction *)
(* ===================================================================== *)

Section TopicFacts.

Import Text.

Lemma lowerChar_keeps_marker (m c : ascii) :
  m = "#"%char \/ m = "@"%char ->
  Ascii.eqb (lowerChar c) m = Ascii.eqb c m.
Proof.
  intros [-> | ->]; destruct c as [[] [] [] [] [] [] [] []]; reflexivity.
Qed.

Lemma upper_lowers_to_no_marker (m c : ascii) :
  m = "#"%char \/ m = "@"%char ->
  isUpper c = true -> Ascii.eqb (lowerChar c) m = false.
Proof.
  intros [-> | ->]; destruct c as [[] [] [] [] [] [] [] []]; intros H;
    first [reflexivity | discriminate H].
Qed.

Lemma startsWith_toLowerCase (m : ascii) (t : string) :
  m = "#"%char \/ m = "@"%char ->
  startsWith (toLowerCase t) m = startsWith t m.
Proof.
  intros Hm. destruct t as [| c t]; [reflexivity |].
  cbn [toLowerCase startsWith]. now apply lowerChar_keeps_marker.
Qed.

Lemma emit_starts (marker : ascii) (cur : option (list ascii)) :
  (forall tok, cur = Some tok -> exists tl, tok = marker :: tl) ->
  Forall (fun t => startsWith t marker = true) (emit cur).
Proof.
  intros Hcur. destruct cur as [[| m [| w tok]] |]; cbn [emit]; try constructor.
  - destruct (Hcur _ eq_refl) as (tl & Htl). injection Htl as -> _.
    cbn. apply Ascii.eqb_refl.
  - constructor.
Qed.

Lemma scanTagged_starts (marker : ascii) (s : list ascii) :
  forall cur : option (list ascii),
    (forall tok, cur = Some tok -> exists tl, tok = marker :: tl) ->
    Forall (fun t => startsWith t marker = true) (scanTagged marker cur s).
Proof.
  assert (forall c tok, start marker c = Some tok -> exists tl, tok = marker :: tl)
    as Hstart.
  { intros c tok. unfold start. destruct (Ascii.eqb c marker); [| discriminate].
    intros [= <-]. now exists []. }
  induction s as [| c s IH]; intros cur Hcur; cbn [scanTagged].
  - now apply emit_starts.
  - destruct cur as [tok |].
    + destruct (isWordChar c).
      * apply IH. intros tok' [= <-].
        destruct (Hcur _ eq_refl) as (tl & ->). now exists (tl ++ [c]).
      * apply Forall_app. split; [now apply emit_starts |].
        apply IH, Hstart.
    + apply IH, Hstart.
Qed.

Lemma matchTagged_starts (marker : ascii) (content : string) :
  Forall (fun t => startsWith t marker = true) (matchTagged marker content).
Proof. apply scanTagged_starts. intros tok. discriminate. Qed.

Lemma capitalised_upper (s w r : list ascii) :
  capitalised s = Some (w, r) -> exists c tl, w = c :: tl /\ isUpper c = true.
Proof.
  destruct s as [| c rest]; cbn [capitalised]; [discriminate |].
  destruct (isUpper c) eqn:Hc; [| discriminate].
  destruct (spanLower rest) as [[| l w'] r']; [discriminate |].
  intros [= <- <-]. now exists c, (l :: w').
Qed.

Lemma phraseAt_upper (prev : option ascii) (s m : list ascii) :
  phraseAt prev s = Some m -> exists c tl, m = c :: tl /\ isUpper c = true.
Proof.
  unfold phraseAt. destruct (wordAt prev); [discriminate |].
  destruct (capitalised s) as [[w1 r1] |] eqn:Hcap; [| discriminate].
  destruct (capitalised_upper _ _ _ Hcap) as (c & tl & -> & Hc).
  destruct r1 as [| sp r1]; [discriminate |].
  destruct (Ascii.eqb_spec sp " "%char) as [-> | Hne].
  - destruct (capitalised r1) as [[w2 r2] |]; [| discriminate].
    destruct (wordAt (head r2)); [discriminate |].
    intros [= <-]. now exists c, (tl ++ " "%char :: w2).
  - destruct sp as [[] [] [] [] [] [] [] []]; try discriminate.
    now contradiction Hne.
Qed.

Lemma phrasesFrom_no_marker (m : ascii) (s : list ascii) :
  m = "#"%char \/ m = "@"%char ->
  forall (prev : option ascii) (skip : nat),
    Forall (fun t => startsWith (toLowerCase t) m = false) (phrasesFrom prev skip s).
Proof.
  intros Hm. induction s as [| c s IH]; intros prev skip; cbn [phrasesFrom];
    [constructor |].
  destruct skip as [| k]; [| apply IH].
  destruct (phraseAt prev (c :: s)) as [ph |] eqn:Hph; [| apply IH].
  constructor; [| apply IH].
  destruct (phraseAt_upper _ _ _ Hph) as (u & tl & -> & Hu).
  cbn [string_of_list_ascii toLowerCase startsWith].
  now apply upper_lowers_to_no_marker.
Qed.

Lemma keywords_no_marker :
  forallb (fun k => negb (startsWith k "#") && negb (startsWith k "@"))
    trendingKeywords = true.
Proof. vm_compute. reflexivity. Qed.

Lemma keyword_loop_trends (content : string) (keywords : list string) :
  forall (st : gmap string nat * list string) (t : string),
    In t (snd (fold_left (scoreKeyword content) keywords st)) ->
    In t (snd st) \/ In t keywords.
Proof.
  induction keywords as [| k ks IH]; intros st t; cbn [fold_left]; [auto |].
  intros Hin. apply IH in Hin as [Hin | Hin]; [| right; now right].
  unfold scoreKeyword in Hin. destruct (0 <? countKeyword k content)%nat; [| auto].
  cbn [snd] in Hin. apply in_app_or in Hin as [Hin | [<- | []]]; [auto |].
  right. now left.
Qed.

Lemma keyword_loop_keeps (content : string) (keywords : list string) :
  forall (st : gmap string nat * list string) (t : string),
    In t (snd st) -> In t (snd (fold_left (scoreKeyword content) keywords st)).
Proof.
  induction keywords as [| k ks IH]; intros st t Hin; cbn [fold_left]; [exact Hin |].
  apply IH. unfold scoreKeyword. destruct (0 <? countKeyword k content)%nat; [| exact Hin].
  cbn [snd]. apply in_or_app. now left.
Qed.

Lemma slice_int_firstn {A : Type} (l : list A) (n : nat) :
  slice_int l 0 (Z.of_nat n) = firstn n l.
Proof.
  unfold slice_int. cbn [Z.ltb Z.compare].
  assert ((Z.of_nat n <? 0)%Z = false) as -> by (apply Z.ltb_ge; lia).
  rewrite (Z.min_l 0) by lia. cbn [Z.to_nat skipn]. rewrite Z.sub_0_r.
  destruct (Nat.le_ge_cases n (length l)) as [Hle | Hge].
  - rewrite Z.min_l by lia. now rewrite Nat2Z.id.
  - rewrite Z.min_r by lia. rewrite Nat2Z.id.
    rewrite firstn_all. symmetry. apply firstn_all2. exact Hge.
Qed.

Lemma dedupe_from_In (xs seen : list string) (t : string) :
  In t (dedupe_from seen xs) <-> In t xs /\ ~ In t seen.
Proof.
  revert seen. induction xs as [| x xs IH]; intros seen; cbn [dedupe_from].
  - cbn. tauto.
  - destruct (existsb (String.eqb x) seen) eqn:E.
    + apply existsb_exists in E as (y & Hy & Heq). apply String.eqb_eq in Heq. subst y.
      rewrite IH. cbn. split; [tauto |]. intros [[<- | Hin] Hn]; tauto.
    + assert (~ In x seen) as Hx.
      { intros Hin. assert (existsb (String.eqb x) seen = true) as E'.
        { apply existsb_exists. exists x. split; [exact Hin | apply String.eqb_refl]. }
        congruence. }
      cbn [In]. rewrite IH. cbn [In]. split.
      * intros [<- | [Hin Hn]]; [tauto |]. split; [tauto |]. tauto.
      * intros [[<- | Hin] Hn]; [tauto |].
        destruct (String.eqb_spec x t) as [-> | Hne]; [tauto |]. right. tauto.
Qed.

Lemma dedupe_In (xs : list string) (t : string) : In t (dedupe xs) <-> In t xs.
Proof. unfold dedupe. rewrite dedupe_from_In. cbn. tauto. Qed.

Lemma sort_insertZ_perm {A : Type} (cmp : A -> A -> Z) (x : A) (l : list A) :
  Permutation (sort_insertZ cmp x l) (x :: l).
Proof.
  induction l as [| y l IH]; cbn [sort_insertZ]; [reflexivity |].
  destruct (0 <? cmp y x)%Z; [reflexivity |].
  rewrite IH. apply perm_swap.
Qed.

Lemma Array_sortZ_perm {A : Type} (cmp : A -> A -> Z) (l : list A) :
  Permutation (Array_sortZ cmp l) l.
Proof.
  unfold Array_sortZ.
  assert (forall acc, Permutation
            (fold_left (fun acc x => sort_insertZ cmp x acc) l acc) (acc ++ l)) as H.
  { induction l as [| x l IH]; intros acc; cbn [fold_left].
    - now rewrite app_nil_r.
    - rewrite IH, sort_insertZ_perm. apply (Permutation_middle acc l x). }
  apply (H []).
Qed.

End TopicFacts.

Section TopicClaims.

Import Text.

Example sample_post_topics :
  extractTrendingTopics sample_post
  = ["#ai"; "#machinelearning"; "@openai"; "machine learning"; "openai";
     "trending"]%string.
Proof. vm_compute. reflexivity. Qed.

Example seven_mentions :
  extractTrendingTopics "@a @b @c @d @e @f @g" = ["@a"; "@b"; "@c"; "@d"; "@e"]%string.
Proof. vm_compute. reflexivity. Qed.

Example hashtag_tokens :
  matchTagged "#" "##tag #a#b # #_x1 x#y" = ["#tag"; "#a"; "#b"; "#_x1"; "#y"]%string.
Proof. vm_compute. reflexivity. Qed.

Example keyword_count : countKeyword "go" "go Go gopher ago go. go_go go" = 4%nat.
Proof. vm_compute. reflexivity. Qed.

Example phrase_tokens :
  matchPhrases "Sam Altman said New YorkCity and New York. Big Apple Pie AbC Def"
  = ["Sam Altman"; "New York"; "Big Apple"]%string.
Proof. vm_compute. reflexivity. Qed.

Lemma collectTrends_snd (content : string) :
  exists (scores : gmap string nat) (kept : list string),
    fold_left (scoreKeyword content) trendingKeywords
      (∅, map toLowerCase (matchTagged "#" content) ++
          map toLowerCase (firstn 5 (matchTagged "@" content))) = (scores, kept) /\
    collectTrends content =
      (scores, kept ++ map toLowerCase (firstn 10 (matchPhrases content))).
Proof.
  unfold collectTrends.
  change 5%Z with (Z.of_nat 5). change 10%Z with (Z.of_nat 10).
  rewrite !slice_int_firstn.
  destruct (fold_left (scoreKeyword content) trendingKeywords _) as [scores kept].
  now exists scores, kept.
Qed.

Lemma extractTrendingTopics_firstn (content : string) :
  extractTrendingTopics content =
  firstn 15
    (Array_sortZ
       (fun a b => (relevance (fst (collectTrends content)) b -
                    relevance (fst (collectTrends content)) a)%Z)
       (dedupe (snd (collectTrends content)))).
Proof.
  unfold extractTrendingTopics. destruct (collectTrends content) as [scores trends].
  change 15%Z with (Z.of_nat 15). now rewrite slice_int_firstn.
Qed.

Lemma startsWith_unique (t : string) (a b : ascii) :
  startsWith t a = true -> startsWith t b = true -> a = b.
Proof.
  destruct t as [| c t]; cbn [startsWith]; [discriminate |].
  intros Ha Hb. apply Ascii.eqb_eq in Ha, Hb. congruence.
Qed.

Lemma lowered_tag_starts (m : ascii) (l : list string) (t : string) :
  m = "#"%char \/ m = "@"%char ->
  Forall (fun t => startsWith t m = true) l ->
  In t (map toLowerCase l) -> startsWith t m = true.
Proof.
  intros Hm Hl Hin. apply in_map_iff in Hin as (t0 & <- & Hin).
  rewrite startsWith_toLowerCase by exact Hm.
  rewrite List.Forall_forall in Hl. now apply Hl.
Qed.

(** Where an entry of the collected list can come from. *)
Lemma collected_origin (content : string) (t : string) :
  In t (snd (collectTrends content)) ->
  In t (map toLowerCase (matchTagged "#" content)) \/
  In t (map toLowerCase (firstn 5 (matchTagged "@" content))) \/
  In t trendingKeywords \/
  In t (map toLowerCase (firstn 10 (matchPhrases content))).
Proof.
  destruct (collectTrends_snd content) as (scores & kept & Hfold & ->).
  cbn [snd]. intros Hin. apply in_app_or in Hin as [Hin | Hin]; [| auto].
  pose proof (keyword_loop_trends content trendingKeywords
                (∅, map toLowerCase (matchTagged "#" content) ++
                    map toLowerCase (firstn 5 (matchTagged "@" content))) t) as Hloop.
  rewrite Hfold in Hloop. cbn [snd] in Hloop.
  apply Hloop in Hin as [Hin | Hin]; [| auto].
  apply in_app_or in Hin as [Hin | Hin]; auto.
Qed.

Lemma collected_tags (content : string) (t : string) :
  In t (map toLowerCase (matchTagged "#" content)) \/
  In t (map toLowerCase (firstn 5 (matchTagged "@" content))) ->
  In t (snd (collectTrends content)).
Proof.
  destruct (collectTrends_snd content) as (scores & kept & Hfold & ->).
  cbn [snd]. intros Hin. apply in_or_app. left.
  pose proof (keyword_loop_keeps content trendingKeywords
                (∅, map toLowerCase (matchTagged "#" content) ++
                    map toLowerCase (firstn 5 (matchTagged "@" content))) t) as Hloop.
  rewrite Hfold in Hloop. cbn [snd] in Hloop. apply Hloop.
  apply in_or_app. tauto.
Qed.

Lemma marked_entry_is_tag (content : string) (m : ascii) (t : string) :
  m = "#"%char \/ m = "@"%char ->
  In t trendingKeywords \/
  In t (map toLowerCase (firstn 10 (matchPhrases content))) ->
  startsWith t m = false.
Proof.
  intros Hm [Hin | Hin].
  - pose proof keywords_no_marker as Hk. rewrite forallb_forall in Hk.
    specialize (Hk t Hin). apply andb_true_iff in Hk as [H1 H2].
    apply negb_true_iff in H1, H2. now destruct Hm as [-> | ->].
  - apply in_map_iff in Hin as (p & <- & Hin). apply In_prefix in Hin.
    pose proof (phrasesFrom_no_marker m (list_ascii_of_string content) Hm None O) as Hp.
    rewrite List.Forall_forall in Hp. now apply Hp.
Qed.

(** C8, as amended: every [#word] token of the text and the first five
    [@word] tokens, lower-cased, enter the list of candidate topics; the
    result holds at most 15 of the candidates (the first 15 in the order of
    relevance, duplicates removed), so a hashtag can be left out; every
    returned entry that starts with [#] is a lower-cased hashtag token of
    the text and every returned entry that starts with [@] is one of the
    first five mention tokens, lower-cased; when there are at most 15
    different candidates, all of them are returned. *)
Theorem topics_keep_tags_and_mentions (content : string) :
  let hashtags := map toLowerCase (matchTagged "#" content) in
  let mentions := map toLowerCase (firstn 5 (matchTagged "@" content)) in
  let candidates := dedupe (snd (collectTrends content)) in
  let out := extractTrendingTopics content in
  (length out <= 15)%nat /\
  (forall t, In t hashtags -> In t candidates /\ startsWith t "#" = true) /\
  (forall t, In t mentions -> In t candidates /\ startsWith t "@" = true) /\
  (forall t, In t out -> In t candidates) /\
  (forall t, In t out -> startsWith t "#" = true -> In t hashtags) /\
  (forall t, In t out -> startsWith t "@" = true -> In t mentions) /\
  ((length candidates <= 15)%nat -> forall t, In t candidates -> In t out).
Proof.
  intros hashtags mentions candidates out.
  assert (forall t, In t hashtags -> startsWith t "#" = true) as Hhash.
  { intros t. apply lowered_tag_starts; [now left | apply matchTagged_starts]. }
  assert (forall t, In t mentions -> startsWith t "@" = true) as Hment.
  { intros t. apply lowered_tag_starts; [now right |].
    apply List.Forall_forall. intros x Hx. apply In_prefix in Hx.
    pose proof (matchTagged_starts "@" content) as Hall.
    rewrite List.Forall_forall in Hall. now apply Hall. }
  assert (forall t, In t out -> In t candidates) as Hsub.
  { intros t Hin. unfold out in Hin. rewrite extractTrendingTopics_firstn in Hin.
    apply In_prefix in Hin. eapply Permutation_in; [apply Array_sortZ_perm | exact Hin]. }
  split; [| split; [| split; [| split; [| split; [| split]]]]].
  - unfold out. rewrite extractTrendingTopics_firstn. apply firstn_le_length.
  - intros t Hin. split; [| now apply Hhash].
    apply dedupe_In, collected_tags. now left.
  - intros t Hin. split; [| now apply Hment].
    apply dedupe_In, collected_tags. now right.
  - exact Hsub.
  - intros t Hin Hst. apply Hsub, dedupe_In, collected_origin in Hin.
    destruct Hin as [Hin | [Hin | Hin]]; [exact Hin | |].
    + apply Hment in Hin. pose proof (startsWith_unique _ _ _ Hst Hin). discriminate.
    + rewrite (marked_entry_is_tag content "#" t) in Hst; [discriminate | now left | exact Hin].
  - intros t Hin Hst. apply Hsub, dedupe_In, collected_origin in Hin.
    destruct Hin as [Hin | [Hin | Hin]]; [| exact Hin |].
    + apply Hhash in Hin. pose proof (startsWith_unique _ _ _ Hst Hin). discriminate.
    + rewrite (marked_entry_is_tag content "@" t) in Hst; [discriminate | now right | exact Hin].
  - intros Hlen t Hin. unfold out. rewrite extractTrendingTopics_firstn.
    rewrite firstn_all2.
    + eapply Permutation_in; [symmetry; apply Array_sortZ_perm | exact Hin].
    + erewrite Permutation_length; [exact Hlen | apply Array_sortZ_perm].
Qed.

Lemma topics_keep_tags_and_mentions_witness :
  In "#machinelearning"%string (extractTrendingTopics sample_post) /\
  In "@openai"%string (extractTrendingTopics sample_post).
Proof.
  pose proof (topics_keep_tags_and_mentions sample_post)
    as (_ & Hhash & Hment & _ & _ & _ & Hall).
  assert (length (dedupe (snd (collectTrends sample_post))) <= 15)%nat as Hlen
    by (vm_compute; lia).
  split.
  - apply (Hall Hlen). apply Hhash. vm_compute. tauto.
  - apply (Hall Hlen). apply Hment. vm_compute. tauto.
Defined.

(** C8, the input that breaks it: of sixteen different hashtags the last
    one does not reach the result. *)
Lemma sixteenth_hashtag_left_out :
  In "#t16"%string (map toLowerCase (matchTagged "#" sixteen_hashtags)) /\
  ~ In "#t16"%string (extractTrendingTopics sixteen_hashtags).
Proof.
  split.
  - vm_compute. tauto.
  - vm_compute. intuition discriminate.
Qed.

End TopicClaims.

(* ===================================================================== *)
(** ** Facts about the string built-ins *)
(* ===================================================================== *)

Section StringFacts.

Import Str.

Lemma isPrefixOf_spec (p s : list ascii) :
  isPrefixOf p s = true <-> exists b, s = p ++ b.
Proof.
  revert s. induction p as [| a p IH]; intros s; cbn [isPrefixOf].
  - split; [intros _; now exists s | reflexivity].
  - destruct s as [| c s].
    + split; [discriminate | intros (b & Hb); discriminate].
    + rewrite andb_true_iff, IH. split.
      * intros (Hac & b & ->). apply Ascii.eqb_eq in Hac. subst c. now exists b.
      * intros (b & [= -> ->]). split; [apply Ascii.eqb_refl | now exists b].
Qed.

Lemma includesL_spec (s p : list ascii) :
  includesL s p = true <-> exists a b, s = a ++ p ++ b.
Proof.
  induction s as [| c s IH]; cbn [includesL]; rewrite orb_true_iff, isPrefixOf_spec.
  - split.
    + intros [(b & Hb) | Hf]; [now exists [], b | discriminate].
    + intros (a & b & Hab). left. destruct a; [now exists b | discriminate].
  - rewrite IH. split.
    + intros [(b & Hb) | (a & b & ->)]; [now exists [], b | now exists (c :: a), b].
    + intros ([| x a] & b & Hab); [left; now exists b |].
      injection Hab as -> ->. right. now exists a, b.
Qed.

Lemma includesL_app_l (a b p : list ascii) :
  includesL a p = true -> includesL (a ++ b) p = true.
Proof.
  rewrite !includesL_spec. intros (x & y & ->). exists x, (y ++ b).
  now rewrite <- !app_assoc.
Qed.

Lemma includesL_app_r (a b p : list ascii) :
  includesL b p = true -> includesL (a ++ b) p = true.
Proof.
  rewrite !includesL_spec. intros (x & y & ->). exists (a ++ x), y.
  now rewrite <- !app_assoc.
Qed.

(** A pattern cannot reach across a character it does not contain. *)
Lemma isPrefixOf_sep (p a b : list ascii) (c : ascii) :
  ~ In c p -> isPrefixOf p (a ++ c :: b) = isPrefixOf p a.
Proof.
  revert a. induction p as [| x p IH]; intros a Hc; [reflexivity |].
  destruct a as [| y a]; cbn [app isPrefixOf].
  - destruct (Ascii.eqb_spec x c) as [-> | _]; [| reflexivity].
    exfalso. apply Hc. now left.
  - rewrite IH; [reflexivity |]. intros Hin. apply Hc. now right.
Qed.

Lemma includesL_sep (p a b : list ascii) (c : ascii) :
  p <> [] -> ~ In c p ->
  includesL (a ++ c :: b) p = includesL a p || includesL b p.
Proof.
  intros Hne Hc. induction a as [| y a IH].
  - pose proof (isPrefixOf_sep p [] b c Hc) as Hpre. cbn [app] in Hpre.
    cbn [app includesL]. rewrite Hpre.
    destruct p as [| x p]; [contradiction | reflexivity].
  - pose proof (isPrefixOf_sep p (y :: a) b c Hc) as Hpre. cbn [app] in Hpre.
    cbn [app includesL]. rewrite IH, Hpre. now rewrite orb_assoc.
Qed.

Lemma toLowerCase_list (s : string) :
  list_ascii_of_string (Text.toLowerCase s)
  = map Text.lowerChar (list_ascii_of_string s).
Proof. induction s as [| c s IH]; simpl; [reflexivity | now rewrite IH]. Qed.

Lemma toLowerCase_app (s t : string) :
  Text.toLowerCase (s +:+ t) = Text.toLowerCase s +:+ Text.toLowerCase t.
Proof. induction s as [| c s IH]; simpl; [reflexivity | now rewrite IH]. Qed.

Lemma lowerChar_idem (c : ascii) : Text.lowerChar (Text.lowerChar c) = Text.lowerChar c.
Proof. destruct c as [[] [] [] [] [] [] [] []]; reflexivity. Qed.

Lemma toLowerCase_idem (s : string) :
  Text.toLowerCase (Text.toLowerCase s) = Text.toLowerCase s.
Proof.
  induction s as [| c s IH]; cbn; [reflexivity |]. now rewrite lowerChar_idem, IH.
Qed.

Lemma list_ascii_app (s t : string) :
  list_ascii_of_string (s +:+ t) = list_ascii_of_string s ++ list_ascii_of_string t.
Proof. induction s as [| c s IH]; simpl; [reflexivity | now rewrite IH]. Qed.

Lemma includes_app_l (s t p : string) :
  includes s p = true -> includes (s +:+ t) p = true.
Proof. unfold includes. rewrite list_ascii_app. apply includesL_app_l. Qed.

Lemma includes_app_r (s t p : string) :
  includes t p = true -> includes (s +:+ t) p = true.
Proof. unfold includes. rewrite list_ascii_app. apply includesL_app_r. Qed.

(** Splitting at white space loses no occurrence of a pattern that has no
    white space in it. *)
Lemma fields_includes (p : list ascii) (s : list ascii) :
  p <> [] -> Forall (fun c => ParseInt.isStrWhiteSpace c = false) p ->
  forall (cur : list ascii) (inrun : bool),
    (inrun = true -> cur = []) ->
    existsb (fun w => includesL (list_ascii_of_string w) p) (fields cur inrun s)
    = includesL (cur ++ s) p.
Proof.
  intros Hne Hp. induction s as [| c s IH]; intros cur inrun Hrun; cbn [fields].
  - cbn [existsb]. rewrite list_ascii_of_string_of_list_ascii, app_nil_r.
    apply orb_false_r.
  - destruct (ParseInt.isStrWhiteSpace c) eqn:Hc.
    + assert (~ In c p) as Hnotin.
      { intros Hin. rewrite List.Forall_forall in Hp. apply Hp in Hin. congruence. }
      rewrite (includesL_sep p cur s c Hne Hnotin).
      destruct inrun.
      * rewrite (Hrun eq_refl), (IH [] true) by reflexivity.
        cbn [app]. destruct p as [| x p]; [contradiction | reflexivity].
      * cbn [existsb]. rewrite list_ascii_of_string_of_list_ascii.
        now rewrite (IH [] true) by reflexivity.
    + rewrite (IH (cur ++ [c]) false) by discriminate.
      now rewrite <- app_assoc.
Qed.

Lemma splitWhitespace_includes (s p : string) :
  p <> ""%string ->
  forallb (fun c => negb (ParseInt.isStrWhiteSpace c)) (list_ascii_of_string p) = true ->
  existsb (fun w => includes w p) (splitWhitespace s) = includes s p.
Proof.
  intros Hne Hp. unfold splitWhitespace, includes.
  apply (fields_includes (list_ascii_of_string p) (list_ascii_of_string s)).
  - destruct p; [contradiction | discriminate].
  - apply List.Forall_forall. intros c Hin. rewrite forallb_forall in Hp.
    apply Hp in Hin. now apply negb_true_iff.
  - discriminate.
Qed.

Lemma filter_sublist {A : Type} (f : A -> bool) (l : list A) :
  sublist (List.filter f l) l.
Proof.
  induction l as [| x l IH]; cbn [List.filter]; [constructor |].
  destruct (f x); [now apply sublist_skip | now apply sublist_cons].
Qed.

End StringFacts.

(* ===================================================================== *)
(** ** Properties of the categorizer and the tagger *)
(* ===================================================================== *)

Section TaggerProps.

Import Str.

Lemma squeezed_keywords_plain :
  forallb (fun k =>
             negb (String.eqb (replace k " " "") "") &&
             forallb (fun c => negb (ParseInt.isStrWhiteSpace c))
               (list_ascii_of_string (replace k " " "")))
    techKeywords = true.
Proof. vm_compute. reflexivity. Qed.

Lemma tag_test_by_substring (content keyword : string) :
  In keyword techKeywords ->
  existsb (fun word => includes word (replace keyword " " ""))
    (splitWhitespace (Text.toLowerCase content))
  = includes (Text.toLowerCase content) (replace keyword " " "").
Proof.
  intros Hin. pose proof squeezed_keywords_plain as Hall.
  rewrite forallb_forall in Hall. specialize (Hall keyword Hin).
  apply andb_true_iff in Hall as [Hne Hplain].
  apply splitWhitespace_includes; [| exact Hplain].
  intros Heq. rewrite Heq in Hne. discriminate.
Qed.

(** X1: the tagger returns at most five tags, all taken from its keyword
    table, in the order of the table and without repetition. *)
Theorem tags_from_vocabulary (content : string) :
  (length (extractTagsFromContent content) <= 5)%nat /\
  sublist (extractTagsFromContent content) techKeywords /\
  NoDup (extractTagsFromContent content).
Proof.
  unfold extractTagsFromContent. change 5%Z with (Z.of_nat 5).
  rewrite slice_int_firstn.
  assert (sublist
            (firstn 5 (List.filter
               (fun keyword =>
                  existsb (fun word => includes word (replace keyword " " ""))
                    (splitWhitespace (Text.toLowerCase content))) techKeywords))
            techKeywords) as Hsub.
  { etransitivity; [apply sublist_take | apply filter_sublist]. }
  split; [apply firstn_le_length |]. split; [exact Hsub |].
  eapply sublist_NoDup; [| exact Hsub].
  apply (bool_decide_unpack _). vm_compute. reflexivity.
Qed.

(** X2: the split into words does not matter: a keyword is kept exactly
    when the lower-cased content contains the keyword with its first space
    removed, and the first five such keywords are returned; so the tag
    "machine learning" needs the text "machinelearning". *)
Theorem tags_by_substring (content : string) :
  extractTagsFromContent content
  = firstn 5
      (List.filter
         (fun keyword =>
            includes (Text.toLowerCase content) (replace keyword " " ""))
         techKeywords) /\
  (In "machine learning"%string (extractTagsFromContent content) ->
   includes (Text.toLowerCase content) "machinelearning" = true).
Proof.
  assert (extractTagsFromContent content
          = firstn 5
              (List.filter
                 (fun keyword =>
                    includes (Text.toLowerCase content) (replace keyword " " ""))
                 techKeywords)) as Heq.
  { unfold extractTagsFromContent. change 5%Z with (Z.of_nat 5).
    rewrite slice_int_firstn. f_equal. apply filter_ext_in.
    intros keyword Hin. now apply tag_test_by_substring. }
  split; [exact Heq |].
  rewrite Heq. intros Hin. apply In_prefix, filter_In in Hin as [_ Hin].
  exact Hin.
Qed.

Lemma tags_by_substring_witness :
  includes (Text.toLowerCase "Machinelearning on AWS") "machinelearning" = true.
Proof.
  apply (proj2 (tags_by_substring "Machinelearning on AWS")).
  vm_compute. tauto.
Defined.

Example spaced_phrase_is_not_tagged :
  extractTagsFromContent "Machine Learning beats everything" = [].
Proof. vm_compute. reflexivity. Qed.

Example tags_of_a_post :
  extractTagsFromContent
    "We love AI and machinelearning on AWS with React.js; the startup, crypto."
  = ["ai"; "machine learning"; "crypto"; "startup"; "aws"]%string.
Proof. vm_compute. reflexivity. Qed.

Lemma categorize_text (content title : string) :
  Text.toLowerCase (content +:+ " " +:+ title)
  = Text.toLowerCase content +:+ " " +:+ Text.toLowerCase title.
Proof. now rewrite !toLowerCase_app. Qed.

(** The category does not depend on letter case: two contents and two
    titles that differ in case only get the same category. *)
Theorem categorize_ignores_case (content1 content2 title1 title2 : string) :
  Text.toLowerCase content1 = Text.toLowerCase content2 ->
  Text.toLowerCase title1 = Text.toLowerCase title2 ->
  categorizeTrend content1 title1 = categorizeTrend content2 title2.
Proof.
  intros Hc Ht. unfold categorizeTrend. rewrite !categorize_text. now rewrite Hc, Ht.
Qed.

Lemma categorize_ignores_case_witness :
  categorizeTrend "VIRAL Movie Night" "Trending NOW"
  = categorizeTrend "viral movie night" "trending now".
Proof. apply categorize_ignores_case; reflexivity. Defined.

(** X3: the technology test comes first and is a substring test: when the
    content or the title contains "ai", "artificial intelligence" or
    "machine learning" in any case, even inside a longer word, the category
    is technology whatever other keywords occur. *)
Theorem technology_wins (content title keyword : string) :
  keyword = "ai"%string \/ keyword = "artificial intelligence"%string \/
  keyword = "machine learning"%string ->
  includes (Text.toLowerCase content) keyword = true \/
  includes (Text.toLowerCase title) keyword = true ->
  categorizeTrend content title = technology.
Proof.
  intros Hk Hin. unfold categorizeTrend. rewrite categorize_text.
  assert (includes (Text.toLowerCase content +:+ " " +:+ Text.toLowerCase title)
            keyword = true) as Htext.
  { destruct Hin as [Hin | Hin].
    - now apply includes_app_l.
    - now apply includes_app_r, includes_app_r. }
  destruct Hk as [-> | [-> | ->]]; rewrite Htext, ?orb_true_r; reflexivity.
Qed.

Lemma technology_wins_witness :
  categorizeTrend "He said the startup got funding" "Business news" = technology.
Proof.
  apply (technology_wins _ _ "ai"); [now left | left; reflexivity].
Defined.

End TaggerProps.

(* ===================================================================== *)
(** ** Properties of the page normalizer *)
(* ===================================================================== *)

Section HashProps.

Local Open Scope Z_scope.

Lemma ToInt32_decomp (z : Z) : exists k : Z, ToInt32 z = z + k * 2 ^ 32.
Proof.
  exists (- ((z + 2 ^ 31) / 2 ^ 32)). unfold ToInt32.
  rewrite Z.mod_eq by (change (2 ^ 32) with 4294967296; lia). lia.
Qed.

Lemma ToInt32_shift (z k : Z) : ToInt32 (z + k * 2 ^ 32) = ToInt32 z.
Proof.
  unfold ToInt32. replace (z + k * 2 ^ 32 + 2 ^ 31) with (z + 2 ^ 31 + k * 2 ^ 32) by lia.
  now rewrite Z.mod_add by (change (2 ^ 32) with 4294967296; lia).
Qed.

Lemma ToInt32_range (z : Z) : - 2 ^ 31 <= ToInt32 z < 2 ^ 31.
Proof.
  unfold ToInt32.
  pose proof (Z.mod_pos_bound (z + 2 ^ 31) (2 ^ 32)) as H.
  change (2 ^ 32) with 4294967296 in *. change (2 ^ 31) with 2147483648 in *. lia.
Qed.

(** One turn of the [reduce]: the accumulator times 31 plus the character
    code, brought back to 32 bits. *)
Lemma hash_step (a A c : Z) :
  a = ToInt32 A ->
  and32 (shl32 a 5 - a + c) (shl32 a 5 - a + c) = ToInt32 (31 * A + c).
Proof.
  intros ->. unfold and32, shl32. rewrite Z.land_diag.
  change (Z.land 5 31) with 5. rewrite Z.shiftl_mul_pow2 by lia.
  destruct (ToInt32_decomp A) as (k1 & H1).
  destruct (ToInt32_decomp (ToInt32 A)) as (k2 & H2).
  destruct (ToInt32_decomp (ToInt32 (ToInt32 A) * 2 ^ 5)) as (k3 & H3).
  destruct (ToInt32_decomp (ToInt32 (ToInt32 (ToInt32 A) * 2 ^ 5) - ToInt32 A + c))
    as (k4 & H4).
  rewrite H4, ToInt32_shift, H3, H2, H1.
  replace ((A + k1 * 2 ^ 32 + k2 * 2 ^ 32) * 2 ^ 5 + k3 * 2 ^ 32
           - (A + k1 * 2 ^ 32) + c)
    with (31 * A + c + (31 * k1 + 32 * k2 + k3) * 2 ^ 32)
    by (change (2 ^ 5) with 32; lia).
  apply ToInt32_shift.
Qed.

Lemma urlHash_fold (l : list ascii) (a A : Z) :
  a = ToInt32 A ->
  fold_left (fun a b => let a := shl32 a 5 - a + Text.code b in and32 a a) l a
  = ToInt32 (fold_left (fun a c => 31 * a + Text.code c) l A).
Proof.
  revert a A. induction l as [| c l IH]; intros a A Ha; cbn [fold_left]; [exact Ha |].
  apply IH. cbv zeta. now apply hash_step.
Qed.

(** X4: the hash the page normalizer puts into its ids is the polynomial
    hash with multiplier 31 of the characters of the URL, reduced to a
    signed 32-bit integer; its absolute value is at most 2^31. *)
Theorem urlHash_is_polynomial (url : string) :
  urlHash url = ToInt32 (polyHash31 url) /\
  - 2 ^ 31 <= urlHash url < 2 ^ 31 /\
  0 <= Z.abs (urlHash url) <= 2 ^ 31.
Proof.
  assert (urlHash url = ToInt32 (polyHash31 url)) as Heq.
  { unfold urlHash, polyHash31. apply urlHash_fold. reflexivity. }
  split; [exact Heq |]. rewrite Heq.
  pose proof (ToInt32_range (polyHash31 url)) as Hr.
  split; [exact Hr | lia].
Qed.

Example urlHash_example : urlHash "https://example.com/a" = (-1716875424)%Z.
Proof. vm_compute. reflexivity. Qed.

End HashProps.

Section DecimalFacts.

Lemma pretty_N_go_digits (x : N) :
  forall s : string,
    Forall (fun c => Text.isDigit c = true) (list_ascii_of_string s) ->
    Forall (fun c => Text.isDigit c = true) (list_ascii_of_string (pretty_N_go x s)).
Proof.
  induction (N.lt_wf_0 x) as [x _ IH]. intros s Hs.
  destruct (N.eq_dec x 0%N) as [-> | Hx]; [now rewrite pretty_N_go_0 |].
  rewrite pretty_N_go_step by lia.
  apply IH; [apply N.div_lt; lia |].
  cbn [list_ascii_of_string]. constructor; [| exact Hs].
  unfold pretty_N_char. repeat case_match; reflexivity.
Qed.

Lemma pretty_nat_digits (n : nat) :
  Forall (fun c => Text.isDigit c = true)
    (list_ascii_of_string (pretty (Z.of_nat n))).
Proof.
  destruct n as [| n]; [repeat constructor |].
  cbn [Z.of_nat]. unfold pretty, pretty_Z, pretty, pretty_positive, pretty, pretty_N.
  destruct (decide (N.pos (Pos.of_succ_nat n) = 0%N)) as [Hz | _]; [discriminate |].
  apply pretty_N_go_digits. constructor.
Qed.

Lemma leadingDigits_stop (ds rest : list ascii) (c : ascii) :
  Forall (fun d => Text.isDigit d = true) ds -> Text.isDigit c = false ->
  leadingDigits (ds ++ c :: rest) = ds.
Proof.
  intros Hds Hc. induction Hds as [| d ds Hd Hds IH]; cbn [app leadingDigits].
  - now rewrite Hc.
  - now rewrite Hd, IH.
Qed.

(** The digits after the last underscore are read back from the end. *)
Lemma trailingDigits_field (a d : string) :
  Forall (fun c => Text.isDigit c = true) (list_ascii_of_string d) ->
  trailingDigits (a +:+ "_" +:+ d) = list_ascii_of_string d.
Proof.
  intros Hd. unfold trailingDigits. rewrite !list_ascii_app.
  cbn [list_ascii_of_string app]. rewrite rev_app_distr. cbn [rev].
  rewrite <- app_assoc. cbn [app].
  rewrite leadingDigits_stop; [apply rev_involutive | | reflexivity].
  apply Forall_rev. exact Hd.
Qed.

Lemma string_app_assoc (a b c : string) : (a +:+ b) +:+ c = a +:+ (b +:+ c).
Proof.
  induction a as [| x a IH]; [reflexivity |].
  change (String x ((a +:+ b) +:+ c) = String x (a +:+ (b +:+ c))).
  now rewrite IH.
Qed.

Lemma length_string_of_list (l : list ascii) :
  String.length (string_of_list_ascii l) = length l.
Proof. induction l as [| c l IH]; cbn; [reflexivity | now rewrite IH]. Qed.

Lemma length_list_of_string (s : string) :
  length (list_ascii_of_string s) = String.length s.
Proof. induction s as [| c s IH]; cbn; [reflexivity | now rewrite IH]. Qed.

Lemma string_length_app (a b : string) :
  String.length (a +:+ b) = (String.length a + String.length b)%nat.
Proof.
  induction a as [| x a IH]; [reflexivity |].
  change (S (String.length (a +:+ b)) = S (String.length a + String.length b)).
  now rewrite IH.
Qed.

Lemma substring0_length (s : string) (n : nat) :
  String.length (Str.substring0 s n) = Nat.min n (String.length s).
Proof.
  unfold Str.substring0. rewrite length_string_of_list, length_firstn.
  now rewrite length_list_of_string.
Qed.

Lemma substring0_all (s : string) (n : nat) :
  (String.length s <= n)%nat -> Str.substring0 s n = s.
Proof.
  intros Hle. unfold Str.substring0.
  rewrite firstn_all2 by (rewrite length_list_of_string; exact Hle).
  apply string_of_list_ascii_of_string.
Qed.

End DecimalFacts.

Section NewsProps.

Variable Date_parse : string -> Date.
Variable clock : nat -> Z.
Variable URL_hostname : string -> option string.

Lemma Array_mapiM_Forall2 {A B : Type} (f : A -> nat -> Clock B) (P : A -> B -> Prop) :
  (forall x i k, P x (fst (f x i k))) ->
  forall xs i k, Forall2 P xs (fst (Array_mapiM f i xs k)).
Proof.
  intros Hf. induction xs as [| x xs IH]; intros i k; cbn [Array_mapiM].
  - constructor.
  - unfold mbind, Clock_bind, mret, Clock_ret.
    pose proof (Hf x i k) as Hx. destruct (f x i k) as [y k1].
    pose proof (IH (S i) k1) as Hxs. destruct (Array_mapiM f (S i) xs k1) as [ys k2].
    constructor; assumption.
Qed.

Lemma Array_mapiM_indexed {A B C : Type} (f : A -> nat -> Clock B)
    (g : B -> C) (h : nat -> C) :
  (forall x i k, g (fst (f x i k)) = h i) ->
  forall xs i k,
    map g (fst (Array_mapiM f i xs k)) = map h (seq i (length xs)).
Proof.
  intros Hf. induction xs as [| x xs IH]; intros i k; cbn [Array_mapiM]; [reflexivity |].
  unfold mbind, Clock_bind, mret, Clock_ret.
  pose proof (Hf x i k) as Hx. destruct (f x i k) as [y k1].
  pose proof (IH (S i) k1) as Hxs. destruct (Array_mapiM f (S i) xs k1) as [ys k2].
  cbn [fst map length seq] in *. now rewrite Hx, Hxs.
Qed.

Lemma convertArticle_id (article : CrawlResult) (index k : nat) :
  trailingDigits
    (rt_id (fst (convertArticle Date_parse clock URL_hostname article index k)))
  = list_ascii_of_string (pretty (Z.of_nat index)).
Proof.
  unfold convertArticle, calculateTrendScore_now, new_Date, mbind, Clock_bind,
    mret, Clock_ret. cbn [fst with_score rt_id].
  rewrite <- (string_app_assoc "news_"), <- (string_app_assoc _ "_"),
    <- (string_app_assoc _ (pretty (clock k))).
  apply trailingDigits_field, pretty_nat_digits.
Qed.

(** X5: within one call of the page normalizer no two candidates get the
    same id, whatever the URLs and the clock: the ids end in the position
    of the article. *)
Theorem news_ids_distinct (articles : list CrawlResult) (k : nat) :
  NoDup (map rt_id
           (fst (convertNewsToRankedTrends Date_parse clock URL_hostname articles k))).
Proof.
  unfold convertNewsToRankedTrends.
  pose proof (Array_mapiM_indexed
                (convertArticle Date_parse clock URL_hostname)
                (fun trend => trailingDigits (rt_id trend))
                (fun i => list_ascii_of_string (pretty (Z.of_nat i)))
                convertArticle_id articles 0 k) as Hids.
  rewrite <- (map_map rt_id trailingDigits) in Hids.
  apply (NoDup_fmap_1 trailingDigits). change (@fmap list _) with (@map) in *.
  rewrite Hids. apply NoDup_fmap_2; [| apply NoDup_ListNoDup, seq_NoDup].
  intros i j Hij.
  apply (f_equal string_of_list_ascii) in Hij.
  rewrite !string_of_list_ascii_of_string in Hij.
  apply (inj pretty) in Hij. lia.
Qed.

Local Open Scope R_scope.

Lemma log10R_increasing (a b : R) : 0 < a -> a <= b -> log10R a <= log10R b.
Proof.
  intros Ha Hab. unfold log10R. pose proof ln_10_pos as H10.
  apply Rmult_le_compat_r; [left; now apply Rinv_0_lt_compat |].
  destruct Hab as [Hlt | <-]; [left; now apply ln_increasing | right; reflexivity].
Qed.

Lemma log10R_million : log10R 1000000 = 6.
Proof.
  unfold log10R. pose proof ln_10_pos as H10.
  replace 1000000 with (10 ^ 6) by lra.
  rewrite ln_pow by lra. cbn [INR]. field. lra.
Qed.

Lemma log10R_saturated (a : R) : 0 < a -> (1 <= log10R a / 6 <-> 1000000 <= a).
Proof.
  intros Ha. split.
  - intros Hge. destruct (Rle_lt_dec 1000000 a) as [Hle | Hlt]; [exact Hle | exfalso].
    assert (log10R a < log10R 1000000) as Hlog.
    { unfold log10R. pose proof ln_10_pos as H10.
      apply Rmult_lt_compat_r; [now apply Rinv_0_lt_compat |].
      now apply ln_increasing. }
    rewrite log10R_million in Hlog. lra.
  - intros Hle. pose proof (log10R_increasing 1000000 a ltac:(lra) Hle) as Hlog.
    rewrite log10R_million in Hlog. lra.
Qed.

Lemma Rmin_1_saturated (x : R) : Rmin 1 x = 1 <-> 1 <= x.
Proof.
  split.
  - intros Hmin. pose proof (Rmin_r 1 x) as Hr. lra.
  - intros Hle. now apply Rmin_left.
Qed.

Lemma newsPopularityR_mono (n m : nat) :
  (n <= m)%nat -> newsPopularityR n <= newsPopularityR m.
Proof.
  intros Hnm. unfold newsPopularityR.
  pose proof (pos_INR n) as Hn. apply le_INR in Hnm.
  apply Rle_min_compat_l.
  apply Rmult_le_compat_r; [lra |].
  apply log10R_increasing; lra.
Qed.

Lemma newsPopularityR_full (n : nat) :
  newsPopularityR n = 1 <-> (9999990 <= Z.of_nat n)%Z.
Proof.
  unfold newsPopularityR. pose proof (pos_INR n) as Hn.
  rewrite Rmin_1_saturated, log10R_saturated by lra.
  rewrite INR_IZR_INZ in *. split.
  - intros Hle. apply le_IZR. lra.
  - intros Hle. apply IZR_le in Hle. lra.
Qed.

Lemma article_metricValues (trend : RankedTrend) (n : nat) :
  rt_metrics trend =
    {| views := Some (Num (INR n) * Num 10)%js;
       likes := None; shares := None; comments := None; retweets := None |} ->
  metricValues (as_partial trend) 0 0 0 (INR n * 10) 0.
Proof.
  intros Hm. unfold metricValues, metricsOf, as_partial. cbn [pt_metrics]. rewrite Hm.
  cbn [likes shares comments views retweets num_or JS.mul].
  repeat split; try reflexivity.
  unfold num_or. cbn [JS.mul].
  destruct (Req_dec (INR n * 10) 0) as [Hz | Hnz].
  - rewrite Hz. unfold R_eqb. destruct (Req_dec_T 0 0); [reflexivity | contradiction].
  - rewrite (R_eqb_neq _ _ Hnz). reflexivity.
Qed.

Lemma as_partial_with_score (trend : RankedTrend) (sc : TrendScore) :
  as_partial (with_score trend sc) = as_partial trend.
Proof. reflexivity. Qed.

Lemma convertArticle_scored (article : CrawlResult) (index k : nat) :
  let trend := fst (convertArticle Date_parse clock URL_hostname article index k) in
  rt_score trend = calculateTrendScore Date_parse (clock (S k)) (as_partial trend) /\
  rt_timestamp trend = cr_timestamp article /\
  rt_content trend = Str.substring0 (cr_content article) 500 /\
  rt_tags trend = extractTagsFromContent (cr_content article) /\
  rt_metrics trend =
    {| views := Some (Num (INR (String.length (cr_content article))) * Num 10)%js;
       likes := None; shares := None; comments := None; retweets := None |}.
Proof.
  intros trend. subst trend.
  unfold convertArticle, calculateTrendScore_now, new_Date, mbind, Clock_bind,
    mret, Clock_ret.
  cbn [fst snd with_score rt_score rt_timestamp rt_content rt_tags rt_metrics].
  split; [| repeat split].
  now rewrite as_partial_with_score.
Qed.

(** X6: what the page normalizer makes of an article's text, whatever its
    timestamp: the content kept is at most 500 characters, the popularity
    is [min(1, log10(n / 10 + 1) / 6)] for a text of [n] characters, and
    the engagement is 0.  The popularity grows with the length of the
    text and is 1 exactly from 9,999,990 characters on. *)
Theorem news_scored_by_length (articles : list CrawlResult) (k : nat) :
  Forall2
    (fun article trend =>
       let n := String.length (cr_content article) in
       (String.length (rt_content trend) <= 500)%nat /\
       popularity (rt_score trend) = Num (newsPopularityR n) /\
       engagement (rt_score trend) = Num 0)
    articles
    (fst (convertNewsToRankedTrends Date_parse clock URL_hostname articles k)) /\
  (forall n m : nat, (n <= m)%nat -> newsPopularityR n <= newsPopularityR m) /\
  (forall n : nat, newsPopularityR n = 1 <-> (9999990 <= Z.of_nat n)%Z).
Proof.
  split; [| split; [exact newsPopularityR_mono | exact newsPopularityR_full]].
  unfold convertNewsToRankedTrends. apply Array_mapiM_Forall2.
  intros article i j.
  destruct (convertArticle_scored article i j) as (Hsc & _ & Hcontent & _ & Hm).
  set (trend := fst (convertArticle Date_parse clock URL_hostname article i j)) in *.
  pose proof (article_metricValues trend _ Hm) as Hvals.
  pose proof (pos_INR (String.length (cr_content article))) as Hn.
  cbv zeta. split; [| split].
  - rewrite Hcontent, substring0_length. apply Nat.le_min_l.
  - rewrite Hsc.
    rewrite (popularity_finite Date_parse _ _ _ _ _ _ _ Hvals)
      by (unfold totalEngagementR; lra).
    unfold popularityR, newsPopularityR, totalEngagementR. repeat f_equal. lra.
  - rewrite Hsc. rewrite (engagement_finite Date_parse _ _ _ _ _ _ _ Hvals).
    unfold engagementR. destruct (Rlt_dec 0 _) as [Hpos | _]; [| reflexivity].
    f_equal. replace ((0 + 0 + 0) / Rmax (INR (String.length (cr_content article)) * 10) 0 * 100)
      with 0 by (unfold Rdiv; lra).
    apply Rmin_right. lra.
Qed.

Lemma Forall2_Forall_mp {A B : Type} (Q : A -> Prop) (P : B -> Prop)
    (xs : list A) (ys : list B) :
  Forall2 (fun x y => Q x -> P y) xs ys -> Forall Q xs -> Forall P ys.
Proof.
  intros H2. induction H2 as [| x y xs ys Hxy _ IH]; intros HQ; [constructor |].
  inversion HQ as [| ? ? Hx Hxs]; subst. constructor; [now apply Hxy | now apply IH].
Qed.

Lemma readable_scoreDate (s : string) (now : Z) :
  readable Date_parse s -> exists t : Z, scoreDate Date_parse now (Some s) = Some t.
Proof.
  intros [-> | (t & Ht)]; cbn [scoreDate].
  - exists now. reflexivity.
  - destruct (String.eqb s ""); [now exists now | now exists t].
Qed.

(** X7: a page whose timestamp is empty or parses gets a finite overall
    score between 0 and 0.8: without engagement only the recency and the
    popularity shares are left. *)
Theorem news_overall_capped (articles : list CrawlResult) (k : nat) :
  Forall (fun article => readable Date_parse (cr_timestamp article)) articles ->
  Forall (fun trend => exists a : R, overall (rt_score trend) = Num a /\ 0 <= a <= 0.8)
    (fst (convertNewsToRankedTrends Date_parse clock URL_hostname articles k)).
Proof.
  apply Forall2_Forall_mp. unfold convertNewsToRankedTrends.
  apply Array_mapiM_Forall2. intros article i j Hread.
  destruct (convertArticle_scored article i j) as (Hsc & Hts & _ & _ & Hm).
  set (trend := fst (convertArticle Date_parse clock URL_hostname article i j)) in *.
  pose proof (article_metricValues trend _ Hm) as Hvals.
  pose proof (pos_INR (String.length (cr_content article))) as Hn.
  destruct (readable_scoreDate _ (clock (S j)) Hread) as (t & Ht).
  rewrite <- Hts in Ht.
  pose proof (recency_finite Date_parse (clock (S j)) (as_partial trend) t Ht) as Hrec.
  pose proof (popularity_finite Date_parse (clock (S j)) _ _ _ _ _ _ Hvals
                ltac:(unfold totalEngagementR; lra)) as Hpop.
  pose proof (engagement_finite Date_parse (clock (S j)) _ _ _ _ _ _ Hvals) as Heng.
  pose proof (overall_finite Date_parse (clock (S j)) _ _ _ _ Hrec Hpop Heng) as Hov.
  cbv zeta in Hov. rewrite <- Hsc in Hov.
  eexists. split; [exact Hov |].
  pose proof (recencyR_range (clock (S j)) (IZR t)) as Hr1.
  pose proof (popularityR_range 0 0 0 (INR (String.length (cr_content article)) * 10) 0
                ltac:(lra) ltac:(lra) ltac:(lra) ltac:(lra) ltac:(lra)) as Hr2.
  assert (engagementR 0 0 0 (INR (String.length (cr_content article)) * 10) 0 = 0) as ->.
  { unfold engagementR. destruct (Rlt_dec 0 _) as [Hpos | _]; [| reflexivity].
    replace ((0 + 0 + 0) / Rmax (INR (String.length (cr_content article)) * 10) 0 * 100)
      with 0 by (unfold Rdiv; lra).
    apply Rmin_right. lra. }
  unfold overallR. lra.
Qed.

End NewsProps.

Lemma news_overall_capped_witness :
  Forall (fun trend => exists a : R, overall (rt_score trend) = Num a /\ (0 <= a <= 0.8)%R)
    (fst (convertNewsToRankedTrends ISO.parse steady_clock (fun _ => None)
            [sample_article; untitled_article] 0)).
Proof.
  apply news_overall_capped.
  constructor; [right; exists (now0 - 86400000)%Z; reflexivity |].
  constructor; [left; reflexivity | constructor].
Defined.

(** Two pages of one URL converted at one reading of the clock differ in
    the last field of their ids only. *)
Example news_ids_example :
  map rt_id (fst (convertNewsToRankedTrends ISO.parse steady_clock (fun _ => None)
                    [sample_article; untitled_article] 0))
  = ["news_355226313_1793491200000_0"; "news_355226313_1793491200000_1"]%string.
Proof. vm_compute. reflexivity. Qed.

(* ===================================================================== *)
(** ** Properties of the post normalizer *)
(* ===================================================================== *)

Section TweetProps.

Local Open Scope R_scope.

Variable Date_parse : string -> Date.
Variable clock : nat -> Z.

Lemma num_or_zero_Num (a : R) : num_or (Some (Num a)) (Num 0) = Num a.
Proof.
  cbn [num_or]. destruct (Req_dec a 0) as [-> | Ha].
  - unfold R_eqb. destruct (Req_dec_T 0 0); [reflexivity | contradiction].
  - now rewrite (R_eqb_neq _ _ Ha).
Qed.

Lemma num_or_zero_idem (v : option number) :
  num_or (Some (num_or v (Num 0))) (Num 0) = num_or v (Num 0).
Proof.
  destruct v as [[r | | |] |]; cbn [num_or]; try apply num_or_zero_Num; try reflexivity.
  destruct (R_eqb r 0) eqn:Hr; [apply num_or_zero_Num |].
  cbn [num_or]. now rewrite Hr.
Qed.

Lemma convertTweet_scored (tweet : XTweet) (k : nat) :
  let trend := fst (convertTweet Date_parse clock tweet k) in
  rt_score trend = calculateTrendScore Date_parse (clock k) (as_partial trend) /\
  rt_timestamp trend = tw_created_at tweet /\
  rt_content trend = tw_text tweet /\
  rt_title trend =
    Str.substring0 (tw_text tweet) 100 +:+
    (if (100 <? String.length (tw_text tweet))%nat then "..." else "") /\
  rt_metrics trend =
    {| likes := Some (num_or (like_count <$> tw_public_metrics tweet) (Num 0));
       retweets := Some (num_or (retweet_count <$> tw_public_metrics tweet) (Num 0));
       comments := Some (num_or (reply_count <$> tw_public_metrics tweet) (Num 0));
       shares := Some (num_or (quote_count <$> tw_public_metrics tweet) (Num 0));
       views := None |}.
Proof.
  intros trend. subst trend.
  unfold convertTweet, calculateTrendScore_now, new_Date, mbind, Clock_bind,
    mret, Clock_ret.
  cbn [fst snd with_score rt_score rt_timestamp rt_content rt_title rt_metrics].
  split; [| repeat split].
  now rewrite as_partial_with_score.
Qed.

Lemma tweet_metricValues (tweet : XTweet) (trend : RankedTrend) (l rt rp q : R) :
  rt_metrics trend =
    {| likes := Some (num_or (like_count <$> tw_public_metrics tweet) (Num 0));
       retweets := Some (num_or (retweet_count <$> tw_public_metrics tweet) (Num 0));
       comments := Some (num_or (reply_count <$> tw_public_metrics tweet) (Num 0));
       shares := Some (num_or (quote_count <$> tw_public_metrics tweet) (Num 0));
       views := None |} ->
  tweetCounts tweet l rt rp q ->
  metricValues (as_partial trend) l q rp 0 rt.
Proof.
  intros Hm Hcounts. unfold metricValues, metricsOf, as_partial. cbn [pt_metrics].
  rewrite Hm. cbn [likes shares comments views retweets].
  rewrite !num_or_zero_idem. unfold tweetCounts in Hcounts.
  destruct (tw_public_metrics tweet) as [pm |]; cbn [fmap option_fmap option_map].
  - destruct Hcounts as (-> & -> & -> & ->). rewrite !num_or_zero_Num. repeat split.
  - destruct Hcounts as (-> & -> & -> & ->). repeat split.
Qed.

(** X8: the title of a converted tweet is the whole text when the text
    has at most 100 characters and its first 100 characters followed by
    an ellipsis otherwise; it never has more than 103 characters, while
    the content keeps the whole text. *)
Theorem tweet_titles_bounded (tweets : list XTweet) (k : nat) :
  Forall2
    (fun tweet trend =>
       let text := tw_text tweet in
       rt_title trend =
         (if (String.length text <=? 100)%nat then text
          else Str.substring0 text 100 +:+ "...") /\
       (String.length (rt_title trend) <= 103)%nat /\
       (String.length (rt_title trend) <= String.length text + 3)%nat /\
       rt_content trend = text)
    tweets (fst (convertXToRankedTrends Date_parse clock tweets k)).
Proof.
  unfold convertXToRankedTrends. apply Array_mapM_Forall2. intros tweet j.
  destruct (convertTweet_scored tweet j) as (_ & _ & Hcontent & Htitle & _).
  set (trend := fst (convertTweet Date_parse clock tweet j)) in *.
  cbv zeta. rewrite Htitle.
  destruct (Nat.leb_spec (String.length (tw_text tweet)) 100) as [Hle | Hgt].
  - assert ((100 <? String.length (tw_text tweet))%nat = false) as ->
      by (apply Nat.ltb_ge; exact Hle).
    rewrite substring0_all by exact Hle.
    assert (tw_text tweet +:+ "" = tw_text tweet) as ->.
    { generalize (tw_text tweet). intros s.
      induction s as [| c s IH]; [reflexivity |].
      change (String c (s +:+ "") = String c s). now rewrite IH. }
    repeat split; lia || exact Hcontent.
  - assert ((100 <? String.length (tw_text tweet))%nat = true) as ->
      by (apply Nat.ltb_lt; exact Hgt).
    rewrite string_length_app, substring0_length.
    change (String.length "...") with 3%nat.
    repeat split; lia || exact Hcontent.
Qed.

Lemma score_in_unit (now : Z) (trend : PartialTrend) (t : Z) (l s c v r : R) :
  scoreDate Date_parse now (pt_timestamp trend) = Some t ->
  metricValues trend l s c v r ->
  0 <= l -> 0 <= s -> 0 <= c -> 0 <= v -> 0 <= r ->
  let sc := calculateTrendScore Date_parse now trend in
  inUnit (recency sc) /\ inUnit (popularity sc) /\
  inUnit (engagement sc) /\ inUnit (overall sc).
Proof.
  intros Ht Hm Hl Hs Hc Hv Hr sc.
  pose proof (recency_finite Date_parse now trend t Ht) as Hrec.
  pose proof (popularity_finite Date_parse now trend l s c v r Hm
                ltac:(unfold totalEngagementR; lra)) as Hpop.
  pose proof (engagement_finite Date_parse now trend l s c v r Hm) as Heng.
  pose proof (overall_finite Date_parse now trend _ _ _ Hrec Hpop Heng) as Hov.
  pose proof (recencyR_range now (IZR t)) as Hr1.
  pose proof (popularityR_range l s c v r Hl Hs Hc Hv Hr) as Hr2.
  pose proof (engagementR_range l s c v r Hs Hc Hr) as Hr3.
  fold sc in Hrec, Hpop, Heng, Hov. cbv zeta in Hov.
  repeat split; eexists; (split; [eassumption |]); try assumption.
  unfold overallR. lra.
Qed.

(** X9: every tweet with a readable creation time and finite,
    non-negative counters (or none) is scored inside the unit interval on
    all four scores. *)
Theorem tweets_scored_in_unit (tweets : list XTweet) (k : nat) :
  Forall (scorableTweet Date_parse) tweets ->
  Forall
    (fun trend =>
       inUnit (recency (rt_score trend)) /\ inUnit (popularity (rt_score trend)) /\
       inUnit (engagement (rt_score trend)) /\ inUnit (overall (rt_score trend)))
    (fst (convertXToRankedTrends Date_parse clock tweets k)).
Proof.
  apply Forall2_Forall_mp. unfold convertXToRankedTrends.
  apply Array_mapM_Forall2. intros tweet j (Hread & l & rt & rp & q & Hcounts & Hl & Hrt & Hrp & Hq).
  destruct (convertTweet_scored tweet j) as (Hsc & Hts & _ & _ & Hm).
  set (trend := fst (convertTweet Date_parse clock tweet j)) in *.
  pose proof (tweet_metricValues tweet trend l rt rp q Hm Hcounts) as Hvals.
  destruct (readable_scoreDate Date_parse _ (clock j) Hread) as (t & Ht).
  rewrite <- Hts in Ht. rewrite Hsc.
  apply (score_in_unit (clock j) (as_partial trend) t l q rp 0 rt Ht Hvals); lra.
Qed.

(** X10: a tweet whose like count is 0, NaN or missing gets the
    engagement score 0, however often it was retweeted, quoted or
    answered. *)
Theorem unliked_tweet_has_no_engagement (tweets : list XTweet) (k : nat) :
  Forall (fun tweet => num_or (like_count <$> tw_public_metrics tweet) (Num 0) = Num 0)
    tweets ->
  Forall (fun trend => engagement (rt_score trend) = Num 0)
    (fst (convertXToRankedTrends Date_parse clock tweets k)).
Proof.
  apply Forall2_Forall_mp. unfold convertXToRankedTrends.
  apply Array_mapM_Forall2. intros tweet j Hlikes.
  destruct (convertTweet_scored tweet j) as (Hsc & _ & _ & _ & Hm).
  set (trend := fst (convertTweet Date_parse clock tweet j)) in *.
  rewrite Hsc. unfold calculateTrendScore, as_partial. cbn [engagement pt_metrics].
  rewrite Hm. cbn [likes views]. rewrite num_or_zero_idem, Hlikes.
  cbn [num_or]. rewrite Math_max_Num, Rmax_left by lra.
  assert (JS.gt (Num 0) (Num 0) = false) as -> by (apply gt_Num_false; lra).
  reflexivity.
Qed.

End TweetProps.

Lemma tweets_scored_in_unit_witness :
  Forall
    (fun trend =>
       inUnit (recency (rt_score trend)) /\ inUnit (popularity (rt_score trend)) /\
       inUnit (engagement (rt_score trend)) /\ inUnit (overall (rt_score trend)))
    (fst (convertXToRankedTrends ISO.parse steady_clock [sample_tweet; bare_tweet] 0)).
Proof.
  apply tweets_scored_in_unit.
  constructor; [| constructor; [| constructor]]; split.
  - right. exists (now0 - 43200000)%Z. reflexivity.
  - exists 120%R, 30%R, 4%R, 2%R. unfold tweetCounts. cbn. repeat split; lra.
  - left. reflexivity.
  - exists 0%R, 0%R, 0%R, 0%R. unfold tweetCounts. cbn. repeat split; lra.
Defined.

Lemma unliked_tweet_has_no_engagement_witness :
  Forall (fun trend => engagement (rt_score trend) = Num 0)
    (fst (convertXToRankedTrends ISO.parse steady_clock [unliked_tweet; bare_tweet] 0)).
Proof.
  apply unliked_tweet_has_no_engagement.
  constructor; [| constructor; [| constructor]].
  - cbn [unliked_tweet tw_public_metrics fmap option_fmap option_map like_count].
    apply num_or_zero_Num.
  - reflexivity.
Defined.

(* ===================================================================== *)
(** ** How the scores move with the inputs *)
(* ===================================================================== *)

Section ScoreShape.

Local Open Scope R_scope.

Variable Date_parse : string -> Date.
Variable now : Z.

Lemma recencyR_mono (t1 t2 : R) : t1 <= t2 -> recencyR now t1 <= recencyR now t2.
Proof.
  intros Ht. unfold recencyR, ageHours.
  apply Rle_max_compat_l, Rle_min_compat_l.
  destruct Ht as [Hlt | <-]; [left; apply exp_increasing; lra | right; reflexivity].
Qed.

Lemma recencyR_past (t : R) : t < IZR now -> recencyR now t < 1.
Proof.
  intros Ht. rewrite recencyR_val by (unfold ageHours; lra).
  rewrite <- exp_0. apply exp_increasing. unfold ageHours. lra.
Qed.

(** X11: of two candidates with readable timestamps the one published
    later never has the lower recency; recency is 1 exactly when the
    timestamp is not in the past. *)
Theorem newer_is_more_recent (older newer : PartialTrend) (t1 t2 : Z) :
  scoreDate Date_parse now (pt_timestamp older) = Some t1 ->
  scoreDate Date_parse now (pt_timestamp newer) = Some t2 ->
  (t1 <= t2)%Z ->
  let r1 := recency (calculateTrendScore Date_parse now older) in
  let r2 := recency (calculateTrendScore Date_parse now newer) in
  JS.le r1 r2 = true /\
  (r2 = Num 1 <-> (now <= t2)%Z).
Proof.
  intros H1 H2 Hle r1 r2. unfold r1, r2.
  rewrite (recency_finite Date_parse now older t1 H1),
    (recency_finite Date_parse now newer t2 H2).
  split.
  - apply le_Num, recencyR_mono, IZR_le, Hle.
  - split.
    + intros Hone. injection Hone as Hone.
      destruct (Z_lt_le_dec t2 now) as [Hpast | Hfut]; [exfalso | exact Hfut].
      apply IZR_lt in Hpast. pose proof (recencyR_past _ Hpast). lra.
    + intros Hfut. f_equal. apply recencyR_future. apply IZR_le in Hfut.
      unfold ageHours. lra.
Qed.

Lemma ln_2_bounds : 2 / 3 < ln 2 < 3 / 4.
Proof.
  pose proof exp_m1_bounds as [H1lo H1hi]. pose proof exp_m2_bounds as [H2lo H2hi].
  assert (exp 2 * exp (-2) = 1) as He2 by (rewrite <- exp_plus, <- exp_0; f_equal; lra).
  assert (exp 3 * exp (-3) = 1) as He3 by (rewrite <- exp_plus, <- exp_0; f_equal; lra).
  assert (exp (-3) < 1 / 16) as Hm3.
  { replace (-3) with (-1 + -2) by lra. rewrite exp_plus.
    apply Rlt_trans with (36806 / 100000 * (1355 / 10000)); [| lra].
    apply Rmult_gt_0_lt_compat; lra. }
  pose proof (exp_pos 2) as Hp2. pose proof (exp_pos 3) as Hp3.
  pose proof (exp_pos (-3)) as Hpm3.
  assert (exp 2 < 8) as Hlt8.
  { destruct (Rlt_le_dec (exp 2) 8) as [Hlt | Hge]; [exact Hlt | exfalso].
    assert (8 * exp (-2) <= exp 2 * exp (-2)) by (apply Rmult_le_compat_r; lra). lra. }
  assert (16 < exp 3) as Hgt16.
  { destruct (Rlt_le_dec 16 (exp 3)) as [Hlt | Hge]; [exact Hlt | exfalso].
    assert (exp 3 * exp (-3) <= 16 * exp (-3)) by (apply Rmult_le_compat_r; lra). lra. }
  assert (ln (2 ^ 3) = 3 * ln 2) as Hl8 by (rewrite ln_pow by lra; cbn [INR]; lra).
  assert (ln (2 ^ 4) = 4 * ln 2) as Hl16 by (rewrite ln_pow by lra; cbn [INR]; lra).
  split.
  - assert (ln (exp 2) < ln (2 ^ 3)) as Hln by (apply ln_increasing; lra).
    rewrite ln_exp, Hl8 in Hln. lra.
  - assert (ln (2 ^ 4) < ln (exp 3)) as Hln by (apply ln_increasing; lra).
    rewrite ln_exp, Hl16 in Hln. lra.
Qed.

Lemma recencyR_above_half (t : R) :
  1 / 2 < recencyR now t <-> ageHours now t < 24 * ln 2.
Proof.
  assert (exp (- ln 2) = 1 / 2) as Hhalf.
  { rewrite exp_Ropp, exp_ln by lra. lra. }
  unfold recencyR. set (x := exp (- ageHours now t / 24)).
  assert (1 / 2 < Rmax 0 (Rmin 1 x) <-> 1 / 2 < x) as ->.
  { unfold Rmax, Rmin. destruct (Rle_dec 1 x), (Rle_dec 0 _); lra. }
  unfold x. rewrite <- Hhalf. split.
  - intros Hlt. apply exp_lt_inv in Hlt. lra.
  - intros Hlt. apply exp_increasing. lra.
Qed.

(** X12: recency stays above one half exactly while the candidate is
    younger than [24 * ln 2] hours, between 16 and 18 hours: the 24 in the
    exponent is the time after which [exp(-1)] is left, not the
    half-life. *)
Theorem recency_half_life (trend : PartialTrend) (t : Z) :
  scoreDate Date_parse now (pt_timestamp trend) = Some t ->
  (JS.gt (recency (calculateTrendScore Date_parse now trend)) (Num (1 / 2)) = true
   <-> ageHours now (IZR t) < 24 * ln 2) /\
  16 < 24 * ln 2 < 18.
Proof.
  intros Ht. rewrite (recency_finite Date_parse now trend t Ht), gt_Num.
  split; [apply recencyR_above_half |].
  pose proof ln_2_bounds. lra.
Qed.




End ScoreShape.

Lemma newer_is_more_recent_witness :
  let r1 := recency (calculateTrendScore ISO.parse now0 day_old_trend) in
  let r2 := recency (calculateTrendScore ISO.parse now0 scenario_trend) in
  JS.le r1 r2 = true /\
  (r2 = Num 1 <-> (now0 <= now0)%Z).
Proof.
  apply (newer_is_more_recent ISO.parse now0 day_old_trend scenario_trend
           (now0 - 86400000)%Z now0 eq_refl eq_refl).
  unfold now0. lia.
Defined.

Lemma recency_half_life_witness :
  (JS.gt (recency (calculateTrendScore ISO.parse now0 day_old_trend)) (Num (1 / 2)) = true
   <-> (ageHours now0 (IZR (now0 - 86400000)) < 24 * ln 2)%R) /\
  (16 < 24 * ln 2 < 18)%R.
Proof. exact (recency_half_life ISO.parse now0 day_old_trend _ eq_refl). Defined.



(* ===================================================================== *)
(** ** Order, ties and repetition in the ranker *)
(* ===================================================================== *)

Section SortFacts.

Local Open Scope R_scope.

Lemma same_number_eq (a b : number) : same_number a b = true -> a = b.
Proof.
  destruct a as [p | | |], b as [q | | |]; cbn [same_number]; try discriminate;
    try reflexivity.
  intros H. apply R_eqb_spec in H. now subst.
Qed.

Lemma sub_gt_0_strict (a b : number) :
  (a - b >? Num 0)%js = true -> JS.le a b = false.
Proof.
  destruct a as [p | | |], b as [q | | |]; try (cbv; congruence);
    try (simpl; congruence).
  cbn [JS.sub JS.neg JS.add]. rewrite gt_Num. simpl. rewrite R_leb_false. lra.
Qed.

Lemma sub_gt_0_neq (a b : number) : (a - b >? Num 0)%js = true -> a <> b.
Proof.
  intros Hgt ->. destruct b as [q | | |]; try (cbv in Hgt; congruence).
  cbn [JS.sub JS.neg JS.add] in Hgt. apply gt_Num in Hgt. lra.
Qed.

Lemma le_sub_not_gt (a b : number) :
  JS.le a b = true -> (a - b >? Num 0)%js = false.
Proof.
  intros Hle. destruct (a - b >? Num 0)%js eqn:Hgt; [| reflexivity].
  apply sub_gt_0_strict in Hgt. congruence.
Qed.

Context {A : Type}.

Lemma StronglySorted_app_cross (P : A -> A -> Prop) (l1 l2 : list A) :
  StronglySorted P (l1 ++ l2) ->
  forall a b, In a l1 -> In b l2 -> P a b.
Proof.
  induction l1 as [| x l1 IH]; intros Hs a b Ha Hb; [contradiction |].
  cbn [app] in Hs. apply StronglySorted_inv in Hs as [Hs Hx].
  destruct Ha as [<- | Ha]; [| now apply IH].
  rewrite List.Forall_forall in Hx. apply Hx, in_or_app. now right.
Qed.

Lemma filter_all (p : A -> bool) (l : list A) :
  (forall x, In x l -> p x = true) -> List.filter p l = l.
Proof.
  induction l as [| x l IH]; intros Hp; cbn [List.filter]; [reflexivity |].
  rewrite (Hp x) by now left. f_equal. apply IH. intros y Hy. apply Hp. now right.
Qed.

Lemma filter_none (p : A -> bool) (l : list A) :
  (forall x, In x l -> p x = false) -> List.filter p l = [].
Proof.
  induction l as [| x l IH]; intros Hp; cbn [List.filter]; [reflexivity |].
  rewrite (Hp x) by now left. apply IH. intros y Hy. apply Hp. now right.
Qed.

Lemma filter_firstn_prefix (p : A -> bool) (k : nat) (l : list A) :
  exists j : nat, List.filter p (firstn k l) = firstn j (List.filter p l).
Proof.
  revert k. induction l as [| x l IH]; intros [| k]; cbn [firstn List.filter];
    try (exists O; reflexivity).
  destruct (IH k) as (j & Hj). destruct (p x).
  - exists (S j). cbn [firstn]. now rewrite Hj.
  - exists j. exact Hj.
Qed.

Variable key : A -> number.

Lemma sort_insert_last (x : A) (acc : list A) :
  (forall y, In y acc -> keyGe key y x) ->
  sort_insert (keyDesc key) x acc = acc ++ [x].
Proof.
  induction acc as [| y acc IH]; intros Hge; cbn [sort_insert app]; [reflexivity |].
  unfold keyDesc at 1. rewrite le_sub_not_gt by (apply Hge; now left).
  f_equal. apply IH. intros z Hz. apply Hge. now right.
Qed.

(** Sorting a list that is in order already changes nothing. *)
Lemma Array_sort_of_sorted (l : list A) :
  StronglySorted (keyGe key) l -> Array_sort (keyDesc key) l = l.
Proof.
  unfold Array_sort.
  assert (forall acc, StronglySorted (keyGe key) (acc ++ l) ->
            fold_left (fun acc x => sort_insert (keyDesc key) x acc) l acc = acc ++ l) as H.
  { induction l as [| x l IH]; intros acc Hs; cbn [fold_left].
    - now rewrite app_nil_r.
    - rewrite sort_insert_last.
      + rewrite IH; rewrite <- app_assoc; [reflexivity | exact Hs].
      + intros y Hy. apply (StronglySorted_app_cross _ _ _ Hs y x Hy). now left. }
  intros Hs. apply (H [] Hs).
Qed.

(** The sort is stable: elements of one key keep their order. *)
Lemma sort_insert_stable (v : number) (x : A) (acc : list A) :
  StronglySorted (keyGe key) acc ->
  List.filter (fun y => same_number (key y) v) (sort_insert (keyDesc key) x acc) =
  List.filter (fun y => same_number (key y) v) acc ++
  List.filter (fun y => same_number (key y) v) [x].
Proof.
  intros Hs. induction Hs as [| y l Hs IH Hy]; cbn [sort_insert]; [reflexivity |].
  destruct (keyDesc key y x >? Num 0)%js eqn:Hc.
  - unfold keyDesc in Hc.
    change (x :: y :: l) with ([x] ++ y :: l). rewrite List.filter_app.
    destruct (same_number (key x) v) eqn:Hx.
    + apply same_number_eq in Hx.
      rewrite (filter_none (fun z => same_number (key z) v) (y :: l));
        [now rewrite app_nil_r |].
      intros z Hz. destruct (same_number (key z) v) eqn:Hzv; [exfalso | reflexivity].
      apply same_number_eq in Hzv. rewrite <- Hx in Hzv.
      destruct Hz as [<- | Hz].
      * apply sub_gt_0_neq in Hc. congruence.
      * apply sub_gt_0_strict in Hc. rewrite List.Forall_forall in Hy.
        specialize (Hy z Hz). unfold keyGe in Hy. congruence.
    + cbn [List.filter]. rewrite Hx. now rewrite app_nil_r.
  - cbn [List.filter]. rewrite IH. cbn [List.filter].
    destruct (same_number (key y) v); reflexivity.
Qed.

End SortFacts.

Section RankerOrder.

Local Open Scope R_scope.

Variable Date_parse : string -> Date.
Variable now : Z.

Lemma fold_sort_insert_stable {A : Type} (key : A -> number) (v : number)
    (l acc : list A) :
  Forall (fun y => key y <> NaN) l -> Forall (fun y => key y <> NaN) acc ->
  StronglySorted (keyGe key) acc ->
  List.filter (fun y => same_number (key y) v)
    (fold_left (fun acc x => sort_insert (keyDesc key) x acc) l acc) =
  List.filter (fun y => same_number (key y) v) acc ++
  List.filter (fun y => same_number (key y) v) l.
Proof.
  revert acc. induction l as [| x l IH]; intros acc Hl Hacc Hs; cbn [fold_left].
  - cbn [List.filter]. now rewrite app_nil_r.
  - apply Forall_cons_iff in Hl as [Hx Hl].
    rewrite IH; [| exact Hl | | now apply sort_insert_sorted].
    + rewrite sort_insert_stable by exact Hs. rewrite <- app_assoc. f_equal.
      cbn [List.filter]. destruct (same_number (key x) v); reflexivity.
    + eapply Permutation_Forall; [symmetry; apply sort_insert_perm |].
      now constructor.
Qed.

Lemma Array_sort_stable {A : Type} (key : A -> number) (v : number) (l : list A) :
  Forall (fun y => key y <> NaN) l ->
  List.filter (fun y => same_number (key y) v) (Array_sort (keyDesc key) l) =
  List.filter (fun y => same_number (key y) v) l.
Proof.
  intros Hl. unfold Array_sort.
  rewrite fold_sort_insert_stable; [reflexivity | exact Hl | constructor | constructor].
Qed.

Lemma survivors_scored userTrends globalTrends minS cats win :
  Forall (fun t => overall (rt_score t) <> NaN)
    (survivors Date_parse now userTrends globalTrends minS cats win).
Proof.
  apply List.Forall_forall. intros trend Hin.
  apply survivors_spec in Hin. destruct Hin as (_ & _ & _ & Hscore).
  unfold meetsMinScore, JS.ge in Hscore. eapply le_not_NaN_r, Hscore.
Qed.

Lemma survivors_sublist userTrends globalTrends minS cats win :
  sublist (survivors Date_parse now userTrends globalTrends minS cats win)
    (userTrends ++ globalTrends).
Proof.
  unfold survivors.
  etransitivity; [apply filter_sublist |].
  destruct (0 <? length cats)%nat.
  - etransitivity; [apply filter_sublist |]. apply filter_sublist.
  - apply filter_sublist.
Qed.

(** X15: candidates with the same overall score leave the ranker in the
    order in which they came in, the user's candidates before the global
    ones: the returned candidates of any one score are a prefix of the
    surviving candidates of that score, which stand in input order. *)
Theorem ranking_is_stable
    (userTrends globalTrends : list RankedTrend) (options : option RankOptions)
    (v : number) :
  let opts := default_to options no_options in
  let surv := survivors Date_parse now userTrends globalTrends
                (default_to (minScore opts) (Num 0.1))
                (default_to (categories opts) [])
                (default_to (timeWindow opts) (Num 24)) in
  let out := combineAndRankTrends Date_parse now userTrends globalTrends options in
  sublist surv (userTrends ++ globalTrends) /\
  exists j : nat,
    List.filter (hasOverall v) out = firstn j (List.filter (hasOverall v) surv).
Proof.
  intros opts surv out. split; [apply survivors_sublist |].
  destruct (combineAndRankTrends_prefix Date_parse now userTrends globalTrends options)
    as (k & Hout & _).
  fold opts surv out in Hout. rewrite Hout.
  destruct (filter_firstn_prefix (hasOverall v) k (Array_sort byOverallDesc surv))
    as (j & Hj).
  exists j. rewrite Hj. f_equal.
  apply (Array_sort_stable (fun t => overall (rt_score t)) v surv).
  apply survivors_scored.
Qed.

Lemma slice_int_0_exact {A : Type} (l : list A) (e : Z) :
  (0 <= e)%Z -> slice_int l 0 e = firstn (Z.to_nat e) l.
Proof.
  intros He. rewrite <- (Z2Nat.id e) at 1 by exact He. apply slice_int_firstn.
Qed.

Lemma Int_part_ge (n : Z) (r : R) : IZR n <= r -> (n <= Int_part r)%Z.
Proof.
  intros Hle. destruct (base_Int_part r) as [_ Hb].
  assert (IZR n - 1 < IZR (Int_part r)) as Hlt by lra.
  rewrite <- minus_IZR in Hlt. apply lt_IZR in Hlt. lia.
Qed.

Lemma Array_slice_all {A : Type} (l : list A) (e : number) :
  JS.le (Num (INR (length l))) e = true -> Array_slice l 0 e = l.
Proof.
  destruct e as [r | | |]; cbn [Array_slice]; try (cbn; discriminate).
  - rewrite le_Num. intros Hle. pose proof (pos_INR (length l)) as Hlen.
    unfold truncate. destruct (Rle_dec 0 r) as [_ | Hn]; [| lra].
    rewrite INR_IZR_INZ in Hle. apply Int_part_ge in Hle.
    rewrite slice_int_0_exact by lia. apply firstn_all2. lia.
  - intros _. rewrite slice_int_firstn. apply firstn_all.
Qed.

(** X16: for an integral [maxResults = m >= 0] the ranker returns the
    [m] best survivors of the filters, or all of them when there are
    fewer: the count is [min m (number of survivors)], no survivor left
    out has a higher overall score than a returned one, and nothing is
    lost when the survivors fit. *)
Theorem ranking_keeps_the_best
    (userTrends globalTrends : list RankedTrend) (options : option RankOptions)
    (m : Z) :
  let opts := default_to options no_options in
  default_to (maxResults opts) (Num 50) = Num (IZR m) -> (0 <= m)%Z ->
  let surv := survivors Date_parse now userTrends globalTrends
                (default_to (minScore opts) (Num 0.1))
                (default_to (categories opts) [])
                (default_to (timeWindow opts) (Num 24)) in
  let out := combineAndRankTrends Date_parse now userTrends globalTrends options in
  length out = Nat.min (Z.to_nat m) (length surv) /\
  (forall a b : RankedTrend,
      In a out -> In b surv -> ~ In b out ->
      JS.le (overall (rt_score b)) (overall (rt_score a)) = true) /\
  ((length surv <= Z.to_nat m)%nat -> Permutation out surv).
Proof.
  intros opts Hmax Hm surv out.
  set (sorted := Array_sort byOverallDesc surv).
  assert (out = firstn (Z.to_nat m) sorted) as Hout.
  { unfold out, combineAndRankTrends. fold opts. rewrite Hmax.
    cbn [Array_slice]. rewrite truncate_IZR. now apply slice_int_0_exact. }
  assert (StronglySorted (keyGe (fun t => overall (rt_score t))) sorted) as Hsorted
    by (apply (Array_sort_sorted (fun t => overall (rt_score t))), survivors_scored).
  split; [| split].
  - rewrite Hout, length_firstn. unfold sorted. now rewrite Array_sort_length.
  - intros a b Ha Hb Hnb. rewrite Hout in Ha, Hnb.
    rewrite <- (firstn_skipn (Z.to_nat m) sorted) in Hsorted.
    apply (StronglySorted_app_cross _ _ _ Hsorted a b Ha).
    assert (In b sorted) as Hbs
      by (eapply Permutation_in; [symmetry; apply Array_sort_perm | exact Hb]).
    rewrite <- (firstn_skipn (Z.to_nat m) sorted) in Hbs.
    apply in_app_or in Hbs as [Hbs | Hbs]; [contradiction | exact Hbs].
  - intros Hfit. rewrite Hout, firstn_all2.
    + apply Array_sort_perm.
    + unfold sorted. now rewrite Array_sort_length.
Qed.

(** X17: ranking the result of the ranker once more, at the same instant
    and with the same options, returns it unchanged, provided
    [maxResults] is not negative. *)
Theorem ranking_is_idempotent
    (userTrends globalTrends : list RankedTrend) (options : option RankOptions) :
  let opts := default_to options no_options in
  JS.le (Num 0) (default_to (maxResults opts) (Num 50)) = true ->
  let out := combineAndRankTrends Date_parse now userTrends globalTrends options in
  combineAndRankTrends Date_parse now out [] options = out.
Proof.
  intros opts Hmax out.
  destruct (combineAndRankTrends_prefix Date_parse now userTrends globalTrends options)
    as (k & Hout & Hk).
  fold opts out in Hout, Hk. specialize (Hk Hmax).
  set (minS := default_to (minScore opts) (Num 0.1)) in *.
  set (cats := default_to (categories opts) []) in *.
  set (win := default_to (timeWindow opts) (Num 24)) in *.
  set (surv := survivors Date_parse now userTrends globalTrends minS cats win) in *.
  assert (forall trend, In trend out -> In trend surv) as Hsub.
  { intros trend Hin. rewrite Hout in Hin. apply In_prefix in Hin.
    eapply Permutation_in; [apply Array_sort_perm | exact Hin]. }
  assert (StronglySorted (keyGe (fun t => overall (rt_score t))) out) as Hsorted.
  { rewrite Hout. apply StronglySorted_firstn.
    apply (Array_sort_sorted (fun t => overall (rt_score t))), survivors_scored. }
  assert (survivors Date_parse now out [] minS cats win = out) as Hagain.
  { unfold survivors. rewrite app_nil_r.
    rewrite (filter_all (withinTimeWindow Date_parse now win) out)
      by (intros t Ht; now apply Hsub, survivors_spec in Ht).
    assert ((if (0 <? length cats)%nat
             then List.filter (inCategories cats) out else out) = out) as ->.
    { destruct cats as [| c cs]; [reflexivity |]. cbn [length Nat.ltb Nat.leb].
      apply filter_all. intros t Ht. apply Hsub, survivors_spec in Ht.
      destruct Ht as (_ & _ & Hcat & _). now apply Hcat. }
    apply filter_all. intros t Ht. now apply Hsub, survivors_spec in Ht. }
  unfold combineAndRankTrends at 1. fold opts minS cats win.
  change (List.filter (meetsMinScore minS)
            (if (0 <? length cats)%nat
             then List.filter (inCategories cats)
                    (List.filter (withinTimeWindow Date_parse now win) (out ++ []))
             else List.filter (withinTimeWindow Date_parse now win) (out ++ [])))
    with (survivors Date_parse now out [] minS cats win).
  rewrite Hagain.
  change byOverallDesc with (keyDesc (fun t : RankedTrend => overall (rt_score t))).
  rewrite (Array_sort_of_sorted (fun t => overall (rt_score t)) out Hsorted).
  apply Array_slice_all. eapply le_trans_js; [| exact Hk].
  apply le_Num. rewrite Hout. apply le_INR, firstn_le_length.
Qed.

End RankerOrder.

Lemma ranking_keeps_the_best_witness :
  let surv := survivors ISO.parse now0 [user1] [global1; global2]
                (Num 0.1) [] (Num 24) in
  let out := combineAndRankTrends ISO.parse now0 [user1] [global1; global2] None in
  length out = Nat.min (Z.to_nat 50) (length surv) /\
  (forall a b : RankedTrend,
      In a out -> In b surv -> ~ In b out ->
      JS.le (overall (rt_score b)) (overall (rt_score a)) = true) /\
  ((length surv <= Z.to_nat 50)%nat -> Permutation out surv).
Proof.
  apply (ranking_keeps_the_best ISO.parse now0 [user1] [global1; global2] None 50 eq_refl).
  lia.
Defined.

Lemma ranking_is_idempotent_witness :
  combineAndRankTrends ISO.parse now0
    (combineAndRankTrends ISO.parse now0 [user1] [global1; global2] None) [] None
  = combineAndRankTrends ISO.parse now0 [user1] [global1; global2] None.
Proof.
  apply (ranking_is_idempotent ISO.parse now0 [user1] [global1; global2] None).
  apply le_Num. lra.
Defined.

(* ===================================================================== *)
(** ** Order and shape of the extracted topics *)
(* ===================================================================== *)

Section TopicOrder.

Import Text.

Local Open Scope Z_scope.

Lemma dedupe_from_NoDup (xs seen : list string) : List.NoDup (dedupe_from seen xs).
Proof.
  revert seen. induction xs as [| x xs IH]; intros seen; cbn [dedupe_from];
    [constructor |].
  destruct (existsb (String.eqb x) seen); [apply IH |].
  constructor; [| apply IH].
  intros Hin. apply dedupe_from_In in Hin as [_ Hn]. apply Hn. now left.
Qed.

Lemma NoDup_prefix {A : Type} (k : nat) (l : list A) :
  List.NoDup l -> List.NoDup (firstn k l).
Proof.
  intros Hl. revert k. induction Hl as [| x l Hx Hl IH]; intros [| k];
    cbn [firstn]; try constructor.
  - intros Hin. apply Hx. eapply In_prefix, Hin.
  - apply IH.
Qed.

Lemma keywords_lower_case :
  forallb (fun k => String.eqb (toLowerCase k) k) trendingKeywords = true.
Proof. vm_compute. reflexivity. Qed.

Lemma topics_from_candidates (content : string) (t : string) :
  In t (extractTrendingTopics content) -> In t (snd (collectTrends content)).
Proof.
  intros Hin. rewrite extractTrendingTopics_firstn in Hin.
  apply In_prefix in Hin. apply dedupe_In.
  eapply Permutation_in; [apply Array_sortZ_perm | exact Hin].
Qed.

(** X18: the topics returned are pairwise different and each of them is
    in lower case. *)
Theorem topics_distinct_lower_case (content : string) :
  NoDup (extractTrendingTopics content) /\
  Forall (fun t => toLowerCase t = t) (extractTrendingTopics content).
Proof.
  split.
  - apply NoDup_ListNoDup. rewrite extractTrendingTopics_firstn.
    apply NoDup_prefix.
    eapply Permutation_NoDup; [symmetry; apply Array_sortZ_perm |].
    apply dedupe_from_NoDup.
  - apply List.Forall_forall. intros t Hin.
    apply topics_from_candidates, collected_origin in Hin.
    assert (forall l, In t (map toLowerCase l) -> toLowerCase t = t) as Hlow.
    { intros l Hl. apply in_map_iff in Hl as (t0 & <- & _). apply toLowerCase_idem. }
    destruct Hin as [Hin | [Hin | [Hin | Hin]]]; try (eapply Hlow; exact Hin).
    pose proof keywords_lower_case as Hk. rewrite forallb_forall in Hk.
    apply String.eqb_eq. now apply Hk.
Qed.

Section SortZ.

Context {A : Type}.
Variable key : A -> Z.

Lemma sort_insertZ_sorted (x : A) (l : list A) :
  StronglySorted (fun a b => key b <= key a) l ->
  StronglySorted (fun a b => key b <= key a)
    (sort_insertZ (fun a b => key b - key a) x l).
Proof.
  intros Hs. induction Hs as [| y l Hs IH Hy]; cbn [sort_insertZ].
  - repeat constructor.
  - destruct (Z.ltb_spec 0 (key x - key y)) as [Hlt | Hge].
    + constructor; [now constructor |].
      constructor; [lia |].
      eapply List.Forall_impl; [| exact Hy]. cbv beta. intros z Hz. lia.
    + constructor; [exact IH |].
      eapply Permutation_Forall; [symmetry; apply sort_insertZ_perm |].
      constructor; [lia | exact Hy].
Qed.

Lemma Array_sortZ_sorted (l : list A) :
  StronglySorted (fun a b => key b <= key a)
    (Array_sortZ (fun a b => key b - key a) l).
Proof.
  unfold Array_sortZ.
  assert (forall acc, StronglySorted (fun a b => key b <= key a) acc ->
            StronglySorted (fun a b => key b <= key a)
              (fold_left (fun acc x => sort_insertZ (fun a b => key b - key a) x acc)
                 l acc)) as H.
  { induction l as [| x l IH]; intros acc Hacc; cbn [fold_left]; [exact Hacc |].
    apply IH. now apply sort_insertZ_sorted. }
  apply H. constructor.
Qed.

End SortZ.

(** What the keyword loop stores: the number of matches of a keyword
    that occurs, and nothing else. *)
Lemma keyword_loop_scores (content : string) (keywords : list string) :
  forall (st : gmap string nat * list string) (k : string) (n : nat),
    fst (fold_left (scoreKeyword content) keywords st) !! k = Some n ->
    fst st !! k = Some n \/
    (In k keywords /\ n = countKeyword k content /\ (0 < n)%nat).
Proof.
  induction keywords as [| kw kws IH]; intros st k n; cbn [fold_left]; [auto |].
  intros Hk. apply IH in Hk as [Hk | (Hin & Hn)]; [| right; split; [now right | exact Hn]].
  unfold scoreKeyword in Hk.
  destruct (Nat.ltb_spec 0 (countKeyword kw content)) as [Hpos | _]; [| auto].
  cbn [fst] in Hk. destruct (decide (kw = k)) as [-> | Hne].
  - rewrite lookup_insert_eq in Hk. injection Hk as <-. right.
    split; [now left | split; [reflexivity | exact Hpos]].
  - rewrite lookup_insert_ne in Hk by exact Hne. auto.
Qed.

Lemma stored_score (content : string) (k : string) (n : nat) :
  fst (collectTrends content) !! k = Some n ->
  In k trendingKeywords /\ n = countKeyword k content /\ (0 < n)%nat.
Proof.
  destruct (collectTrends_snd content) as (scores & kept & Hfold & ->).
  cbn [fst]. intros Hk.
  pose proof (keyword_loop_scores content trendingKeywords
                (∅, map toLowerCase (matchTagged "#" content) ++
                    map toLowerCase (firstn 5 (matchTagged "@" content))) k n) as Hloop.
  rewrite Hfold in Hloop. cbn [fst] in Hloop.
  destruct (Hloop Hk) as [Hempty | Hres]; [| exact Hres].
  rewrite lookup_empty in Hempty. discriminate.
Qed.

Lemma keyword_loop_preserves (content : string) (k : string) (keywords : list string) :
  forall st : gmap string nat * list string,
    fst st !! k = Some (countKeyword k content) ->
    fst (fold_left (scoreKeyword content) keywords st) !! k
    = Some (countKeyword k content).
Proof.
  induction keywords as [| kw kws IH]; intros st Hk; cbn [fold_left]; [exact Hk |].
  apply IH. unfold scoreKeyword.
  destruct (0 <? countKeyword kw content)%nat; [| exact Hk].
  cbn [fst]. destruct (decide (kw = k)) as [-> | Hne].
  - now rewrite lookup_insert_eq.
  - now rewrite lookup_insert_ne by exact Hne.
Qed.

Lemma keyword_loop_stores (content : string) (k : string) (keywords : list string) :
  forall st : gmap string nat * list string,
    In k keywords -> (0 < countKeyword k content)%nat ->
    fst (fold_left (scoreKeyword content) keywords st) !! k
    = Some (countKeyword k content).
Proof.
  induction keywords as [| kw kws IH]; intros st Hin Hpos; [contradiction |].
  cbn [fold_left]. destruct (decide (kw = k)) as [-> | Hne].
  - apply keyword_loop_preserves. unfold scoreKeyword.
    apply Nat.ltb_lt in Hpos. rewrite Hpos. cbn [fst]. now rewrite lookup_insert_eq.
  - apply IH; [| exact Hpos]. destruct Hin as [Heq | Hin]; [contradiction | exact Hin].
Qed.

Lemma stored_keyword (content : string) (k : string) :
  In k trendingKeywords -> (0 < countKeyword k content)%nat ->
  fst (collectTrends content) !! k = Some (countKeyword k content).
Proof.
  intros Hin Hpos.
  destruct (collectTrends_snd content) as (scores & kept & Hfold & ->).
  cbn [fst].
  pose proof (keyword_loop_stores content k trendingKeywords
                (∅, map toLowerCase (matchTagged "#" content) ++
                    map toLowerCase (firstn 5 (matchTagged "@" content))) Hin Hpos) as Hloop.
  now rewrite Hfold in Hloop.
Qed.

Lemma relevance_cases (scores : gmap string nat) (t : string) :
  (scores !! t = None ->
   relevance scores t = if startsWith t "#" then 2 else 1) /\
  (forall n : nat, scores !! t = Some n -> (0 < n)%nat ->
   relevance scores t = Z.of_nat n) /\
  (2 < relevance scores t ->
   exists n : nat, scores !! t = Some n /\ relevance scores t = Z.of_nat n).
Proof.
  unfold relevance. destruct (scores !! t) as [[| n] |].
  - split; [discriminate |]. split.
    + intros n Hn Hpos. injection Hn as <-. lia.
    + destruct (startsWith t "#"); lia.
  - split; [discriminate |]. split.
    + intros m Hm _. now injection Hm as <-.
    + intros _. now exists (S n).
  - split; [reflexivity |]. split; [discriminate |].
    destruct (startsWith t "#"); lia.
Qed.

(** X19: the topics come out in the order of their relevance, highest
    first.  The relevance of a topic is the number of matches of a
    keyword of the list, and otherwise 2 for a hashtag and 1 for every
    other entry; so a keyword found three times or more precedes every
    hashtag, and a hashtag precedes every mention. *)
Theorem topics_sorted_by_relevance (content : string) :
  let scores := fst (collectTrends content) in
  StronglySorted (fun a b => relevance scores b <= relevance scores a)
    (extractTrendingTopics content) /\
  (forall t : string,
      (startsWith t "#" = true -> relevance scores t = 2) /\
      (startsWith t "@" = true -> relevance scores t = 1) /\
      (In t trendingKeywords -> (0 < countKeyword t content)%nat ->
       relevance scores t = Z.of_nat (countKeyword t content)) /\
      (2 < relevance scores t ->
       In t trendingKeywords /\
       relevance scores t = Z.of_nat (countKeyword t content))).
Proof.
  intros scores. split.
  - rewrite extractTrendingTopics_firstn. apply StronglySorted_firstn.
    apply (Array_sortZ_sorted (relevance scores)).
  - assert (forall k n, scores !! k = Some n ->
              In k trendingKeywords /\ n = countKeyword k content /\ (0 < n)%nat)
      as Hstored by apply stored_score.
    assert (forall k, In k trendingKeywords -> (0 < countKeyword k content)%nat ->
              scores !! k = Some (countKeyword k content))
      as Hkeyword by apply stored_keyword.
    clearbody scores. intros t.
    destruct (relevance_cases scores t) as (Hnone & Hsome & Hbig).
    assert (forall m : ascii, m = "#"%char \/ m = "@"%char ->
              startsWith t m = true -> scores !! t = None) as Hnokey.
    { intros m Hm Hst. destruct (scores !! t) as [n |] eqn:Hk; [exfalso | reflexivity].
      apply Hstored in Hk as (Hin & _).
      rewrite (marked_entry_is_tag content m t Hm) in Hst; [discriminate | now left]. }
    split; [| split; [| split]].
    + intros Hst. rewrite Hnone by (apply (Hnokey "#"%char); auto).
      now rewrite Hst.
    + intros Hst. rewrite Hnone by (apply (Hnokey "@"%char); auto).
      destruct (startsWith t "#") eqn:Hh; [| reflexivity].
      pose proof (startsWith_unique _ _ _ Hst Hh). discriminate.
    + intros Hin Hpos. apply Hsome; [now apply Hkeyword | exact Hpos].
    + intros H2. destruct (Hbig H2) as (n & Hk & Hrel).
      apply Hstored in Hk as (Hin & Hn & _). split; [exact Hin |]. now rewrite Hrel, Hn.
Qed.

End TopicOrder.
(* ===================================================================== *)
(** ** Properties of the source icons and names *)
(* ===================================================================== *)

Section FaviconProps.

Variable URL_hostname : string -> option string.

Lemma ownProperty_In (o : list (string * string)) (k v : string) :
  ownProperty o k = Some v -> In v (map snd o).
Proof.
  induction o as [| [k' v'] o IH]; cbn [ownProperty map snd]; [discriminate |].
  destruct (String.eqb k' k); [intros [= ->]; now left | right; now apply IH].
Qed.

Lemma defaultFavicons_https :
  forallb (fun icon => Str.isPrefixOf (list_ascii_of_string "https://")
                         (list_ascii_of_string icon))
    (map snd defaultFavicons) = true.
Proof. vm_compute. reflexivity. Qed.

Lemma faviconByType_cases (source : Source) :
  (exists icon : string,
      faviconByType source = Own icon /\
      Str.isPrefixOf (list_ascii_of_string "https://") (list_ascii_of_string icon) = true) \/
  (faviconByType source = Inherited (src_type source) /\
   In (src_type source) objectPrototypeKeys).
Proof.
  unfold faviconByType.
  destruct (_ && _); [left; eexists; split; reflexivity |].
  destruct (_ && _); [left; eexists; split; reflexivity |].
  unfold getProperty.
  destruct (ownProperty defaultFavicons (src_type source)) as [v |] eqn:Hown.
  - left. exists v. split; [reflexivity |].
    apply ownProperty_In in Hown. pose proof defaultFavicons_https as Hall.
    rewrite forallb_forall in Hall. now apply Hall.
  - destruct (Array_includes objectPrototypeKeys (src_type source)) eqn:Hinh.
    + right. split; [reflexivity |]. now apply Array_includes_In.
    + left. eexists. split; reflexivity.
Qed.

Lemma faviconByType_content (source : Source) :
  faviconByType source =
  faviconByType {| src_type := src_type source; src_url := src_url source;
                   src_content := None |}.
Proof.
  unfold faviconByType. cbn [src_type src_content]. unfold isTruthy at 3 4.
  cbn [truthy]. rewrite !andb_false_r.
  destruct (isTruthy (src_content source)); [| now rewrite !andb_false_r].
  rewrite !andb_true_r.
  destruct (String.eqb_spec (src_type source) "youtube") as [-> | _]; [reflexivity |].
  destruct (String.eqb_spec (src_type source) "x") as [-> | _]; [reflexivity |].
  destruct (String.eqb_spec (src_type source) "twitter") as [-> | _]; [reflexivity |].
  destruct (String.eqb_spec (src_type source) "x_hashtag") as [-> | _]; reflexivity.
Qed.

Lemma inherited_keys_apart :
  forallb (fun k =>
             negb (String.eqb k "youtube") && negb (String.eqb k "x") &&
             negb (String.eqb k "twitter") && negb (String.eqb k "x_hashtag") &&
             match ownProperty defaultFavicons k with None => true | Some _ => false end)
    objectPrototypeKeys = true.
Proof. vm_compute. reflexivity. Qed.

Lemma faviconByType_inherited (source : Source) :
  In (src_type source) objectPrototypeKeys ->
  faviconByType source = Inherited (src_type source).
Proof.
  intros Hin. pose proof inherited_keys_apart as Hall.
  rewrite forallb_forall in Hall. specialize (Hall _ Hin).
  apply andb_true_iff in Hall as [Hall Hown].
  apply andb_true_iff in Hall as [Hall H4].
  apply andb_true_iff in Hall as [Hall H3].
  apply andb_true_iff in Hall as [H1 H2].
  apply negb_true_iff in H1, H2, H3, H4.
  unfold faviconByType, getProperty. rewrite H1, H2, H3, H4. cbn [andb orb].
  destruct (ownProperty defaultFavicons (src_type source)); [discriminate |].
  apply Array_includes_In in Hin. now rewrite Hin.
Qed.

Lemma faviconByType_own (source : Source) :
  ~ In (src_type source) objectPrototypeKeys ->
  exists icon : string,
    faviconByType source = Own icon /\
    Str.isPrefixOf (list_ascii_of_string "https://") (list_ascii_of_string icon) = true.
Proof.
  intros Hnot. destruct (faviconByType_cases source) as [Hown | [_ Hin]];
    [exact Hown | contradiction].
Qed.

(** X20: the icon of a source does not depend on its content: the two
    branches that test the content return what the table of defaults
    returns for the same type.  With an address whose host can be read
    the icon is an https address.  Without one, the value that every
    object inherits under the name of the type comes back when the type
    is such a name, and an https address otherwise. *)
Theorem favicon_ignores_content (source : Source) :
  let usable :=
    exists url domain : string,
      truthy (src_url source) = Some url /\ URL_hostname url = Some domain in
  let https (v : PropertyValue) :=
    exists icon : string,
      v = Own icon /\
      Str.isPrefixOf (list_ascii_of_string "https://") (list_ascii_of_string icon) = true in
  getFaviconUrl URL_hostname source =
  getFaviconUrl URL_hostname
    {| src_type := src_type source; src_url := src_url source; src_content := None |} /\
  (usable -> https (getFaviconUrl URL_hostname source)) /\
  (~ usable ->
   (In (src_type source) objectPrototypeKeys ->
    getFaviconUrl URL_hostname source = Inherited (src_type source)) /\
   (~ In (src_type source) objectPrototypeKeys ->
    https (getFaviconUrl URL_hostname source))).
Proof.
  intros usable https. unfold getFaviconUrl. cbn [src_url].
  destruct (truthy (src_url source)) as [url |] eqn:Hurl;
    [destruct (URL_hostname url) as [domain |] eqn:Hhost |].
  - split; [reflexivity |]. split.
    + intros _. unfold https.
      repeat (destruct (_ || _); [eexists; split; reflexivity |]).
      repeat (destruct (Str.includes domain _); [eexists; split; reflexivity |]).
      eexists. split; reflexivity.
    + intros Hnot. exfalso. apply Hnot. now exists url, domain.
  - split; [apply faviconByType_content |]. split.
    + intros (url' & domain & Hu & Hd). congruence.
    + intros _. split; [apply faviconByType_inherited | apply faviconByType_own].
  - split; [apply faviconByType_content |]. split.
    + intros (url' & domain & Hu & _). discriminate.
    + intros _. split; [apply faviconByType_inherited | apply faviconByType_own].
Qed.

Lemma replace_leading (c : ascii) (rest : string) :
  Str.replace (String c rest) (String c "") "" = rest.
Proof.
  unfold Str.replace. cbn [list_ascii_of_string Str.replaceL Str.isPrefixOf].
  rewrite Ascii.eqb_refl. cbn [andb length skipn app].
  apply string_of_list_ascii_of_string.
Qed.

(** X21: the display name of a source has at most 15 characters unless
    it is the type of the source, which is returned as it is; a content
    that begins with [@] is shown without it. *)
Theorem display_name_bounded (source : Source) :
  let name := getSourceDisplayName URL_hostname source in
  ((String.length name <= 15)%nat \/ name = src_type source) /\
  (forall rest : string,
      src_content source = Some (String "@" rest) ->
      name = Str.substring0 rest 15).
Proof.
  intros name. unfold name, getSourceDisplayName. split.
  - destruct (truthy (src_content source)) as [content |].
    + left. rewrite substring0_length. apply Nat.le_min_l.
    + destruct (truthy (src_url source)) as [url |]; [| now right].
      destruct (URL_hostname url) as [hostname |]; [| now right].
      left. rewrite substring0_length. apply Nat.le_min_l.
  - intros rest ->. cbn [truthy String.eqb]. now rewrite replace_leading.
Qed.

End FaviconProps.

(** A host that merely contains [x.com] gets the icon of X. *)
Example favicon_by_substring :
  getFaviconUrl example_hostname
    {| src_type := "url"; src_url := Some "https://www.netflix.com/title/1";
       src_content := None |}
  = Own "https://abs.twimg.com/favicons/twitter.2.ico".
Proof. vm_compute. reflexivity. Qed.

Example favicon_inherited : getFaviconUrl example_hostname odd_source = Inherited "constructor".
Proof. vm_compute. reflexivity. Qed.

Example display_name_examples :
  getSourceDisplayName example_hostname handle_source = "creatorpulse_of"%string /\
  getSourceDisplayName example_hostname address_source = "example.com"%string /\
  getSourceDisplayName example_hostname odd_source = "constructor"%string.
Proof. vm_compute. repeat split. Qed.

(* ===================================================================== *)
(** ** Properties of the crawl orchestration *)
(* ===================================================================== *)

Section CrawlProps.

Local Open Scope Z_scope.

Variable crawlWithFirecrawlMCP : string -> CrawlCall -> option (list CrawlResult).

Lemma firstn_app_cut {A : Type} (n : nat) (v c : list A) :
  firstn n (firstn n v ++ c) = firstn n (v ++ c).
Proof.
  destruct (Nat.le_ge_cases n (length v)) as [Hle | Hge].
  - rewrite !firstn_app. rewrite length_firstn, Nat.min_l by exact Hle.
    rewrite Nat.sub_diag. cbn [firstn]. rewrite firstn_firstn, Nat.min_id.
    replace (n - length v)%nat with O by lia. reflexivity.
  - now rewrite (firstn_all2 v) by exact Hge.
Qed.

Lemma addCapped_fold (ls : list (list CrawlResult)) :
  forall acc : list CrawlResult,
    (length acc <= 20)%nat ->
    fold_left addCapped (map fulfilled ls) acc = firstn 20 (acc ++ concat ls).
Proof.
  induction ls as [| v ls IH]; intros acc Hacc; cbn [map fold_left concat].
  - rewrite app_nil_r. symmetry. now apply firstn_all2.
  - cbn [addCapped]. destruct (Nat.ltb_spec (length acc) 20) as [Hlt | Hge].
    + replace (20 - Z.of_nat (length acc)) with (Z.of_nat (20 - length acc)) by lia.
      rewrite slice_int_firstn.
      rewrite IH by (rewrite length_app, length_firstn; lia).
      rewrite <- !app_assoc, !firstn_app.
      replace (firstn 20 acc) with acc by (symmetry; apply firstn_all2; lia).
      f_equal. rewrite <- !firstn_app. apply firstn_app_cut.
    + rewrite IH by exact Hacc. rewrite !firstn_app.
      replace (20 - length acc)%nat with O by lia. reflexivity.
Qed.

Lemma crawlSites_run (sites : list string) :
  let call := {| cc_limit := 2; cc_maxAge := 1800000; cc_useCrawl := true |} in
  Array_mapC (crawlSite crawlWithFirecrawlMCP) sites =
  (map fulfilled (map (fun site => pagesOf (crawlWithFirecrawlMCP site call)) sites),
   map (fun site => (site, call)) sites).
Proof.
  intros call. induction sites as [| site sites IH]; cbn [Array_mapC map]; [reflexivity |].
  unfold mbind, Calls_bind, mret, Calls_ret. rewrite IH.
  unfold crawlSite, callCrawler, mbind, Calls_bind, mret, Calls_ret. fold call.
  destruct (crawlWithFirecrawlMCP site call); rewrite !app_nil_r; reflexivity.
Qed.

Lemma last_sites_apart :
  forallb (fun site => negb (Array_includes (firstn 10 trendingSites) site))
    (skipn 10 trendingSites) = true.
Proof. vm_compute. reflexivity. Qed.

Lemma length_concat_bound {A B : Type} (f : A -> list B) (b : nat) (l : list A) :
  (forall x, length (f x) <= b)%nat ->
  (length (concat (map f l)) <= b * length l)%nat.
Proof.
  intros Hf. induction l as [| x l IH]; cbn [map concat length]; [lia |].
  rewrite length_app. specialize (Hf x). lia.
Qed.

(** X22: the crawl of the trending sites calls the crawler for the first
    ten sites of its list, once each and in the order of the list, and
    for no other: the last five sites are never requested.  It returns
    the first 20 pages found, in that order.  When no site yields more
    than the two pages asked for, the cap of 20 cuts nothing. *)
Theorem trending_crawl_capped :
  let call := {| cc_limit := 2; cc_maxAge := 1800000; cc_useCrawl := true |} in
  let pages :=
    concat (map (fun site => pagesOf (crawlWithFirecrawlMCP site call))
              (firstn 10 trendingSites)) in
  let results := fst (crawlTrendingSites crawlWithFirecrawlMCP) in
  let calls := snd (crawlTrendingSites crawlWithFirecrawlMCP) in
  results = firstn 20 pages /\
  (length results <= 20)%nat /\
  ((forall site, (length (pagesOf (crawlWithFirecrawlMCP site call)) <= 2)%nat) ->
   results = pages) /\
  calls = map (fun site => (site, call)) (firstn 10 trendingSites) /\
  (forall site, In site (skipn 10 trendingSites) -> ~ In site (map fst calls)).
Proof.
  intros call pages results calls.
  assert (crawlTrendingSites crawlWithFirecrawlMCP =
          (firstn 20 pages, map (fun site => (site, call)) (firstn 10 trendingSites)))
    as Hrun.
  { unfold crawlTrendingSites. change 10 with (Z.of_nat 10).
    rewrite slice_int_firstn, crawlSites_run.
    unfold mbind, Calls_bind, mret, Calls_ret.
    rewrite addCapped_fold by (cbn; lia). now rewrite app_nil_r. }
  unfold results, calls. rewrite Hrun. cbn [fst snd].
  split; [reflexivity |]. split; [rewrite length_firstn; lia |].
  split; [| split; [reflexivity |]].
  - intros Hlimit. apply firstn_all2. unfold pages.
    pose proof (length_concat_bound
                  (fun site => pagesOf (crawlWithFirecrawlMCP site call)) 2
                  (firstn 10 trendingSites) Hlimit) as Hlen.
    rewrite length_firstn in Hlen. lia.
  - intros site Hlast Hin. rewrite map_map in Hin. cbn [fst] in Hin.
    rewrite map_id in Hin.
    pose proof last_sites_apart as Hapart. rewrite forallb_forall in Hapart.
    specialize (Hapart site Hlast). apply negb_true_iff in Hapart.
    apply Array_includes_In in Hin. congruence.
Qed.

Lemma addFulfilled_fold (call : CrawlCall) (batch : list string) :
  forall results : list CrawlResult,
    fold_left addFulfilled
      (map (fun url => settle (crawlWithFirecrawlMCP url call)) batch) results
    = results ++ concat (map (fun url => pagesOf (crawlWithFirecrawlMCP url call)) batch).
Proof.
  induction batch as [| url batch IH]; intros results; cbn [map fold_left concat].
  - now rewrite app_nil_r.
  - rewrite IH. destruct (crawlWithFirecrawlMCP url call); cbn [settle addFulfilled pagesOf].
    + now rewrite <- app_assoc.
    + reflexivity.
Qed.

Lemma slice_int_batch {A : Type} (l : list A) (i c : Z) :
  0 <= i < Z.of_nat (length l) -> 1 <= c ->
  skipn (Z.to_nat i) l = slice_int l i (i + c) ++ skipn (Z.to_nat (i + c)) l.
Proof.
  intros Hi Hc. unfold slice_int.
  assert ((i <? 0) = false) as -> by (apply Z.ltb_ge; lia).
  assert ((i + c <? 0) = false) as -> by (apply Z.ltb_ge; lia).
  rewrite (Z.min_l i) by lia.
  destruct (Z.le_ge_cases (i + c) (Z.of_nat (length l))) as [Hle | Hge].
  - rewrite Z.min_l by lia.
    replace (Z.to_nat (i + c)) with (Z.to_nat (i + c - i) + Z.to_nat i)%nat by lia.
    rewrite <- skipn_skipn. symmetry. apply firstn_skipn.
  - rewrite Z.min_r by lia.
    rewrite (skipn_all2 (n := Z.to_nat (i + c))) by lia. rewrite app_nil_r.
    symmetry. apply firstn_all2. rewrite length_skipn. lia.
Qed.

Lemma batchLoop_flattens (urls : list string) (limit maxAge c : Z) :
  1 <= c ->
  let call := {| cc_limit := limit; cc_maxAge := maxAge; cc_useCrawl := false |} in
  let n := Z.of_nat (length urls) in
  forall (fuel : nat) (i : Z) (results : list CrawlResult) (pauses : nat),
    0 <= i -> Z.max 0 (n - i) < Z.of_nat fuel ->
    batchLoop crawlWithFirecrawlMCP fuel urls limit maxAge c i results pauses =
    Some (results ++
            concat (map (fun url => pagesOf (crawlWithFirecrawlMCP url call))
                      (skipn (Z.to_nat i) urls)),
          (pauses + Z.to_nat ((n - i - 1) / c))%nat).
Proof.
  intros Hc call n fuel. induction fuel as [| fuel IH]; intros i results pauses Hi Hfuel.
  - lia.
  - cbn [batchLoop]. fold n. destruct (Z.ltb_spec i n) as [Hlt | Hge].
    + rewrite IH by lia. fold call. rewrite addFulfilled_fold.
      rewrite (slice_int_batch urls i c) by (unfold n in *; lia).
      rewrite map_app, concat_app, <- app_assoc. f_equal. f_equal.
      destruct (Z.ltb_spec (i + c) n) as [Hmore | Hlast].
      * replace (n - i - 1) with ((n - (i + c) - 1) + 1 * c) by lia.
        rewrite Z.div_add by lia.
        assert (0 <= (n - (i + c) - 1) / c) by (apply Z.div_pos; lia). lia.
      * assert ((n - (i + c) - 1) / c < 0) by (apply Z.div_lt_upper_bound; lia).
        rewrite (Z.div_small (n - i - 1) c) by lia. lia.
    + rewrite skipn_all2 by (unfold n in *; lia). cbn [map concat].
      rewrite app_nil_r.
      assert ((n - i - 1) / c < 0) by (apply Z.div_lt_upper_bound; lia).
      f_equal. f_equal. lia.
Qed.

(** X23: for a concurrency of at least 1 the batch crawl ends and
    returns the pages of all addresses in the order of the addresses,
    the rejected calls giving none: the size of the batches changes
    nothing but the number of pauses, [(n - 1) / concurrency] (rounded
    down) for [n] addresses. *)
Theorem batch_crawl_flattens
    (fuel : nat) (urls : list string) (limit maxAge concurrency : option Z) :
  let c := default_to concurrency 3 in
  let call := {| cc_limit := default_to limit 5;
                 cc_maxAge := default_to maxAge 3600000;
                 cc_useCrawl := false |} in
  1 <= c -> (length urls < fuel)%nat ->
  batchCrawlUrls crawlWithFirecrawlMCP fuel urls limit maxAge concurrency =
  Some (concat (map (fun url => pagesOf (crawlWithFirecrawlMCP url call)) urls),
        Z.to_nat ((Z.of_nat (length urls) - 1) / c)).
Proof.
  intros c call Hc Hfuel. unfold batchCrawlUrls. fold c.
  rewrite (batchLoop_flattens urls _ _ c Hc) by lia.
  cbn [Z.to_nat skipn app Nat.add]. fold call. now rewrite Z.sub_0_r.
Qed.

Lemma batchLoop_spins (urls : list string) (limit maxAge c : Z) :
  c <= 0 -> urls <> [] ->
  forall (fuel : nat) (i : Z) (results : list CrawlResult) (pauses : nat),
    i <= 0 ->
    batchLoop crawlWithFirecrawlMCP fuel urls limit maxAge c i results pauses = None.
Proof.
  intros Hc Hurls fuel. induction fuel as [| fuel IH]; intros i results pauses Hi;
    cbn [batchLoop]; [reflexivity |].
  assert ((i <? Z.of_nat (length urls)) = true) as ->.
  { apply Z.ltb_lt. destruct urls; [contradiction | cbn [length]; lia]. }
  apply IH. lia.
Qed.

(** X24: with a concurrency of 0 or less and at least one address the
    loop of the batch crawl never ends: no number of turns gives a
    result. *)
Theorem batch_crawl_never_ends
    (urls : list string) (limit maxAge concurrency : option Z) :
  default_to concurrency 3 <= 0 -> urls <> [] ->
  forall fuel : nat,
    batchCrawlUrls crawlWithFirecrawlMCP fuel urls limit maxAge concurrency = None.
Proof.
  intros Hc Hurls fuel. unfold batchCrawlUrls.
  now apply batchLoop_spins.
Qed.

End CrawlProps.

Lemma trending_crawl_capped_witness :
  fst (crawlTrendingSites one_page_crawler) =
  concat (map (fun site => pagesOf (one_page_crawler site
                 {| cc_limit := 2; cc_maxAge := 1800000; cc_useCrawl := true |}))
            (firstn 10 trendingSites)).
Proof.
  refine (proj1 (proj2 (proj2 (trending_crawl_capped one_page_crawler))) _).
  intros site. cbn. lia.
Defined.

(** The crawler is called for ten sites and ten pages come back. *)
Example trending_crawl_example :
  map fst (snd (crawlTrendingSites one_page_crawler)) = firstn 10 trendingSites /\
  length (fst (crawlTrendingSites one_page_crawler)) = 10%nat.
Proof. vm_compute. split; reflexivity. Qed.

Lemma batch_crawl_flattens_witness :
  batchCrawlUrls one_page_crawler 6 five_urls None None (Some 2%Z) =
  Some (concat (map (fun url => pagesOf (one_page_crawler url
                       {| cc_limit := 5; cc_maxAge := 3600000; cc_useCrawl := false |}))
                  five_urls),
        Z.to_nat ((Z.of_nat (length five_urls) - 1) / 2)).
Proof.
  apply (batch_crawl_flattens one_page_crawler 6 five_urls None None (Some 2%Z)).
  - cbn. lia.
  - cbn. lia.
Defined.

Lemma batch_crawl_never_ends_witness :
  batchCrawlUrls one_page_crawler 1000 five_urls None None (Some 0%Z) = None.
Proof.
  apply (batch_crawl_never_ends one_page_crawler five_urls None None (Some 0%Z)).
  - cbn. lia.
  - discriminate.
Defined.

(** Five addresses in batches of two: three batches, two pauses. *)
Example batch_crawl_example :
  option_map (fun r => (length (fst r), snd r))
    (batchCrawlUrls one_page_crawler 6 five_urls None None (Some 2%Z))
  = Some (5%nat, 2%nat).
Proof. vm_compute. reflexivity. Qed.

